(** * Sentiment Aura backend: a shallow embedding of [backend/main.py]

    The definitions come first, in the order of the source:

    - [Py]       the Python built-ins the code relies on ([str.lower],
                 [str.strip], [in] on strings, [str.count], [min] and
                 [max] on floats);
    - [Re]       a backtracking matcher for the regular expressions that
                 are written in the source, with [re.search] and
                 [re.findall];
    - [Fallback] [fallback_sentiment_analysis];
    - [Api]      [process_text] and [test_fallback];
    - [Relay]    [websocket_deepgram_proxy] up to the vendor connection;
    - [RelayLoops] [forward_from_deepgram] and [forward_to_deepgram], and
                 the handler around them;
    - [OpenAI]   [sync_call], [call_openai] under its timeout, and the
                 endpoints [test_openai] and [health_check];
    - [Config]   the allowed origins of the CORS middleware;
    - [Script]   the advice of the script [test_openai.py];
    - [Binary64], [Halves] the scorer's arithmetic on IEEE doubles;
    - [Spec], [Samples], [Aux], [Terms], [Cases]  the vocabulary of the
                 specification, sample replies, and notions the proofs use.

    The theorems follow, one module per part of the code.

    Conventions.  Text is a [string] of ASCII characters (code below 128);
    outside ASCII Python's [lower], [strip], [\s] and [\b] follow Unicode
    tables that are not modelled.  A Python [float] is a [pyfloat]: an
    exact rational, or one of the three special values.  The scorer's
    arithmetic is carried out on rationals; [Binary64] replays it on
    doubles, and [Binary64Facts] checks that no comparison the code makes
    is decided differently.  Calls into libraries whose code is not part of
    the repository ([json.loads], [float] on a string, the validation of a
    list item) are fields of [Api.library]: the theorems hold whatever
    these return. *)

From Stdlib Require Import String Ascii List Bool Arith ZArith QArith Lia Lqa.
From Stdlib Require Import Permutation Sorted.
From Stdlib Require Import PrimFloat Uint63.
From Stdlib Require Import DecimalString.
Import ListNotations.

Local Open Scope string_scope.
Local Open Scope list_scope.

(* ================================================================== *)
(** * Python built-ins *)
(* ================================================================== *)

Module Py.

(** ** Characters *)

Definition code (c : ascii) : nat := nat_of_ascii c.

Definition between (lo hi : nat) (c : ascii) : bool :=
  (lo <=? code c)%nat && (code c <=? hi)%nat.

Definition is_upper (c : ascii) : bool := between 65 90 c.
Definition is_lower (c : ascii) : bool := between 97 122 c.
Definition is_digit (c : ascii) : bool := between 48 57 c.

(** [\w] on ASCII text: letters, digits and the underscore. *)
Definition is_word (c : ascii) : bool :=
  is_upper c || is_lower c || is_digit c || (code c =? 95)%nat.

(** [str.isspace] on ASCII text, which is also what [str.strip()] removes
    and what [\s] matches: tab, line feed, vertical tab, form feed,
    carriage return, the four separators 28..31, and the blank. *)
Definition is_space (c : ascii) : bool :=
  between 9 13 c || between 28 32 c.

Definition lower_ascii (c : ascii) : ascii :=
  if is_upper c then ascii_of_nat (code c + 32) else c.

(** ** Strings *)

(** [s.lower()] *)
Fixpoint lower (s : string) : string :=
  match s with
  | EmptyString => EmptyString
  | String c s' => String (lower_ascii c) (lower s')
  end.

(** [needle in hay] *)
Fixpoint contains (needle hay : string) : bool :=
  if prefix needle hay then true
  else match hay with
       | EmptyString => false
       | String _ hay' => contains needle hay'
       end.

(** [s.count(c)] for a one-character [c] *)
Fixpoint count (c : ascii) (s : string) : Z :=
  match s with
  | EmptyString => 0
  | String d s' => (if Ascii.eqb c d then 1 else 0) + count c s'
  end.

Fixpoint lstrip (s : string) : string :=
  match s with
  | EmptyString => EmptyString
  | String c s' => if is_space c then lstrip s' else s
  end.

Fixpoint rstrip (s : string) : string :=
  match s with
  | EmptyString => EmptyString
  | String c s' =>
      match rstrip s' with
      | EmptyString => if is_space c then EmptyString else String c EmptyString
      | r => String c r
      end
  end.

(** [s.strip()] *)
Definition strip (s : string) : string := rstrip (lstrip s).

(** Truth value of a string: [not s] holds for the empty string only. *)
Definition truthy (s : string) : bool :=
  match s with EmptyString => false | _ => true end.

Fixpoint all_chars (p : ascii -> bool) (s : string) : bool :=
  match s with
  | EmptyString => true
  | String c s' => p c && all_chars p s'
  end.

(** The double quote, and a string between double quotes. *)
Definition dq : string := String (ascii_of_nat 34) EmptyString.
Definition quoted (s : string) : string := dq ++ s ++ dq.
Definition nl : string := String (ascii_of_nat 10) EmptyString.

(** ** Floats *)

Inductive pyfloat : Type :=
| Fin (q : Q)
| PosInf
| NegInf
| NaN.

Definition Qltb (x y : Q) : bool := negb (Qle_bool y x).

(** [a < b] on floats: every comparison with [nan] is false. *)
Definition flt (a b : pyfloat) : bool :=
  match a, b with
  | NaN, _ | _, NaN => false
  | _, NegInf => false
  | NegInf, _ => true
  | PosInf, _ => false
  | Fin _, PosInf => true
  | Fin x, Fin y => Qltb x y
  end.

(** [min(a, b)] and [max(a, b)]: the first argument is kept unless the
    second is strictly smaller (larger). *)
Definition py_min (a b : pyfloat) : pyfloat := if flt b a then b else a.
Definition py_max (a b : pyfloat) : pyfloat := if flt a b then b else a.

(** [max(0.0, min(1.0, s))] *)
Definition clamp01 (s : pyfloat) : pyfloat :=
  py_max (Fin 0) (py_min (Fin 1) s).

(** A float between 0 and 1. *)
Definition in_unit (f : pyfloat) : Prop :=
  match f with
  | Fin q => 0 <= q /\ q <= 1
  | _ => False
  end.

End Py.

(* ================================================================== *)
(** * Regular expressions *)
(* ================================================================== *)

Module Re.
Import Py.

(** The constructs that occur in the patterns of [main.py]: character
    classes, the word boundary [\b], concatenation, the greedy and the lazy
    star, and a capturing group. *)
Inductive regex : Type :=
| Eps
| Chr (p : ascii -> bool)
| WordB
| Cat (r1 r2 : regex)
| Star (r : regex)
| LazyStar (r : regex)
| Group (r : regex).

Fixpoint Lit (s : string) : regex :=
  match s with
  | EmptyString => Eps
  | String c s' => Cat (Chr (Ascii.eqb c)) (Lit s')
  end.

(** [r{n,}] *)
Fixpoint AtLeast (n : nat) (r : regex) : regex :=
  match n with
  | O => Star r
  | S n' => Cat r (AtLeast n' r)
  end.

Definition Cats (rs : list regex) : regex := fold_right Cat Eps rs.

Definition word_opt (c : option ascii) : bool :=
  match c with Some c => is_word c | None => false end.

Definition first_char (s : string) : option ascii :=
  match s with String c _ => Some c | EmptyString => None end.

(** [\b] holds between a word character and a non-word character (or an
    end of the text). *)
Definition at_boundary (prev : option ascii) (s : string) : bool :=
  xorb (word_opt prev) (word_opt (first_char s)).

(** The matcher is the usual backtracking one, in continuation-passing
    style: [k] receives the character before the current position, the rest
    of the text, and the groups closed so far; a [None] from [k] makes the
    matcher try its next alternative, in the order Python's engine tries
    them (greedy: one more iteration first; lazy: the continuation first). *)
Section Matcher.
Context {A : Type}.

Definition cont : Type := option ascii -> string -> list string -> option A.

Fixpoint star_loop (body : option ascii -> string -> list string -> cont -> option A)
         (greedy : bool) (k : cont) (fuel : nat)
         (prev : option ascii) (s : string) (caps : list string) : option A :=
  match fuel with
  | O => k prev s caps
  | S fuel' =>
      let again :=
        body prev s caps
             (fun prev' s' caps' =>
                if (String.length s' <? String.length s)%nat
                then star_loop body greedy k fuel' prev' s' caps'
                else None) in
      if greedy then
        match again with
        | Some a => Some a
        | None => k prev s caps
        end
      else
        match k prev s caps with
        | Some a => Some a
        | None => again
        end
  end.

Fixpoint run (r : regex) (prev : option ascii) (s : string)
         (caps : list string) (k : cont) : option A :=
  match r with
  | Eps => k prev s caps
  | Chr p =>
      match s with
      | String c s' => if p c then k (Some c) s' caps else None
      | EmptyString => None
      end
  | WordB => if at_boundary prev s then k prev s caps else None
  | Cat r1 r2 =>
      run r1 prev s caps (fun prev' s' caps' => run r2 prev' s' caps' k)
  | Star r' => star_loop (run r') true k (String.length s) prev s caps
  | LazyStar r' => star_loop (run r') false k (String.length s) prev s caps
  | Group r' =>
      run r' prev s caps
          (fun prev' s' caps' =>
             k prev' s' (caps' ++ [substring 0 (String.length s - String.length s') s]))
  end.

End Matcher.

(** A match: [group(0)], the groups, and where the match ended. *)
Record rmatch : Type := {
  m_text : string;
  m_groups : list string;
  m_prev : option ascii;
  m_rest : string
}.

Definition match_at (r : regex) (prev : option ascii) (s : string) : option rmatch :=
  run r prev s []
      (fun prev' s' caps =>
         Some {| m_text := substring 0 (String.length s - String.length s') s;
                 m_groups := caps; m_prev := prev'; m_rest := s' |}).

(** [re.search]: the match at the leftmost position that has one. *)
Fixpoint search_from (r : regex) (prev : option ascii) (s : string) : option rmatch :=
  match match_at r prev s with
  | Some m => Some m
  | None =>
      match s with
      | EmptyString => None
      | String c s' => search_from r (Some c) s'
      end
  end.

Definition search (r : regex) (s : string) : option rmatch :=
  search_from r None s.

(** [m.group()] and [m.group(1)] *)
Definition group0 (m : rmatch) : string := m_text m.
Definition group1 (m : rmatch) : string := hd EmptyString (m_groups m).

(** What [re.findall] lists for a match: the group when the pattern has
    one, the whole match otherwise. *)
Definition found (m : rmatch) : string :=
  match m_groups m with
  | g :: _ => g
  | [] => m_text m
  end.

Fixpoint matches_from (fuel : nat) (r : regex) (prev : option ascii) (s : string)
  : list rmatch :=
  match fuel with
  | O => []
  | S fuel' =>
      match search_from r prev s with
      | None => []
      | Some m =>
          m :: match m_text m, m_rest m with
               | EmptyString, EmptyString => []
               | EmptyString, String c s' => matches_from fuel' r (Some c) s'
               | _, rest => matches_from fuel' r (m_prev m) rest
               end
      end
  end.

(** [re.findall]: the non-overlapping matches, left to right. *)
Definition findall (r : regex) (s : string) : list string :=
  map found (matches_from (S (String.length s)) r None s).

End Re.

(* ================================================================== *)
(** * The response model and the fallback scorer *)
(* ================================================================== *)

Module Fallback.
Import Py Re.

(** [class SentimentResponse(BaseModel)] *)
Record SentimentResponse : Type := {
  sentiment : pyfloat;
  keywords : list string;
  emotion : string
}.

(** ** Sentiment words *)

Definition strong_positive : list string :=
  ["love"; "amazing"; "fantastic"; "excellent"; "wonderful"; "delighted";
   "ecstatic"; "thrilled"].

Definition moderate_positive : list string :=
  ["happy"; "joy"; "great"; "good"; "positive"; "excited"; "pleased";
   "satisfied"; "nice"; "fine"; "okay"; "ok"].

Definition strong_negative : list string :=
  ["hate"; "terrible"; "awful"; "horrible"; "disgusting"; "devastated";
   "miserable"].

Definition moderate_negative : list string :=
  ["sad"; "angry"; "bad"; "disappointed"; "frustrated"; "upset"; "worried";
   "fear"; "anxious"; "depressed"; "annoyed"].

(** [n't] is written with the apostrophe's code. *)
Definition negation_words : list string :=
  ["not"; String "n" (String (ascii_of_nat 39) "t"); "no"; "never";
   "nothing"; "nobody"; "nowhere"].

(** [sum(w if word in text_lower else 0 for word in words)] *)
Definition weighted (w : Z) (words : list string) (text_lower : string) : Z :=
  fold_left Z.add
            (map (fun word => if contains word text_lower then w else 0%Z) words)
            0%Z.

Definition positive_score (text_lower : string) : Z :=
  (weighted 2 strong_positive text_lower + weighted 1 moderate_positive text_lower)%Z.

Definition negative_score (text_lower : string) : Z :=
  (weighted 2 strong_negative text_lower + weighted 1 moderate_negative text_lower)%Z.

(** [any(neg in text_lower for neg in negation_words)] *)
Definition has_negation (text_lower : string) : bool :=
  existsb (fun neg => contains neg text_lower) negation_words.

(** The pair [(positive_score, negative_score)] after the negation flip. *)
Definition scores (text_lower : string) : Z * Z :=
  let positive_score := positive_score text_lower in
  let negative_score := negative_score text_lower in
  if has_negation text_lower
  then (negative_score, positive_score)
  else (positive_score, negative_score).

Definition total_score (text_lower : string) : Z :=
  (fst (scores text_lower) + snd (scores text_lower))%Z.

(** [0.5 + ((positive_score - negative_score) / max(total_score * 2, 1)) * 0.5] *)
Definition blend (positive_score negative_score : Z) : Q :=
  let total_score := (positive_score + negative_score)%Z in
  (1#2) + (inject_Z (positive_score - negative_score)
           / inject_Z (Z.max (total_score * 2) 1)) * (1#2).

(** The bias read off the punctuation when no sentiment word was found. *)
Definition punctuation_bias (text : string) : Q :=
  let question_marks := count "?" text in
  let exclamation_marks := count "!" text in
  if (exclamation_marks >? question_marks)%Z then 11#20
  else if (question_marks >? exclamation_marks)%Z then 9#20
  else 1#2.

(** [sentiment] before it is clamped. *)
Definition raw_sentiment (text : string) : Q :=
  let text_lower := lower text in
  let '(positive_score, negative_score) := scores text_lower in
  let total_score := (positive_score + negative_score)%Z in
  if (total_score >? 0)%Z
  then blend positive_score negative_score
  else punctuation_bias text.

(** ** Keywords *)

Definition stop_words : list string :=
  ["the"; "a"; "an"; "and"; "or"; "but"; "in"; "on"; "at"; "to"; "for";
   "of"; "with"; "by"; "is"; "are"; "was"; "were"; "be"; "been"; "being";
   "have"; "has"; "had"; "do"; "does"; "did"; "will"; "would"; "could";
   "should"; "may"; "might"; "must"; "can"; "this"; "that"; "these"; "those";
   "i"; "you"; "he"; "she"; "it"; "we"; "they"; "me"; "him"; "her"; "us";
   "them"].

Definition is_stop_word (w : string) : bool := existsb (String.eqb w) stop_words.

(** [\b[a-z]{3,}\b] *)
Definition word_re : regex :=
  Cats [WordB; AtLeast 3 (Chr is_lower); WordB].

Definition words (text_lower : string) : list string := findall word_re text_lower.

Definition significant_words (text_lower : string) : list string :=
  filter (fun w => negb (is_stop_word w)) (words text_lower).

(** [Counter]: a dictionary from word to count that keeps its keys in the
    order they were first inserted. *)
Definition counter : Type := list (string * nat).

Fixpoint tally (w : string) (c : counter) : counter :=
  match c with
  | [] => [(w, 1%nat)]
  | (v, n) :: c' => if String.eqb v w then (v, S n) :: c' else (v, n) :: tally w c'
  end.

Definition Counter (ws : list string) : counter :=
  fold_left (fun c w => tally w c) ws [].

(** [sorted(items, key=count, reverse=True)]: a stable sort, so entries of
    equal count keep the order they have in the counter. *)
Fixpoint insert_desc (x : string * nat) (l : counter) : counter :=
  match l with
  | [] => [x]
  | y :: l' => if (snd x <? snd y)%nat then y :: insert_desc x l' else x :: l
  end.

Definition sorted_desc (c : counter) : counter := fold_right insert_desc [] c.

(** [c.most_common(n)] *)
Definition most_common (n : nat) (c : counter) : counter :=
  firstn n (sorted_desc c).

(** ** Emotion *)

Definition any_in (ws : list string) (text_lower : string) : bool :=
  existsb (fun word => contains word text_lower) ws.

Definition threshold_emotion (sentiment : pyfloat) : string :=
  if flt (Fin (7#10)) sentiment then "positive"
  else if flt sentiment (Fin (3#10)) then "negative"
  else "neutral".

Definition refine_emotion (emotion text_lower : string) : string :=
  if any_in ["happy"; "joy"; "excited"; "love"] text_lower then "joyful"
  else if any_in ["sad"; "depressed"; "down"] text_lower then "sad"
  else if any_in ["angry"; "mad"; "furious"] text_lower then "angry"
  else if any_in ["calm"; "peaceful"; "relaxed"] text_lower then "calm"
  else emotion.

(** ** The scorer *)

Section Scorer.

(** [list(set(xs))]: the elements of [xs] in the order Python's hash table
    happens to enumerate them, which the language leaves unspecified. *)
Variable list_of_set : list string -> list string.

Definition extract_keywords (text_lower : string) : list string :=
  let significant_words := significant_words text_lower in
  let word_counts := Counter significant_words in
  let keywords := map fst (most_common 5 word_counts) in
  if (List.length keywords =? 0)%nat && (0 <? List.length significant_words)%nat
  then firstn 5 (list_of_set significant_words)
  else keywords.

Definition fallback_sentiment_analysis (text : string) : SentimentResponse :=
  let text_lower := lower text in
  let sentiment := clamp01 (Fin (raw_sentiment text)) in
  let keywords := extract_keywords text_lower in
  let emotion := refine_emotion (threshold_emotion sentiment) text_lower in
  {| sentiment := sentiment;
     keywords := firstn 5 keywords;
     emotion := emotion |}.

End Scorer.

End Fallback.


(* ================================================================== *)
(** * The text endpoint *)
(* ================================================================== *)

Module Api.
Import Py Re Fallback.

(** ** What the libraries hand back *)

#[local] Set Warnings "-register-all".

(** A value built by [json.loads].  A dictionary is the list of its items;
    [json.loads] keeps one item per key. *)
Inductive json : Type :=
| JNull
| JBool (b : bool)
| JInt (z : Z)
| JFloat (f : pyfloat)
| JStr (s : string)
| JList (items : list json)
| JDict (items : list (string * json)).

(** The exceptions library code raises, each with the text [str(e)]
    gives.  [OtherError] stands for the remaining classes ([TypeError],
    [AttributeError], [OverflowError], a validation error, ...). *)
Inductive exn : Type :=
| JSONDecodeError (msg : string)
| ValueError (msg : string)
| OtherError (msg : string).

Definition str (e : exn) : string :=
  match e with
  | JSONDecodeError msg | ValueError msg | OtherError msg => msg
  end.

(** A value, or the exception raised instead. *)
Inductive or_exn (A : Type) : Type :=
| Return (a : A)
| Raise (e : exn).
Arguments Return {A} a.
Arguments Raise {A} e.

(** What a handler ends in: a response, an [HTTPException], or another
    exception on its way up. *)
Inductive outcome (A : Type) : Type :=
| Ok (a : A)
| HTTPException (status_code : nat) (detail : string)
| Uncaught (e : exn).
Arguments Ok {A} a.
Arguments HTTPException {A} status_code detail.
Arguments Uncaught {A} e.

(** The library calls whose code is not part of the repository.  Each maps
    an argument to a value or to the exception it raises. *)
Record library : Type := {
  (** [json.loads(s)]: a value, a [JSONDecodeError], or (for text nested
      too deeply) some other exception *)
  json_loads : string -> or_exn json;
  (** [float(s)] on a string: a float or a [ValueError] *)
  float_of_str : string -> or_exn pyfloat;
  (** what the validation of a [list[str]] field makes of an item that is
      not a string: a string it was coerced to, or a validation error *)
  coerce_str : json -> or_exn string
}.

(** What awaiting [call_openai(prompt)] under [asyncio.wait_for] ends in. *)
Inductive call_outcome : Type :=
| TimedOut
| Failed (error_msg : string)
| Replied (content : option string).

(** The surroundings of one request. *)
Record environment : Type := {
  OPENAI_API_KEY : option string;
  call_openai : string -> call_outcome;
  lib : library
}.

(** What a request leaves behind: whether the global [_openai_client] has
    been created, and the calls made, oldest first. *)
Inductive event : Type :=
| OpenAICall (prompt : string)
| FallbackRun (text : string).

Record state : Type := {
  openai_client : bool;
  trace : list event
}.

(** ** A monad for state and exceptions *)

Definition M (A : Type) : Type := state -> outcome A * state.

Definition ret {A} (a : A) : M A := fun st => (Ok a, st).
Definition http_error {A} (status_code : nat) (detail : string) : M A :=
  fun st => (HTTPException status_code detail, st).
Definition bind {A B} (m : M A) (f : A -> M B) : M B :=
  fun st =>
    match m st with
    | (Ok a, st') => f a st'
    | (HTTPException status_code detail, st') =>
        (HTTPException status_code detail, st')
    | (Uncaught e, st') => (Uncaught e, st')
    end.
Definition lift {A} (r : or_exn A) : M A :=
  fun st =>
    match r with
    | Return a => (Ok a, st)
    | Raise e => (Uncaught e, st)
    end.

(** [try: m] with handlers: [on_http] for [except HTTPException] and
    [on_exn] for the other clauses; a handler that answers [None] leaves
    the exception on its way. *)
Definition try_except {A} (m : M A)
           (on_http : nat -> string -> option (M A))
           (on_exn : exn -> option (M A)) : M A :=
  fun st =>
    match m st with
    | (Ok a, st') => (Ok a, st')
    | (HTTPException status_code detail, st') =>
        match on_http status_code detail with
        | Some recover => recover st'
        | None => (HTTPException status_code detail, st')
        end
    | (Uncaught e, st') =>
        match on_exn e with
        | Some recover => recover st'
        | None => (Uncaught e, st')
        end
    end.

Definition log (ev : event) : M unit :=
  fun st => (Ok tt, {| openai_client := openai_client st;
                       trace := trace st ++ [ev] |}).

Notation "x <- m ;; k" := (bind m (fun x => k))
  (at level 61, m at next level, right associativity).
Notation "m ;;; k" := (bind m (fun _ => k))
  (at level 61, right associativity).

(** ** [get_openai_client] *)

Definition get_openai_client (env : environment) : M unit :=
  fun st =>
    if openai_client st then (Ok tt, st)
    else
      match OPENAI_API_KEY env with
      | Some (String _ _) =>
          (Ok tt, {| openai_client := true; trace := trace st |})
      | _ =>
          (Uncaught (ValueError "OPENAI_API_KEY environment variable is not set"), st)
      end.

(** ** The prompt *)

Definition prompt_for (text : string) : string :=
  String.concat ""
    ["Analyze the following text and return a JSON object with:"; nl;
     "1. "; quoted "sentiment";
     ": a float between 0 and 1 where 0 is very negative and 1 is very positive"; nl;
     "2. "; quoted "keywords";
     ": an array of 3-5 most important keywords or phrases from the text"; nl;
     "3. "; quoted "emotion";
     ": a single word describing the primary emotion (e.g., ";
     quoted "positive"; ", "; quoted "negative"; ", "; quoted "neutral"; ", ";
     quoted "joyful"; ", "; quoted "sad"; ", "; quoted "angry"; ", ";
     quoted "excited"; ", "; quoted "calm"; ")"; nl; nl;
     "Text: "; quoted text; nl; nl;
     "Return ONLY valid JSON in this exact format:"; nl;
     "{"; quoted "sentiment"; ": 0.85, "; quoted "keywords"; ": [";
     quoted "keyword1"; ", "; quoted "keyword2"; ", "; quoted "keyword3";
     "], "; quoted "emotion"; ": "; quoted "positive"; "}"].

(** ** The patterns *)

Definition not_brace (c : ascii) : bool :=
  negb (Ascii.eqb c "{" || Ascii.eqb c "}").
Definition not_quote (c : ascii) : bool := negb (Ascii.eqb c (ascii_of_nat 34)).
Definition digit_or_dot (c : ascii) : bool := is_digit c || Ascii.eqb c ".".
Definition any_char (c : ascii) : bool := true.

(** The patterns are quoted with [Q] standing for the double quote.

    The repeated piece of [json_pattern]: [{[^{}]*}[^{}]*] *)
Definition braces : regex :=
  Cats [Lit "{"; Star (Chr not_brace); Lit "}"; Star (Chr not_brace)].

(** [json_pattern] (line 159): an opening brace, [[^{}]*], any number of
    the piece above, [QsentimentQ], [[^{}]*], any number of the piece
    above, a closing brace. *)
Definition json_pattern : regex :=
  Cats [Lit "{"; Star (Chr not_brace); Star braces;
        Lit (quoted "sentiment");
        Star (Chr not_brace); Star braces; Lit "}"].

(** [QsentimentQ\s*:\s*([0-9.]+)] *)
Definition sentiment_re : regex :=
  Cats [Lit (quoted "sentiment"); Star (Chr is_space); Lit ":";
        Star (Chr is_space);
        Group (Cat (Chr digit_or_dot) (Star (Chr digit_or_dot)))].

(** [QkeywordsQ\s*:\s*\[(.*?)\]], with [re.DOTALL] *)
Definition keywords_re : regex :=
  Cats [Lit (quoted "keywords"); Star (Chr is_space); Lit ":";
        Star (Chr is_space); Lit "[";
        Group (LazyStar (Chr any_char)); Lit "]"].

(** [QemotionQ\s*:\s*Q([^Q]+)Q] *)
Definition emotion_re : regex :=
  Cats [Lit (quoted "emotion"); Star (Chr is_space); Lit ":";
        Star (Chr is_space); Lit dq;
        Group (Cat (Chr not_quote) (Star (Chr not_quote))); Lit dq].

(** [Q([^Q]+)Q] *)
Definition item_re : regex :=
  Cats [Lit dq; Group (Cat (Chr not_quote) (Star (Chr not_quote))); Lit dq].

(** ** Repairing the reply *)

(** The last resort: the three fields, each searched for on its own. *)
Definition extract_fields (L : library) (response : string) : or_exn json :=
  let sentiment_match := search sentiment_re response in
  let keywords_match := findall keywords_re response in
  let emotion_match := search emotion_re response in
  let sentiment_val :=
    match sentiment_match with
    | Some m => float_of_str L (group1 m)
    | None => Return (Fin (1#2))
    end in
  match sentiment_val with
  | Raise e => Raise e
  | Return sentiment_val =>
      let emotion_val :=
        match emotion_match with
        | Some m => group1 m
        | None => "neutral"
        end in
      let keywords_list :=
        match keywords_match with
        | keywords_str :: _ => findall item_re keywords_str
        | [] => []
        end in
      Return (JDict [("sentiment", JFloat sentiment_val);
                     ("keywords", JList (map JStr keywords_list));
                     ("emotion", JStr emotion_val)])
  end.

(** From the reply to [result], as lines 159-193 nest the attempts. *)
Definition repair (L : library) (response : string) : or_exn json :=
  match search json_pattern response with
  | Some json_match =>
      match json_loads L (group0 json_match) with
      | Raise (JSONDecodeError _) => json_loads L response
      | r => r
      end
  | None =>
      match json_loads L response with
      | Raise (JSONDecodeError _) => extract_fields L response
      | r => r
      end
  end.

(** ** Validating and normalising *)

Fixpoint dict_get (key : string) (items : list (string * json)) (default : json) : json :=
  match items with
  | [] => default
  | (k, v) :: items' => if String.eqb k key then v else dict_get key items' default
  end.

(** [result.get(key, default)]; a [result] that is no dictionary has no
    [get]. *)
Definition get (result : json) (key : string) (default : json) : or_exn json :=
  match result with
  | JDict items => Return (dict_get key items default)
  | _ => Raise (OtherError "object has no attribute 'get'")
  end.

(** The least integer that [float] refuses with an [OverflowError]. *)
Definition float_overflow : Z := (2 ^ 1024 - 2 ^ 970)%Z.

(** [float(v)] *)
Definition float_of (L : library) (v : json) : or_exn pyfloat :=
  match v with
  | JFloat f => Return f
  | JInt z =>
      if (Z.abs z <? float_overflow)%Z then Return (Fin (inject_Z z))
      else Raise (OtherError "int too large to convert to float")
  | JBool b => Return (Fin (if b then 1 else 0))
  | JStr s => float_of_str L s
  | _ => Raise (OtherError "float() argument must be a string or a real number")
  end.

(** The validation of one item of [keywords: list[str]]. *)
Definition validate_str (L : library) (v : json) : or_exn string :=
  match v with
  | JStr s => Return s
  | _ => coerce_str L v
  end.

Fixpoint validate_list (L : library) (items : list json) : or_exn (list string) :=
  match items with
  | [] => Return []
  | v :: items' =>
      match validate_str L v with
      | Raise e => Raise e
      | Return s =>
          match validate_list L items' with
          | Raise e => Raise e
          | Return ss => Return (s :: ss)
          end
      end
  end.

(** Lines 195-213: from [result] to the response. *)
Definition normalise (L : library) (result : json) : or_exn SentimentResponse :=
  match get result "sentiment" (JFloat (Fin (1#2))) with
  | Raise e => Raise e
  | Return v =>
      match float_of L v with
      | Raise e => Raise e
      | Return sentiment =>
          let sentiment := clamp01 sentiment in
          match get result "keywords" (JList []) with
          | Raise e => Raise e
          | Return keywords =>
              let keywords :=
                match keywords with JList items => items | _ => [] end in
              match get result "emotion" (JStr "neutral") with
              | Raise e => Raise e
              | Return emotion =>
                  let emotion :=
                    match emotion with JStr s => s | _ => "neutral" end in
                  match validate_list L (firstn 5 keywords) with
                  | Raise e => Raise e
                  | Return keywords =>
                      Return {| sentiment := sentiment;
                                keywords := keywords;
                                emotion := emotion |}
                  end
              end
          end
      end
  end.

(** ** [process_text] *)

Section Endpoints.

Variable list_of_set : list string -> list string.
Variable env : environment.

(** [if use_fallback:] with its own [try], which catches every exception *)
Definition use_fallback (text : string) : M SentimentResponse :=
  let failed (msg : string) : option (M SentimentResponse) :=
    Some (http_error 503 ("Both OpenAI and fallback analysis failed: " ++ msg)) in
  try_except
    (log (FallbackRun text) ;;;
     ret (fallback_sentiment_analysis list_of_set text))
    (fun _ detail => failed detail)
    (fun fallback_error => failed (str fallback_error)).

(** The body of the outer [try]. *)
Definition analyse (text : string) : M SentimentResponse :=
  let prompt := prompt_for text in
  log (OpenAICall prompt) ;;;
  match call_openai env prompt with
  | TimedOut => use_fallback text
  | Failed error_msg =>
      if contains "quota" (lower error_msg) || contains "429" error_msg
         || contains "rate limit" (lower error_msg)
         || contains "insufficient_quota" (lower error_msg)
      then use_fallback text
      else use_fallback text
  | Replied None | Replied (Some EmptyString) =>
      http_error 500 "No response from OpenAI API"
  | Replied (Some response) =>
      result <- lift (repair (lib env) response) ;;
      lift (normalise (lib env) result)
  end.

Definition process_text (text : string) : M SentimentResponse :=
  if negb (truthy text) || negb (truthy (strip text))
  then http_error 400 "Text cannot be empty"
  else
    try_except (get_openai_client env)
      (fun _ _ => None)
      (fun e =>
         match e with
         | ValueError _ => Some (http_error 500 (str e))
         | _ => None
         end) ;;;
    try_except (analyse text)
      (fun _ _ => None)
      (fun e =>
         match e with
         | JSONDecodeError _ =>
             Some (http_error 500 ("Failed to parse OpenAI response: " ++ str e))
         | _ =>
             Some (http_error 500 ("Error processing text: " ++ str e))
         end).

(** ** [test_fallback] *)

Definition test_fallback (text : string) : M SentimentResponse :=
  let failed (msg : string) : option (M SentimentResponse) :=
    Some (http_error 500 ("Fallback test failed: " ++ msg)) in
  try_except
    (log (FallbackRun text) ;;;
     ret (fallback_sentiment_analysis list_of_set text))
    (fun _ detail => failed detail)
    (fun e => failed (str e)).

End Endpoints.

(** A request on a server that has made no call yet. *)
Definition fresh : state := {| openai_client := false; trace := [] |}.

(** The first value listed under [key]. *)
Fixpoint lookup {A} (key : string) (table : list (string * A)) : option A :=
  match table with
  | [] => None
  | (k, v) :: table' => if String.eqb k key then Some v else lookup key table'
  end.

(** A library that answers from a table: [json.loads] knows the texts
    listed and rejects every other with the message given; [float] knows
    the numerals listed. *)
Definition table_library (loads : list (string * json))
           (floats : list (string * pyfloat)) (decode_error : string) : library :=
  {| json_loads := fun s =>
       match lookup s loads with
       | Some v => Return v
       | None => Raise (JSONDecodeError decode_error)
       end;
     float_of_str := fun s =>
       match lookup s floats with
       | Some f => Return f
       | None => Raise (ValueError "could not convert string to float")
       end;
     coerce_str := fun _ => Raise (OtherError "Input should be a valid string") |}.

End Api.

(* ================================================================== *)
(** * The audio relay *)
(* ================================================================== *)

Module Relay.
Import Py.

(** A text frame for the client: [json.dumps] of a flat dictionary, kept as
    the dictionary, or text passed on as it came. *)
Inductive text_frame : Type :=
| Json (fields : list (string * string))
| Raw (text : string).

(** [{"type": "Error", "message": message}] *)
Definition error_frame (message : string) : text_frame :=
  Json [("type", "Error"); ("message", message)].

(** What the handler does to its two connections, in order. *)
Inductive action : Type :=
| Accept
| SendText (frame : text_frame)
| SendBytes (payload : string)
| Close
| Connect (url : string) (authorization : string)
| VendorSend (payload : string).

(** How [websockets.connect] ends. *)
Inductive connect_outcome : Type :=
| InvalidStatusCode (status_code : string)
| ConnectError (msg : string)
| Connected (relayed : list action).

Definition deepgram_url : string :=
  "wss://api.deepgram.com/v1/listen?model=nova-2&language=en-US&smart_format=true&interim_results=true&encoding=linear16&sample_rate=16000&channels=1".

(** The handler, as the list of its actions.  [DEEPGRAM_API_KEY] is what
    [os.getenv] returns.  Once the vendor connection is open the two
    forwarding loops run concurrently; [Connected] carries the actions they
    took, in the order they happened, and the [finally] clause closes the
    client connection after them. *)
Definition websocket_deepgram_proxy (DEEPGRAM_API_KEY : option string)
           (connect : string -> string -> connect_outcome) : list action :=
  Accept ::
  let configured :=
    match DEEPGRAM_API_KEY with
    | Some deepgram_api_key => truthy deepgram_api_key
    | None => false
    end in
  if negb configured then
    [SendText (error_frame "DEEPGRAM_API_KEY not configured on server");
     Close]
  else
    let deepgram_api_key :=
      strip (match DEEPGRAM_API_KEY with Some k => k | None => EmptyString end) in
    if negb (truthy deepgram_api_key)
       || (String.length deepgram_api_key <? 20)%nat
    then
      [SendText (error_frame
                   "DEEPGRAM_API_KEY appears to be invalid (too short or empty)");
       Close]
    else
      let authorization := ("Token " ++ deepgram_api_key)%string in
      Connect deepgram_url authorization ::
      match connect deepgram_url authorization with
      | Connected relayed => relayed ++ [Close]
      | InvalidStatusCode status_code =>
          [SendText (error_frame
                       ("Deepgram connection failed: HTTP " ++ status_code
                        ++ ". Check API key and URL format."));
           Close]
      | ConnectError msg =>
          [SendText (error_frame ("WebSocket proxy error: " ++ msg)); Close]
      end.

(** The frames of type [Error] among the actions. *)
Definition is_error_frame (a : action) : bool :=
  match a with
  | SendText (Json (("type", "Error") :: _)) => true
  | _ => false
  end.

(** What is sent to the client. *)
Definition is_send (a : action) : bool :=
  match a with
  | SendText _ | SendBytes _ => true
  | _ => false
  end.

(** The secret is unset, or shorter than 20 characters once trimmed. *)
Definition secret_missing (DEEPGRAM_API_KEY : option string) : Prop :=
  match DEEPGRAM_API_KEY with
  | None => True
  | Some k => (String.length (strip k) < 20)%nat
  end.

(** What reaches the vendor: the connection attempt and what is sent on it. *)
Definition touches_vendor (a : action) : bool :=
  match a with
  | Connect _ _ | VendorSend _ => true
  | _ => false
  end.

End Relay.

(* ================================================================== *)
(** * The relay's forwarding loops *)
(* ================================================================== *)

Module RelayLoops.
Import Py Relay.

(** What a loop does to the two connections.  A send that fails leaves no
    effect. *)
Inductive effect : Type :=
| ToClientText (text : string)
| ToClientBytes (payload : string)
| ToClientError (message : string)
| ToVendorBytes (payload : string)
| ToVendorText (text : string).

(** The effect as an action of the handler. *)
Definition to_action (e : effect) : action :=
  match e with
  | ToClientText text => SendText (Raw text)
  | ToClientBytes payload => SendBytes payload
  | ToClientError message => SendText (error_frame message)
  | ToVendorBytes payload => VendorSend payload
  | ToVendorText text => VendorSend text
  end.

(** [e.reason or 'Unknown reason'] *)
Definition reason_or_unknown (reason : string) : string :=
  if truthy reason then reason else "Unknown reason".

(** ** [forward_from_deepgram] *)

(** A message the vendor connection yields. *)
Inductive vendor_message : Type :=
| VText (text : string)
| VBinary (payload : string).

(** How the iteration over the vendor connection ends: the connection was
    closed normally and the iteration is over, [ConnectionClosed] was
    raised, another exception was raised, or it has not ended yet. *)
Inductive vendor_end : Type :=
| ClosedOk
| ClosedWith (reason : string)
| IterationFailed
| StillOpen.

(** One vendor message to the client; [delivered] tells whether the send
    to the client went through. *)
Definition deliver (message : vendor_message) (delivered : bool) : list effect :=
  if delivered then
    match message with
    | VText text => [ToClientText text]
    | VBinary payload => [ToClientBytes payload]
    end
  else [].

(** The loop over the messages, then the handler of [ConnectionClosed];
    [notified] tells whether the error message could be sent. *)
Definition forward_from_deepgram (messages : list (vendor_message * bool))
           (ending : vendor_end) (notified : bool) : list effect :=
  flat_map (fun m => deliver (fst m) (snd m)) messages
  ++ match ending with
     | ClosedWith reason =>
         if notified
         then [ToClientError ("Deepgram connection closed: "
                              ++ reason_or_unknown reason)]
         else []
     | _ => []
     end.

(** ** [forward_to_deepgram] *)

(** The dictionary [websocket.receive()] returns: the keys it has (a key
    may be present with the value [None]). *)
Record data : Type := {
  data_type : option string;
  data_bytes : option (option string);
  data_text : option (option string)
}.

(** What [websocket.receive()] ends in. *)
Inductive received : Type :=
| Data (d : data)
| WebSocketDisconnect
| ReceiveRuntimeError (msg : string)
| ReceiveFailed.

(** What [deepgram_ws.send] ends in. *)
Inductive sent : Type :=
| SendOk
| ConnectionClosed (code reason : string)
| SendRuntimeError (msg : string)
| SendFailed.

(** One turn of the loop: what is received, what a send to the vendor would
    end in, and whether a message to the client goes through. *)
Record turn : Type := {
  got : received;
  vendor : sent;
  client_ok : bool
}.

(** How an iteration of the loop ends: the next one follows, [break], or
    an exception leaves the loop. *)
Inductive control : Type :=
| Next
| Break
| Reraise (msg : string).

(** [except RuntimeError as e]: leave the loop when the message speaks of a
    disconnect or of receiving, raise again otherwise. *)
Definition on_runtime_error (msg : string) : control :=
  if contains "disconnect" (lower msg) || contains "receive" (lower msg)
  then Break
  else Reraise msg.

(** One iteration of [while True]: the effects, the new [chunk_count], and
    how the iteration ends.  An exception that is no [WebSocketDisconnect]
    and no [RuntimeError] ends in [continue]. *)
Definition loop_body (t : turn) (chunk_count : nat) : list effect * nat * control :=
  match got t with
  | WebSocketDisconnect => ([], chunk_count, Break)
  | ReceiveRuntimeError msg => ([], chunk_count, on_runtime_error msg)
  | ReceiveFailed => ([], chunk_count, Next)
  | Data d =>
      match data_bytes d with
      | Some None =>
          (* [send(None)] raises a [TypeError] *)
          ([], chunk_count, Next)
      | Some (Some payload) =>
          match vendor t with
          | SendOk => ([ToVendorBytes payload], S chunk_count, Next)
          | ConnectionClosed code reason =>
              let error_msg :=
                ("Deepgram connection lost: " ++ reason_or_unknown reason
                 ++ " (code: " ++ code ++ ")")%string in
              (if client_ok t then [ToClientError error_msg] else [],
               chunk_count, Break)
          | SendRuntimeError msg => ([], chunk_count, on_runtime_error msg)
          | SendFailed => ([], chunk_count, Next)
          end
      | None =>
          match data_text d with
          | Some None =>
              (* [data.get('text', '')[:100]] raises a [TypeError] *)
              ([], chunk_count, Next)
          | Some (Some text) =>
              match vendor t with
              | SendOk => ([ToVendorText text], chunk_count, Next)
              | ConnectionClosed _ _ => ([], chunk_count, Break)
              | SendRuntimeError msg => ([], chunk_count, on_runtime_error msg)
              | SendFailed => ([], chunk_count, Next)
              end
          | None =>
              match data_type d with
              | Some type =>
                  if String.eqb type "websocket.disconnect"
                  then ([], chunk_count, Break)
                  else ([], chunk_count, Next)
              | None => ([], chunk_count, Next)
              end
          end
      end
  end.

(** How the loop stands after the turns given: it left through [break],
    it raised, or it is waiting for the next message. *)
Inductive loop_end : Type :=
| Broke
| Raised (msg : string)
| Waiting.

Record loop_result : Type := {
  effects : list effect;
  chunk_count : nat;
  ended : loop_end
}.

(** [while True] over the turns, from [chunk_count = 0] in the source. *)
Fixpoint loop (turns : list turn) (chunk_count : nat) : loop_result :=
  match turns with
  | [] => {| effects := []; chunk_count := chunk_count; ended := Waiting |}
  | t :: turns' =>
      match loop_body t chunk_count with
      | (es, chunk_count', Next) =>
          let r := loop turns' chunk_count' in
          {| effects := es ++ effects r;
             chunk_count := RelayLoops.chunk_count r;
             ended := ended r |}
      | (es, chunk_count', Break) =>
          {| effects := es; chunk_count := chunk_count'; ended := Broke |}
      | (es, chunk_count', Reraise msg) =>
          {| effects := es; chunk_count := chunk_count'; ended := Raised msg |}
      end
  end.

Definition forward_to_deepgram (turns : list turn) : loop_result := loop turns 0.

(** ** The two loops together *)

(** [l] runs through [l1] and [l2], each in its own order. *)
Inductive interleaving {A : Type} : list A -> list A -> list A -> Prop :=
| il_nil : interleaving [] [] []
| il_left x l1 l2 l : interleaving l1 l2 l -> interleaving (x :: l1) l2 (x :: l)
| il_right x l1 l2 l : interleaving l1 l2 l -> interleaving l1 (x :: l2) (x :: l).

(** The handler with a secret and an open vendor connection, once
    [asyncio.gather] has returned: both loops have ended, and their
    effects have happened in the order [relayed]. *)
Definition session (DEEPGRAM_API_KEY : string) (relayed : list effect) : list action :=
  websocket_deepgram_proxy (Some DEEPGRAM_API_KEY)
                           (fun _ _ => Connected (map to_action relayed)).

Definition to_vendor (e : effect) : bool :=
  match e with
  | ToVendorBytes _ | ToVendorText _ => true
  | _ => false
  end.

(** A message of the vendor passed on to the client. *)
Definition passed_on (e : effect) : bool :=
  match e with
  | ToClientText _ | ToClientBytes _ => true
  | _ => false
  end.

(** The payloads the client offered: what came under the key [bytes], or
    else under the key [text]. *)
Definition offered (t : turn) : list effect :=
  match got t with
  | Data d =>
      match data_bytes d, data_text d with
      | Some (Some payload), _ => [ToVendorBytes payload]
      | None, Some (Some text) => [ToVendorText text]
      | _, _ => []
      end
  | _ => []
  end.

(** [l1] is [l2] with some elements left out. *)
Inductive sublist {A : Type} : list A -> list A -> Prop :=
| sl_nil : sublist [] []
| sl_skip x l1 l2 : sublist l1 l2 -> sublist l1 (x :: l2)
| sl_keep x l1 l2 : sublist l1 l2 -> sublist (x :: l1) (x :: l2).

(** A turn on which the loop goes on without having done anything:
    nothing could be received, the frame has no payload and is no
    disconnect, or the send failed for a reason of its own. *)
Definition ignored (t : turn) : bool :=
  match got t with
  | ReceiveFailed => true
  | Data d =>
      match offered t with
      | _ :: _ =>
          match vendor t with
          | SendFailed => true
          | _ => false
          end
      | [] =>
          match data_bytes d, data_text d, data_type d with
          | None, None, Some type => negb (String.eqb type "websocket.disconnect")
          | _, _, _ => true
          end
      end
  | _ => false
  end.

(** A turn on which a frame of the client reaches the vendor. *)
Definition forwarded (t : turn) : bool :=
  match offered t, vendor t with
  | _ :: _, SendOk => true
  | _, _ => false
  end.

Definition is_chunk (e : effect) : bool :=
  match e with
  | ToVendorBytes _ => true
  | _ => false
  end.

(** A message of the vendor passed on, among the handler's actions. *)
Definition is_passed_on (a : action) : bool :=
  match a with
  | SendText (Raw _) | SendBytes _ => true
  | _ => false
  end.

Definition is_close (a : action) : bool :=
  match a with
  | Close => true
  | _ => false
  end.

Definition is_vendor_send (a : action) : bool :=
  match a with
  | VendorSend _ => true
  | _ => false
  end.

End RelayLoops.

(* ================================================================== *)
(** * The call to the model, and the endpoint that tests it *)
(* ================================================================== *)

Module OpenAI.
Import Py Fallback Api.

(** ** [call_openai] *)

(** What [client.chat.completions.create] and the reading of the first
    choice end in: the content of the message, or an exception, of which the
    code looks at [type(e).__name__] and at [str(e)]. *)
Inductive completion : Type :=
| Completed (content : option string)
| ClientError (error_type : string) (msg : string).

(** The test of [sync_call] for quota and rate limit errors; [error_str] is
    the lower-cased message. *)
Definition quota_exceeded (error_type error_str : string) : bool :=
  contains "quota" error_str || contains "429" error_str
  || contains "rate limit" error_str || contains "insufficient_quota" error_str
  || String.eqb error_type "RateLimitError".

(** [sync_call]: every exception is raised again as an [Exception] with a
    message of the module's own. *)
Definition sync_call (c : completion) : or_exn (option string) :=
  match c with
  | Completed content => Return content
  | ClientError error_type msg =>
      let error_str := lower msg in
      if quota_exceeded error_type error_str
      then Raise (OtherError ("OpenAI quota exceeded: " ++ msg))
      else Raise (OtherError ("OpenAI API error: " ++ msg))
  end.

(** The model's side of one call: whether the ten seconds of
    [asyncio.wait_for] pass first, and what the client ends in. *)
Record upstream : Type := {
  timed_out : bool;
  completion_of : completion
}.

(** Awaiting [call_openai(prompt)] under [asyncio.wait_for].  The client is
    the one [get_openai_client] has cached: both callers have asked for it
    before. *)
Definition awaited (u : upstream) : call_outcome :=
  if timed_out u then TimedOut
  else match sync_call (completion_of u) with
       | Return content => Replied content
       | Raise e => Failed (str e)
       end.

(** The surroundings of a request, with the model behind [call_openai]. *)
Definition served_by (key : option string) (model : string -> upstream)
           (L : library) : environment :=
  {| OPENAI_API_KEY := key;
     call_openai := fun prompt => awaited (model prompt);
     lib := L |}.

(** ** [test_openai] *)

Definition test_prompt : string := "Say 'API test successful' in exactly 3 words.".

Definition is_quota_error (error_msg error_type : string) : bool :=
  contains "quota" (lower error_msg) || contains "429" error_msg
  || contains "rate limit" (lower error_msg)
  || contains "insufficient_quota" (lower error_msg)
  || String.eqb error_type "RateLimitError".

(** [and] binds tighter than [or]. *)
Definition is_auth_error (error_msg : string) : bool :=
  contains "api key" (lower error_msg)
  || contains "authentication" (lower error_msg)
  || contains "401" error_msg
  || (contains "invalid" (lower error_msg) && contains "key" (lower error_msg)).

Definition json_of (content : option string) : json :=
  match content with
  | Some s => JStr s
  | None => JNull
  end.

(** [str(e)] for an [HTTPException]. *)
Definition str_http (status_code : nat) (detail : string) : string :=
  NilEmpty.string_of_uint (Nat.to_uint status_code) ++ ": " ++ detail.

Definition unexpected (error : string) : list (string * json) :=
  [("status", JStr "error");
   ("message", JStr "Unexpected error testing OpenAI API");
   ("error", JStr error);
   ("api_key_configured", JNull)].

(** The endpoint answers with a dictionary, given as the list of its
    items.  What reaches the inner handlers was raised by [sync_call], an
    instance of [Exception] itself. *)
Definition test_openai (env : environment) : M (list (string * json)) :=
  try_except
    (get_openai_client env ;;;
     log (OpenAICall test_prompt) ;;;
     match call_openai env test_prompt with
     | Replied response =>
         ret [("status", JStr "success");
              ("message", JStr "OpenAI API is working correctly");
              ("response", json_of response);
              ("api_key_configured", JBool true)]
     | TimedOut =>
         ret [("status", JStr "timeout");
              ("message", JStr "OpenAI API request timed out");
              ("api_key_configured", JBool true)]
     | Failed error_msg =>
         let error_type := "Exception" in
         ret [("status", JStr "error");
              ("message", JStr "OpenAI API call failed");
              ("error", JStr error_msg);
              ("error_type", JStr error_type);
              ("api_key_configured", JBool true);
              ("is_quota_error", JBool (is_quota_error error_msg error_type));
              ("is_auth_error", JBool (is_auth_error error_msg))]
     end)
    (fun status_code detail => Some (ret (unexpected (str_http status_code detail))))
    (fun e =>
       match e with
       | ValueError _ =>
           Some (ret [("status", JStr "error");
                      ("message", JStr "OpenAI API key not configured");
                      ("error", JStr (str e));
                      ("api_key_configured", JBool false)])
       | _ => Some (ret (unexpected (str e)))
       end).

(** The answer when the key is not set. *)
Definition not_configured_answer : list (string * json) :=
  [("status", JStr "error");
   ("message", JStr "OpenAI API key not configured");
   ("error", JStr "OPENAI_API_KEY environment variable is not set");
   ("api_key_configured", JBool false)].

(** [health_check] *)
Definition health_check : list (string * json) := [("status", JStr "healthy")].

End OpenAI.

(* ================================================================== *)
(** * The allowed origins *)
(* ================================================================== *)

Module Config.
Import Py.

(** [os.getenv(name, default)], given the value of the variable *)
Definition getenv (value : option string) (default : string) : string :=
  match value with
  | Some v => v
  | None => default
  end.

Definition is_production (ENVIRONMENT : option string) : bool :=
  String.eqb (getenv ENVIRONMENT "development") "production".

(** [s.split(sep)] for a one-character [sep] *)
Fixpoint split (sep : ascii) (s : string) : list string :=
  match s with
  | EmptyString => [EmptyString]
  | String c s' =>
      if Ascii.eqb c sep then EmptyString :: split sep s'
      else match split sep s' with
           | piece :: pieces => String c piece :: pieces
           | [] => [String c EmptyString]
           end
  end.

(** Lines 30-42: the origins the CORS middleware is given. *)
Definition allowed_origins (ENVIRONMENT ALLOWED_ORIGINS : option string) : list string :=
  if is_production ENVIRONMENT then
    let allowed_origins := split "," (getenv ALLOWED_ORIGINS "") in
    let allowed_origins :=
      map strip (filter (fun origin => truthy (strip origin)) allowed_origins) in
    match allowed_origins with
    | [] => ["http://localhost:3000"]
    | _ => allowed_origins
    end
  else
    ["http://localhost:3000"; "http://127.0.0.1:3000"].

(** The origins as an operator lists them, with [sep] between them. *)
Fixpoint join (sep : string) (origins : list string) : string :=
  match origins with
  | [] => EmptyString
  | [origin] => origin
  | origin :: origins' => origin ++ sep ++ join sep origins'
  end.

(** An origin as the list holds it: not empty, without a comma, with no
    whitespace around it. *)
Definition clean (origin : string) : Prop :=
  origin <> EmptyString
  /\ strip origin = origin
  /\ all_chars (fun c => negb (Ascii.eqb c ",")) origin = true.

End Config.

(* ================================================================== *)
(** * The script [test_openai.py] *)
(* ================================================================== *)

Module Script.
Import Py.

(** The advice the script prints after a failed call. *)
Inductive hint : Type :=
| QuotaHint
| AuthenticationHint
| TimeoutHint
| NoHint.

(** The chain of [if] and [elif] over the message of the exception. *)
Definition diagnose (error_msg : string) : hint :=
  if contains "quota" (lower error_msg) || contains "429" error_msg
     || contains "insufficient_quota" (lower error_msg)
  then QuotaHint
  else if contains "api key" (lower error_msg)
          || contains "authentication" (lower error_msg)
          || contains "401" error_msg
  then AuthenticationHint
  else if contains "timeout" (lower error_msg)
  then TimeoutHint
  else NoHint.

End Script.

(* ================================================================== *)
(** * The scorer's arithmetic on IEEE doubles *)
(* ================================================================== *)

Module Binary64.
Import Py Fallback.

(** The decimal constants of the source are read as Python reads them: as
    the nearest double. *)
#[local] Set Warnings "-inexact-float".

(** A small integer as a double. *)
Definition of_small (z : Z) : float :=
  if (z <? 0)%Z
  then PrimFloat.opp (PrimFloat.of_uint63 (Uint63.of_Z (- z)))
  else PrimFloat.of_uint63 (Uint63.of_Z z).

(** [0.5 + ((positive_score - negative_score) / max(total_score * 2, 1)) * 0.5]
    as Python evaluates it: a correctly rounded quotient of two integers,
    a product and a sum, each rounded to the nearest double. *)
Definition blend64 (positive_score negative_score : Z) : float :=
  let total_score := (positive_score + negative_score)%Z in
  PrimFloat.add 0.5%float
    (PrimFloat.mul
       (PrimFloat.div (of_small (positive_score - negative_score))
                      (of_small (Z.max (total_score * 2) 1)))
       0.5%float).

(** [max(0.0, min(1.0, s))] on doubles. *)
Definition clamp64 (s : float) : float :=
  let m := if PrimFloat.ltb s 1%float then s else 1%float in
  if PrimFloat.ltb 0%float m then m else 0%float.

(** The comparisons the scorer makes on a sentiment: the two clamps and
    the two thresholds. *)
Definition decisions64 (s : float) : list bool :=
  [PrimFloat.ltb s 1%float; PrimFloat.ltb 0%float s;
   PrimFloat.ltb 0.7%float (clamp64 s); PrimFloat.ltb (clamp64 s) 0.3%float].

Definition decisions (q : Q) : list bool :=
  [Qltb q 1; Qltb 0 q;
   flt (Fin (7#10)) (clamp01 (Fin q)); flt (clamp01 (Fin q)) (Fin (3#10))].

Definition same_decisions (l1 l2 : list bool) : bool :=
  if list_eq_dec bool_dec l1 l2 then true else false.

(** The doubles and the rationals decide alike for the scores [p], [n]. *)
Definition agree (p n : Z) : bool :=
  same_decisions (decisions64 (blend64 p n)) (decisions (blend p n)).

(** The three constants of the punctuation bias decide alike as well. *)
Definition constants_agree : bool :=
  same_decisions (decisions64 0.55%float) (decisions (11#20))
  && same_decisions (decisions64 0.45%float) (decisions (9#20))
  && same_decisions (decisions64 0.5%float) (decisions (1#2)).

(** Every pair of scores the word lists can produce. *)
Definition grid_agrees : bool :=
  forallb (fun p =>
             forallb (fun n =>
                        (p + n =? 0)%nat || agree (Z.of_nat p) (Z.of_nat n))
                     (seq 0 29))
          (seq 0 29).

End Binary64.

(* ================================================================== *)
(** * The side of 0.5 a sentiment falls on, on doubles *)
(* ================================================================== *)

Module Halves.
Import Py Fallback Binary64.

#[local] Set Warnings "-inexact-float".

(** [sentiment > 0.5] and [sentiment < 0.5] on doubles. *)
Definition above64 (s : float) : bool := PrimFloat.ltb 0.5%float s.
Definition below64 (s : float) : bool := PrimFloat.ltb s 0.5%float.

(** The double the scorer returns for the scores [p], [n] is above 0.5
    exactly when [p] is the larger, below exactly when [n] is. *)
Definition side_agrees (p n : Z) : bool :=
  Bool.eqb (above64 (clamp64 (blend64 p n))) (n <? p)%Z
  && Bool.eqb (below64 (clamp64 (blend64 p n))) (p <? n)%Z.

(** Every pair of scores the word lists can produce. *)
Definition grid_sides : bool :=
  forallb (fun p =>
             forallb (fun n =>
                        (p + n =? 0)%nat || side_agrees (Z.of_nat p) (Z.of_nat n))
                     (seq 0 29))
          (seq 0 29).

End Halves.

(* ================================================================== *)
(** * The vocabulary of the specification *)
(* ================================================================== *)

(** Definitions that follow the specification's words rather than the
    code; the theorems compare the code with them. *)
Module Spec.
Import Py Re Fallback Api.

(** [needle] occurs in [hay]. *)
Definition substring_of (needle hay : string) : Prop :=
  exists pre post, hay = (pre ++ needle ++ post)%string.


(** The threshold rule: above 0.7 positive, below 0.3 negative. *)
Definition spec_threshold (q : Q) : string :=
  if Qltb (7#10) q then "positive"
  else if Qltb q (3#10) then "negative"
  else "neutral".

(** The four keyword sets, in the order the code checks them. *)
Definition emotion_sets : list (string * list string) :=
  [("joyful", ["happy"; "joy"; "excited"; "love"]);
   ("sad", ["sad"; "depressed"; "down"]);
   ("angry", ["angry"; "mad"; "furious"]);
   ("calm", ["calm"; "peaceful"; "relaxed"])].

Definition set_matches (t : string) (set : string * list string) : bool :=
  existsb (fun word => contains word t) (snd set).

(** Override by the first set that matches. *)
Definition first_match_wins (emotion t : string) : string :=
  match find (set_matches t) emotion_sets with
  | Some set => fst set
  | None => emotion
  end.

(** Override by every set that matches in turn, so that the last one
    stands. *)
Definition last_match_wins (emotion t : string) : string :=
  fold_left (fun e set => if set_matches t set then fst set else e)
            emotion_sets emotion.

(** One enumeration of a set: its elements in the order first seen. *)
Definition first_seen (xs : list string) : list string :=
  rev (nodup string_dec (rev xs)).

(** ** Runs of characters *)

Fixpoint take_while (p : ascii -> bool) (s : string) : string :=
  match s with
  | EmptyString => EmptyString
  | String c s' => if p c then String c (take_while p s') else EmptyString
  end.

Fixpoint drop_while (p : ascii -> bool) (s : string) : string :=
  match s with
  | EmptyString => EmptyString
  | String c s' => if p c then drop_while p s' else s
  end.

Fixpoint runs_from (p : ascii -> bool) (fuel : nat) (s : string) : list string :=
  match fuel with
  | O => []
  | S fuel' =>
      match s with
      | EmptyString => []
      | String c s' =>
          if p c then take_while p s :: runs_from p fuel' (drop_while p s)
          else runs_from p fuel' s'
      end
  end.

(** The maximal runs of characters that satisfy [p], left to right. *)
Definition runs (p : ascii -> bool) (s : string) : list string :=
  runs_from p (String.length s) s.

Definition at_least_3 (w : string) : bool := (3 <=? String.length w)%nat.


(** The words of the text, a word being a maximal run of letters, digits
    and underscores, that consist of three or more letters a..z and nothing
    else. *)
Definition alphabetic_words (s : string) : list string :=
  filter (fun w => all_chars is_lower w && at_least_3 w) (runs is_word s).

(** ** Ranking *)

(** The position at which [w] is first seen in [l]. *)
Fixpoint first_index (w : string) (l : list string) : nat :=
  match l with
  | [] => O
  | v :: l' => if String.eqb v w then O else S (first_index w l')
  end.

Definition occurrences (l : list string) (w : string) : nat :=
  count_occ string_dec l w.

(** [a] ranks before [b]: it is more frequent, or as frequent and seen
    first. *)
Definition ranks_before (l : list string) (a b : string) : Prop :=
  (occurrences l b < occurrences l a)%nat
  \/ (occurrences l a = occurrences l b
      /\ (first_index a l < first_index b l)%nat).

(** [ranked] lists the distinct elements of [l], most frequent first, ties
    in the order first seen. *)
Definition is_ranking (l ranked : list string) : Prop :=
  NoDup ranked
  /\ (forall w, In w ranked <-> In w l)
  /\ StronglySorted (ranks_before l) ranked.

(** ** Keywords *)

(** [w] is no stop word. *)
Definition not_stop (w : string) : bool := negb (is_stop_word w).

(** ** The text endpoint *)

(** Where [result] comes from: [json.loads] of the reply or of the part of
    it the pattern matched, or the field extraction. *)
Definition loaded_from (L : library) (response : string) (v : json) : Prop :=
  exists source,
    (source = response
     \/ exists m, search json_pattern response = Some m /\ source = group0 m)
    /\ json_loads L source = Return v.

(** The state after one more call. *)
Definition logged (ev : event) (st : state) : state :=
  {| openai_client := openai_client st; trace := trace st ++ [ev] |}.

(** The model client exists or can be created. *)
Definition configured (env : environment) (st : state) : bool :=
  openai_client st
  || match OPENAI_API_KEY env with
     | Some k => truthy k
     | None => false
     end.

(** Text of ASCII characters: every code is below 128.  On such text
    [str.lower], [str.strip], [\s], [\w] and [\b] are what [Py] and [Re]
    have. *)
Definition ascii_text (s : string) : bool :=
  all_chars (fun c => (code c <? 128)%nat) s.

End Spec.

(* ================================================================== *)
(** * Sample replies and environments *)
(* ================================================================== *)

Module Samples.
Import Py Fallback Api.

(** A reply that is a JSON object with an empty emotion:
    {"sentiment": 0.5, "keywords": [], "emotion": ""} with double quotes. *)
Definition reply_empty_emotion : string :=
  String.concat ""
    ["{"; quoted "sentiment"; ": 0.5, "; quoted "keywords"; ": [], ";
     quoted "emotion"; ": "; quoted ""; "}"].

(** A reply whose keywords lack their quotes, which no JSON parser accepts:
    {"sentiment": 0.9, "keywords": [sunny, walk], "emotion": "joyful"} *)
Definition reply_unquoted : string :=
  String.concat ""
    ["{"; quoted "sentiment"; ": 0.9, "; quoted "keywords";
     ": [sunny, walk], "; quoted "emotion"; ": "; quoted "joyful"; "}"].

(** A reply cut off before its closing brace:
    {"sentiment": 0.9, "emotion": "joyful" *)
Definition reply_truncated : string :=
  String.concat ""
    ["{"; quoted "sentiment"; ": 0.9, "; quoted "emotion"; ": ";
     quoted "joyful"].

(** [json.loads] on the first reply; every other text is rejected. *)
Definition lib_empty_emotion : library :=
  table_library
    [(reply_empty_emotion,
      JDict [("sentiment", JFloat (Fin (1#2))); ("keywords", JList []);
             ("emotion", JStr "")])]
    []
    "Expecting value: line 1 column 1 (char 0)".

(** [json.loads] rejects the second reply at its 33rd character; [float]
    reads the numeral 0.9. *)
Definition lib_unquoted : library :=
  table_library [] [("0.9", Fin (9#10))]
                "Expecting value: line 1 column 33 (char 32)".

(** A configured server whose model call ends in [outcome]. *)
Definition env_with (L : library) (outcome : call_outcome) : environment :=
  {| OPENAI_API_KEY := Some "sk-test";
     call_openai := fun _ => outcome;
     lib := L |}.

End Samples.

(* ================================================================== *)
(** * Notions used in the proofs *)
(* ================================================================== *)

Module Aux.
Import Py Re Fallback Api Spec.

(** ** Matching *)

(** [derives r prev s caps prev' s' caps']: starting after [prev] with
    [s] left to read and the groups [caps] closed, [r] can match up to the
    point where [s'] is left, [prev'] was read last and [caps'] are
    closed. *)
Inductive derives :
  regex -> option ascii -> string -> list string ->
  option ascii -> string -> list string -> Prop :=
| d_eps prev s caps : derives Eps prev s caps prev s caps
| d_chr p c prev s caps :
    p c = true -> derives (Chr p) prev (String c s) caps (Some c) s caps
| d_wordb prev s caps :
    at_boundary prev s = true -> derives WordB prev s caps prev s caps
| d_cat r1 r2 prev s caps prev1 s1 caps1 prev2 s2 caps2 :
    derives r1 prev s caps prev1 s1 caps1 ->
    derives r2 prev1 s1 caps1 prev2 s2 caps2 ->
    derives (Cat r1 r2) prev s caps prev2 s2 caps2
| d_star_stop r prev s caps : derives (Star r) prev s caps prev s caps
| d_star_step r prev s caps prev1 s1 caps1 prev2 s2 caps2 :
    derives r prev s caps prev1 s1 caps1 ->
    (String.length s1 < String.length s)%nat ->
    derives (Star r) prev1 s1 caps1 prev2 s2 caps2 ->
    derives (Star r) prev s caps prev2 s2 caps2
| d_lazy_stop r prev s caps : derives (LazyStar r) prev s caps prev s caps
| d_lazy_step r prev s caps prev1 s1 caps1 prev2 s2 caps2 :
    derives r prev s caps prev1 s1 caps1 ->
    (String.length s1 < String.length s)%nat ->
    derives (LazyStar r) prev1 s1 caps1 prev2 s2 caps2 ->
    derives (LazyStar r) prev s caps prev2 s2 caps2
| d_group r prev s caps prev1 s1 caps1 :
    derives r prev s caps prev1 s1 caps1 ->
    derives (Group r) prev s caps prev1 s1
            (caps1 ++ [substring 0 (String.length s - String.length s1) s]).

(** The greedy or the lazy star. *)
Definition star_of (greedy : bool) (r : regex) : regex :=
  if greedy then Star r else LazyStar r.

(** What [run r] promises about the call of its continuation. *)
Definition sound_for {A : Type} (r : regex)
           (f : option ascii -> string -> list string -> @cont A -> option A) : Prop :=
  forall prev s caps k a,
    f prev s caps k = Some a ->
    exists prev' s' caps',
      derives r prev s caps prev' s' caps' /\ k prev' s' caps' = Some a.

(** [groupless r]: [r] holds no capturing group. *)
Fixpoint groupless (r : regex) : bool :=
  match r with
  | Eps | Chr _ | WordB => true
  | Cat r1 r2 => groupless r1 && groupless r2
  | Star r | LazyStar r => groupless r
  | Group _ => false
  end.

(** [consumes r]: every match of [r] reads at least one character. *)
Fixpoint consumes (r : regex) : bool :=
  match r with
  | Chr _ => true
  | Cat r1 r2 => consumes r1 || consumes r2
  | Group r => consumes r
  | Eps | WordB | Star _ | LazyStar _ => false
  end.

(** ** Words *)

(** The character read last after [w]. *)
Fixpoint last_of (prev : option ascii) (w : string) : option ascii :=
  match w with
  | EmptyString => prev
  | String c w' => last_of (Some c) w'
  end.

(** What the word pattern matches at a position, computed directly: the
    run of letters from there, provided the position is at a word boundary,
    the run has three letters or more and a word boundary follows it. *)
Definition word_at (prev : option ascii) (s : string) : option rmatch :=
  let w := take_while is_lower s in
  let rest := drop_while is_lower s in
  if at_boundary prev s && at_least_3 w && negb (word_opt (first_char rest))
  then Some {| m_text := w; m_groups := []; m_prev := last_of prev w;
               m_rest := rest |}
  else None.

(** The continuation after the letters: [\b], then the rest. *)
Definition after_boundary {A : Type} (F : @cont A) : @cont A :=
  fun prev s caps => if at_boundary prev s then F prev s caps else None.

(** Three or more letters a..z and nothing else. *)
Definition good_word (w : string) : bool := all_chars is_lower w && at_least_3 w.

(** [s] is empty or starts with a character that is no word character. *)
Definition stops_word (s : string) : Prop :=
  match first_char s with
  | Some d => is_word d = false
  | None => True
  end.

(** ** Counting *)

(** The keys precede one another as their first positions do. *)
Definition key_order (l : list string) (a b : string * nat) : Prop :=
  (first_index (fst a) l < first_index (fst b) l)%nat.

(** What the counter of [l] holds: every word of [l] once, with the number
    of its occurrences, in the order first seen. *)
Record counts (l : list string) (c : counter) : Prop := {
  counts_nodup : NoDup (map fst c);
  counts_value : forall w n, In (w, n) c -> n = occurrences l w /\ In w l;
  counts_keys : forall w, In w l -> In w (map fst c);
  counts_order : StronglySorted (key_order l) c
}.

(** [a] sorts before [b]: a larger count, or the same count and [a] comes
    first in the order [R] the entries had. *)
Definition lex (R : string * nat -> string * nat -> Prop) (a b : string * nat) : Prop :=
  (snd b < snd a)%nat \/ (snd a = snd b /\ R a b).

(** The best-ranked words, at most [n] of them. *)
Definition top (n : nat) (l : list string) : list string :=
  map fst (most_common n (Counter l)).

(** ** The endpoints *)

(** Whitespace-only text. *)
Definition blank (s : string) : Prop := all_chars is_space s = true.

(** A word that starts with something else than whitespace. *)
Definition starts_nonblank (w : string) : bool :=
  match w with
  | String c _ => negb (is_space c)
  | EmptyString => false
  end.

(** The emotion the normalisation reads off a dictionary. *)
Definition emotion_of (items : list (string * json)) : string :=
  match dict_get "emotion" items (JStr "neutral") with
  | JStr s => s
  | _ => "neutral"
  end.

(** The primary path after the call: repair, then normalise. *)
Definition digest (env : environment) (response : string)
  : outcome SentimentResponse :=
  match repair (lib env) response with
  | Raise e => Uncaught e
  | Return result =>
      match normalise (lib env) result with
      | Raise e => Uncaught e
      | Return r => Ok r
      end
  end.

(** The outer [try] turns what is left of an exception into a 500. *)
Definition handled (o : outcome SentimentResponse) : outcome SentimentResponse :=
  match o with
  | Uncaught (JSONDecodeError msg) =>
      HTTPException 500 ("Failed to parse OpenAI response: " ++ msg)
  | Uncaught e => HTTPException 500 ("Error processing text: " ++ str e)
  | o => o
  end.

(** What [process_text] does with a text that passed the first check. *)
Definition after_check (list_of_set : list string -> list string)
           (env : environment) (text : string) (st : state)
  : outcome SentimentResponse * state :=
  if configured env st then
    let st0 := {| openai_client := true; trace := trace st |} in
    let '(o, st1) := analyse list_of_set env text st0 in
    (handled o, st1)
  else
    (HTTPException 500 "OPENAI_API_KEY environment variable is not set", st).

End Aux.

(* ================================================================== *)
(** * Labels and error details *)
(* ================================================================== *)

Module Terms.
Import Py Fallback Api.

(** The emotions the scorer has names for. *)
Definition labels : list string :=
  ["positive"; "negative"; "neutral"; "joyful"; "sad"; "angry"; "calm"].

(** The status codes [process_text] raises, with their details. *)
Definition known_detail (status_code : nat) (detail : string) : Prop :=
  (status_code = 400%nat /\ detail = "Text cannot be empty")
  \/ (status_code = 500%nat
      /\ (detail = "OPENAI_API_KEY environment variable is not set"
          \/ detail = "No response from OpenAI API"
          \/ (exists msg, detail = ("Failed to parse OpenAI response: " ++ msg)%string)
          \/ (exists msg, detail = ("Error processing text: " ++ msg)%string))).

(** The same surroundings with another value of the key. *)
Definition with_key (key : option string) (env : environment) : environment :=
  {| OPENAI_API_KEY := key; call_openai := call_openai env; lib := lib env |}.

End Terms.

(* ================================================================== *)
(** * Sample frames, models and replies *)
(* ================================================================== *)

Module Cases.
Import Py Fallback Api Relay RelayLoops OpenAI.

(** A binary frame of the client, with what the send to the vendor ends
    in. *)
Definition audio (payload : string) (v : sent) : turn :=
  {| got := Data {| data_type := Some "websocket.receive";
                    data_bytes := Some (Some payload);
                    data_text := None |};
     vendor := v;
     client_ok := true |}.

(** A text frame of the client. *)
Definition note (text : string) (v : sent) : turn :=
  {| got := Data {| data_type := Some "websocket.receive";
                    data_bytes := None;
                    data_text := Some (Some text) |};
     vendor := v;
     client_ok := true |}.

(** The disconnect message. *)
Definition hangup : turn :=
  {| got := Data {| data_type := Some "websocket.disconnect";
                    data_bytes := None;
                    data_text := None |};
     vendor := SendOk;
     client_ok := true |}.

Definition long_secret : string := " 0123456789abcdef0123456789abcdef ".

(** A vendor that refuses the connection with status 401. *)
Definition refusing (url authorization : string) : connect_outcome :=
  InvalidStatusCode "401".

(** A model whose client raises a [RateLimitError]. *)
Definition limited (prompt : string) : upstream :=
  {| timed_out := false;
     completion_of := ClientError "RateLimitError" "Too many requests" |}.

(** A model whose client reports an exhausted quota. *)
Definition exhausted (prompt : string) : upstream :=
  {| timed_out := false;
     completion_of :=
       ClientError "APIStatusError"
                   "Error code: 429 - You exceeded your current quota" |}.

(** A reply with a sentiment above 1 and six keywords:
    {"sentiment": 1.5, "keywords": ["a", "b", "c", "d", "e", "f"]} *)
Definition reply_excessive : string :=
  String.concat ""
    ["{"; quoted "sentiment"; ": 1.5, "; quoted "keywords"; ": [";
     quoted "a"; ", "; quoted "b"; ", "; quoted "c"; ", "; quoted "d"; ", ";
     quoted "e"; ", "; quoted "f"; "]}"].

Definition items_excessive : list (string * json) :=
  [("sentiment", JFloat (Fin (3#2)));
   ("keywords", JList (map JStr ["a"; "b"; "c"; "d"; "e"; "f"]))].

(** [json.loads] on that reply. *)
Definition lib_excessive : library :=
  table_library [(reply_excessive, JDict items_excessive)] []
                "Expecting value: line 1 column 1 (char 0)".

Definition env_excessive : environment :=
  {| OPENAI_API_KEY := Some "sk-test";
     call_openai := fun _ => Replied (Some reply_excessive);
     lib := lib_excessive |}.

(** A server that has its client. *)
Definition warm : state := {| openai_client := true; trace := [] |}.

End Cases.

(* ================================================================== *)
(** * Facts about the built-ins *)
(* ================================================================== *)

Module PyFacts.
Import Py Spec.

(** ** [in] on strings is the substring relation *)

Lemma prefix_app (n h : string) :
  prefix n h = true <-> exists post, h = (n ++ post)%string.
Proof.
  revert h; induction n as [|a n IH]; intros h.
  - split; [intros _; now exists h | now destruct h].
  - destruct h as [|b h]; simpl.
    + split; [discriminate | intros [post H]; discriminate].
    + destruct (ascii_dec a b) as [->|Hab].
      * rewrite IH; split; intros [post H]; exists post.
        -- now rewrite H.
        -- now injection H.
      * split; [discriminate | intros [post H]; injection H; intros; congruence].
Qed.

Lemma contains_eq (n h : string) :
  contains n h =
  if prefix n h then true
  else match h with
       | EmptyString => false
       | String _ h' => contains n h'
       end.
Proof. destruct h; reflexivity. Qed.

Lemma contains_substring (n h : string) :
  contains n h = true <-> substring_of n h.
Proof.
  induction h as [|c h IH]; rewrite contains_eq.
  - destruct (prefix n "") eqn:E.
    + split; [intros _ | reflexivity].
      apply prefix_app in E as [post E]. now exists ""%string, post.
    + split; [discriminate|].
      intros (pre & post & H). destruct pre; simpl in H.
      * assert (prefix n "" = true) by (apply prefix_app; now exists post).
        congruence.
      * discriminate.
  - destruct (prefix n (String c h)) eqn:E.
    + split; [intros _ | reflexivity].
      apply prefix_app in E as [post E]. now exists ""%string, post.
    + rewrite IH. split.
      * intros (pre & post & H). exists (String c pre), post. now rewrite H.
      * intros (pre & post & H). destruct pre as [|d pre]; simpl in H.
        -- assert (prefix n (String c h) = true) by (apply prefix_app; now exists post).
           congruence.
        -- injection H as _ H. now exists pre, post.
Qed.

(** ** Whitespace-only text *)

Lemma lstrip_empty (s : string) :
  lstrip s = ""%string <-> all_chars is_space s = true.
Proof.
  induction s as [|c s IH]; simpl; [tauto|].
  destruct (is_space c); simpl; [exact IH|].
  split; discriminate.
Qed.

Lemma rstrip_empty (s : string) :
  rstrip s = ""%string <-> all_chars is_space s = true.
Proof.
  induction s as [|c s IH]; simpl; [tauto|].
  destruct (rstrip s) eqn:E.
  - destruct (is_space c); simpl.
    + split; [intros _; now apply IH | reflexivity].
    + split; discriminate.
  - split; [discriminate|].
    intros H; apply andb_true_iff in H as [_ H].
    apply IH in H; discriminate.
Qed.

Lemma lstrip_all_space (s : string) :
  all_chars is_space s = true -> all_chars is_space (lstrip s) = true.
Proof.
  induction s as [|c s IH]; simpl; [reflexivity|].
  destruct (is_space c) eqn:E; simpl; [exact IH|discriminate].
Qed.

Lemma all_space_lstrip (s : string) :
  all_chars is_space (lstrip s) = true -> all_chars is_space s = true.
Proof.
  induction s as [|c s IH]; simpl; [reflexivity|].
  destruct (is_space c) eqn:E; simpl; [exact IH|].
  rewrite E; discriminate.
Qed.

(** [s.strip()] is empty exactly when [s] holds nothing but whitespace. *)
Lemma strip_empty (s : string) :
  strip s = ""%string <-> all_chars is_space s = true.
Proof.
  unfold strip. rewrite rstrip_empty. split.
  - apply all_space_lstrip.
  - apply lstrip_all_space.
Qed.

Lemma space_not_upper (c : ascii) : is_space c = true -> is_upper c = false.
Proof.
  unfold is_space, is_upper, between. intros H.
  apply orb_true_iff in H as [H|H]; apply andb_true_iff in H as [H1 H2];
    apply Nat.leb_le in H1, H2; apply andb_false_iff;
    left; apply Nat.leb_gt; lia.
Qed.

Lemma space_not_word (c : ascii) : is_space c = true -> is_word c = false.
Proof.
  unfold is_space, is_word, is_upper, is_lower, is_digit, between. intros H.
  apply orb_true_iff in H as [H|H]; apply andb_true_iff in H as [H1 H2];
    apply Nat.leb_le in H1, H2;
    repeat (apply orb_false_iff; split);
    try (apply andb_false_iff; left; apply Nat.leb_gt; lia);
    try (apply andb_false_iff; right; apply Nat.leb_gt; lia);
    apply Nat.eqb_neq; lia.
Qed.

Lemma lower_is_word (c : ascii) : is_lower c = true -> is_word c = true.
Proof.
  unfold is_word. intros ->. now rewrite orb_true_r.
Qed.

Lemma lower_spaces (s : string) :
  all_chars is_space s = true -> lower s = s.
Proof.
  induction s as [|c s IH]; simpl; [reflexivity|].
  intros H; apply andb_true_iff in H as [Hc Hs].
  unfold lower_ascii. now rewrite (space_not_upper c Hc), IH.
Qed.

(** A word that starts with a non-blank character does not occur in
    whitespace-only text. *)
Lemma contains_spaces (c : ascii) (w s : string) :
  is_space c = false -> all_chars is_space s = true ->
  contains (String c w) s = false.
Proof.
  intros Hc. induction s as [|d s IH]; simpl; [reflexivity|].
  intros H; apply andb_true_iff in H as [Hd Hs].
  destruct (ascii_dec c d) as [->|_]; [congruence|]. now apply IH.
Qed.

Lemma count_spaces (c : ascii) (s : string) :
  is_space c = false -> all_chars is_space s = true -> count c s = 0%Z.
Proof.
  intros Hc. induction s as [|d s IH]; simpl; [reflexivity|].
  intros H; apply andb_true_iff in H as [Hd Hs].
  destruct (Ascii.eqb_spec c d) as [->|_]; [congruence|].
  now rewrite IH.
Qed.

Lemma count_nonneg (c : ascii) (s : string) : (0 <= count c s)%Z.
Proof.
  induction s as [|d s IH]; simpl; [lia|].
  destruct (Ascii.eqb c d); lia.
Qed.

(** ** Clamping *)

Lemma Qltb_lt (x y : Q) : Qltb x y = true <-> x < y.
Proof.
  unfold Qltb. rewrite negb_true_iff, <- not_true_iff_false, Qle_bool_iff.
  split; [apply Qnot_le_lt | apply Qlt_not_le].
Qed.

Lemma Qltb_ge (x y : Q) : Qltb x y = false <-> y <= x.
Proof.
  unfold Qltb. rewrite negb_false_iff. apply Qle_bool_iff.
Qed.

(** Whatever the float, also an infinity or [nan], the clamp lands in the
    unit interval. *)
Lemma clamp01_in_unit (f : pyfloat) : in_unit (clamp01 f).
Proof.
  unfold clamp01, py_min, py_max.
  destruct f as [q| | |]; simpl; try (split; [discriminate | apply Qle_refl]).
  - destruct (Qltb q 1) eqn:H1; simpl.
    + destruct (Qltb 0 q) eqn:H0; simpl.
      * apply Qltb_lt in H0, H1. split; now apply Qlt_le_weak.
      * split; [apply Qle_refl | discriminate].
    + split; discriminate.
  - split; [apply Qle_refl | discriminate].
Qed.

(** Inside the unit interval the clamp changes nothing. *)
Lemma clamp01_id (q : Q) : 0 <= q -> q <= 1 -> clamp01 (Fin q) = Fin q \/ q == 0 \/ q == 1.
Proof.
  intros H0 H1. unfold clamp01, py_min, py_max; simpl.
  destruct (Qltb q 1) eqn:E1; simpl.
  - destruct (Qltb 0 q) eqn:E0; [now left|].
    apply Qltb_ge in E0. right; left. now apply Qle_antisym.
  - apply Qltb_ge in E1. right; right. now apply Qle_antisym.
Qed.

Lemma clamp01_open (q : Q) : 0 < q -> q < 1 -> clamp01 (Fin q) = Fin q.
Proof.
  intros H0 H1. unfold clamp01, py_min, py_max; simpl.
  apply Qltb_lt in H0, H1. now rewrite H1; simpl; rewrite H0.
Qed.

End PyFacts.

(* ================================================================== *)
(** * Facts about the matcher *)
(* ================================================================== *)

Module ReFacts.
Import Py Spec Aux PyFacts Re.

(** ** What a successful run has matched *)

Lemma derives_star_stop greedy r prev s caps :
  derives (star_of greedy r) prev s caps prev s caps.
Proof. destruct greedy; constructor. Qed.

Lemma derives_star_step greedy r prev s caps prev1 s1 caps1 prev2 s2 caps2 :
  derives r prev s caps prev1 s1 caps1 ->
  (String.length s1 < String.length s)%nat ->
  derives (star_of greedy r) prev1 s1 caps1 prev2 s2 caps2 ->
  derives (star_of greedy r) prev s caps prev2 s2 caps2.
Proof. destruct greedy; simpl; eauto using derives. Qed.

Section Soundness.
Context {A : Type}.

Lemma star_loop_sound (r : regex) body greedy :
  @sound_for A r body ->
  forall fuel prev s caps k a,
    star_loop body greedy k fuel prev s caps = Some a ->
    exists prev' s' caps',
      derives (star_of greedy r) prev s caps prev' s' caps'
      /\ k prev' s' caps' = Some a.
Proof.
  intros Hbody fuel; induction fuel as [|fuel IH]; intros prev s caps k a H.
  - simpl in H. exists prev, s, caps; split; [apply derives_star_stop | exact H].
  - cbn [star_loop] in H.
    set (again := body prev s caps _) in H.
    assert (Hagain : again = Some a ->
                     exists prev' s' caps',
                       derives (star_of greedy r) prev s caps prev' s' caps'
                       /\ k prev' s' caps' = Some a).
    { intros E. apply Hbody in E as (prev1 & s1 & caps1 & D1 & E).
      destruct (String.length s1 <? String.length s)%nat eqn:Hlt; [|discriminate].
      apply Nat.ltb_lt in Hlt.
      apply IH in E as (prev2 & s2 & caps2 & D2 & E).
      exists prev2, s2, caps2; split; [|exact E].
      eapply derives_star_step; eauto. }
    assert (Hstop : k prev s caps = Some a ->
                    exists prev' s' caps',
                      derives (star_of greedy r) prev s caps prev' s' caps'
                      /\ k prev' s' caps' = Some a).
    { intros E. exists prev, s, caps; split; [apply derives_star_stop | exact E]. }
    destruct greedy.
    + destruct again as [a'|] eqn:E; [injection H as <-; now apply Hagain | now apply Hstop].
    + destruct (k prev s caps) as [a'|] eqn:E; [injection H as <-; now apply Hstop | now apply Hagain].
Qed.

Lemma run_sound (r : regex) : sound_for r (@run A r).
Proof.
  induction r as [|p| |r1 IH1 r2 IH2|r IH|r IH|r IH];
    intros prev s caps k a H; cbn [run] in H.
  - exists prev, s, caps; split; [constructor | exact H].
  - destruct s as [|c s]; [discriminate|].
    destruct (p c) eqn:E; [|discriminate].
    exists (Some c), s, caps; split; [now constructor | exact H].
  - destruct (at_boundary prev s) eqn:E; [|discriminate].
    exists prev, s, caps; split; [now constructor | exact H].
  - apply IH1 in H as (prev1 & s1 & caps1 & D1 & H).
    apply IH2 in H as (prev2 & s2 & caps2 & D2 & H).
    exists prev2, s2, caps2; split; [econstructor; eauto | exact H].
  - eapply (star_loop_sound r _ true) in H; eauto.
  - eapply (star_loop_sound r _ false) in H; eauto.
  - apply IH in H as (prev1 & s1 & caps1 & D1 & H).
    eexists _, _, _; split; [constructor; exact D1 | exact H].
Qed.

End Soundness.

(** ** Shape of a derivation *)

Lemma derives_length r prev s caps prev' s' caps' :
  derives r prev s caps prev' s' caps' ->
  (String.length s' <= String.length s)%nat
  /\ (consumes r = true -> String.length s' < String.length s)%nat.
Proof.
  induction 1; cbn [consumes String.length]; try (split; [lia | discriminate || lia]).
  - destruct IHderives1 as [L1 C1], IHderives2 as [L2 C2].
    split; [lia|]. intros Hc; apply orb_true_iff in Hc as [Hc|Hc];
      [specialize (C1 Hc) | specialize (C2 Hc)]; lia.
  - exact IHderives.
Qed.

Lemma derives_groupless r prev s caps prev' s' caps' :
  derives r prev s caps prev' s' caps' -> groupless r = true -> caps' = caps.
Proof.
  induction 1; cbn [groupless]; intros G; try reflexivity.
  - apply andb_true_iff in G as [G1 G2].
    now rewrite (IHderives2 G2), (IHderives1 G1).
  - now rewrite (IHderives2 G), (IHderives1 G).
  - now rewrite (IHderives2 G), (IHderives1 G).
  - discriminate.
Qed.

Lemma substring_length (n : nat) (s : string) :
  (n <= String.length s)%nat -> String.length (substring 0 n s) = n.
Proof.
  revert s; induction n as [|n IH]; intros s H.
  - now destruct s.
  - destruct s as [|c s]; simpl in *; [lia|]. rewrite IH; lia.
Qed.

(** A group around a pattern that reads something captures a non-empty
    text, when the pattern holds no group of its own. *)
Lemma derives_group_nonempty r prev s caps prev' s' caps' :
  derives (Group r) prev s caps prev' s' caps' ->
  groupless r = true -> consumes r = true ->
  exists w, caps' = caps ++ [w] /\ w <> ""%string.
Proof.
  intros D G C. inversion D; subst.
  match goal with H : derives r _ _ _ _ _ _ |- _ =>
    pose proof (derives_groupless _ _ _ _ _ _ _ H G) as ->;
    destruct (derives_length _ _ _ _ _ _ _ H) as [L1 L2]; specialize (L2 C)
  end.
  eexists; split; [reflexivity|].
  intros E. apply (f_equal String.length) in E.
  rewrite substring_length in E by lia. simpl in E. lia.
Qed.

(** ** [search] and [findall] return matches *)

Lemma match_at_sound r prev s m :
  match_at r prev s = Some m ->
  derives r prev s [] (m_prev m) (m_rest m) (m_groups m)
  /\ m_text m = substring 0 (String.length s - String.length (m_rest m)) s.
Proof.
  unfold match_at. intros H.
  apply run_sound in H as (prev' & s' & caps' & D & H).
  injection H as <-. simpl. now split.
Qed.

Lemma search_from_sound r prev s m :
  search_from r prev s = Some m ->
  exists prev0 s0, match_at r prev0 s0 = Some m.
Proof.
  revert prev; induction s as [|c s IH]; intros prev H; cbn [search_from] in H.
  - destruct (match_at r prev "") eqn:E; [|discriminate].
    injection H as <-. eauto.
  - destruct (match_at r prev (String c s)) eqn:E.
    + injection H as <-. eauto.
    + eauto.
Qed.

Lemma matches_from_sound r fuel prev s m :
  In m (matches_from fuel r prev s) ->
  exists prev0 s0, match_at r prev0 s0 = Some m.
Proof.
  revert prev s; induction fuel as [|fuel IH]; intros prev s H; [destruct H|].
  cbn [matches_from] in H.
  destruct (search_from r prev s) as [m0|] eqn:E; [|destruct H].
  destruct H as [<-|H]; [eapply search_from_sound; eauto|].
  destruct (m_text m0); destruct (m_rest m0); try destruct H; eauto.
Qed.

End ReFacts.

(* ================================================================== *)
(** * The word pattern *)
(* ================================================================== *)

Module WordFacts.
Import Py Spec Aux PyFacts Re ReFacts Fallback.

(** ** Runs *)

Lemma take_drop (p : ascii -> bool) (s : string) :
  (take_while p s ++ drop_while p s)%string = s.
Proof.
  induction s as [|c s IH]; simpl; [reflexivity|].
  destruct (p c); simpl; [now rewrite IH | reflexivity].
Qed.

Lemma take_while_all (p : ascii -> bool) (s : string) :
  all_chars p (take_while p s) = true.
Proof.
  induction s as [|c s IH]; simpl; [reflexivity|].
  destruct (p c) eqn:E; simpl; [now rewrite E | reflexivity].
Qed.

Lemma drop_while_length (p : ascii -> bool) (s : string) :
  (String.length (drop_while p s) <= String.length s)%nat.
Proof.
  induction s as [|c s IH]; simpl; [lia|].
  destruct (p c); simpl; lia.
Qed.

Lemma drop_while_first (p : ascii -> bool) (s : string) (d : ascii) :
  first_char (drop_while p s) = Some d -> p d = false.
Proof.
  induction s as [|c s IH]; simpl; [discriminate|].
  destruct (p c) eqn:E; [exact IH|].
  simpl. intros H; injection H as <-. exact E.
Qed.

Lemma substring_take_while (p : ascii -> bool) (s : string) :
  substring 0 (String.length s - String.length (drop_while p s)) s
  = take_while p s.
Proof.
  induction s as [|c s IH]; [reflexivity|].
  cbn [take_while drop_while]. destruct (p c).
  - pose proof (drop_while_length p s).
    replace (String.length (String c s) - String.length (drop_while p s))%nat
      with (S (String.length s - String.length (drop_while p s)))
      by (cbn [String.length]; lia).
    cbn [substring]. now rewrite IH.
  - rewrite Nat.sub_diag. reflexivity.
Qed.

(** When the run of [q] stops at a character outside [p], and [q] is
    within [p], the runs of [p] and [q] from the same place coincide. *)
Lemma runs_agree (p q : ascii -> bool) (s : string) :
  (forall c, q c = true -> p c = true) ->
  match first_char (drop_while q s) with
  | Some d => p d = false
  | None => True
  end ->
  take_while p s = take_while q s /\ drop_while p s = drop_while q s.
Proof.
  intros Hqp. induction s as [|c s IH]; simpl; [auto|].
  destruct (q c) eqn:Eq.
  - rewrite (Hqp c Eq). intros H. destruct (IH H) as [-> ->]. auto.
  - simpl. intros ->. auto.
Qed.

(** A run of [p] whose characters all satisfy [q] is a run of [q]. *)
Lemma runs_agree_all (p q : ascii -> bool) (s : string) :
  (forall c, q c = true -> p c = true) ->
  all_chars q (take_while p s) = true ->
  take_while q s = take_while p s /\ drop_while q s = drop_while p s.
Proof.
  intros Hqp. induction s as [|c s IH]; simpl; [auto|].
  destruct (p c) eqn:Ep; simpl.
  - intros H; apply andb_true_iff in H as [Hc H].
    rewrite Hc. destruct (IH H) as [-> ->]. auto.
  - intros _. destruct (q c) eqn:Eq; [|auto].
    rewrite (Hqp c Eq) in Ep; discriminate.
Qed.

Lemma last_of_word (prev : option ascii) (w : string) :
  word_opt prev = true -> all_chars is_word w = true ->
  word_opt (last_of prev w) = true.
Proof.
  revert prev; induction w as [|c w IH]; intros prev Hp H; simpl in *; [exact Hp|].
  apply andb_true_iff in H as [Hc H]. now apply IH.
Qed.

Lemma all_chars_impl (p q : ascii -> bool) (w : string) :
  (forall c, p c = true -> q c = true) ->
  all_chars p w = true -> all_chars q w = true.
Proof.
  intros Hpq; induction w as [|c w IH]; simpl; [reflexivity|].
  intros H; apply andb_true_iff in H as [Hc H].
  now rewrite (Hpq c Hc), IH.
Qed.

(** ** One match of the word pattern *)

Section Loop.
Context {A : Type}.
Variable F : @cont A.

(** Greedy [[a-z]*] followed by [\b]: backtracking into the run of letters
    never helps, since no boundary lies between two letters. *)
Lemma star_lower (fuel : nat) :
  forall (s : string) (prev : option ascii) (caps : list string),
    (String.length s <= fuel)%nat ->
    word_opt prev = true ->
    star_loop (run (Chr is_lower)) true (after_boundary F) fuel prev s caps
    = after_boundary F (last_of prev (take_while is_lower s))
                     (drop_while is_lower s) caps.
Proof.
  induction fuel as [|fuel IH]; intros s prev caps Hlen Hprev.
  - destruct s; [reflexivity | simpl in Hlen; lia].
  - cbn [star_loop run]. destruct s as [|c s]; [reflexivity|].
    cbn [take_while drop_while]. destruct (is_lower c) eqn:Ec.
    + assert (Hlt : (String.length s <? String.length (String c s))%nat = true)
        by (apply Nat.ltb_lt; simpl; lia).
      rewrite Hlt, IH by (simpl in *; auto using lower_is_word; lia).
      cbn [last_of].
      destruct (after_boundary F _ _ _) eqn:E; [reflexivity|].
      unfold after_boundary, at_boundary. cbn [first_char word_opt].
      now rewrite Hprev, (lower_is_word c Ec).
    + reflexivity.
Qed.

End Loop.

Lemma match_at_word (prev : option ascii) (s : string) :
  match_at word_re prev s = word_at prev s.
Proof.
  unfold match_at, word_at, word_re, at_least_3.
  cbn [Cats fold_right AtLeast run].
  destruct (at_boundary prev s); [|reflexivity]. cbn [andb].
  destruct s as [|c1 s]; [reflexivity|]. cbn [take_while drop_while].
  destruct (is_lower c1) eqn:E1; [|reflexivity].
  destruct s as [|c2 s]; [reflexivity|]. cbn [take_while drop_while].
  destruct (is_lower c2) eqn:E2; [|reflexivity].
  destruct s as [|c3 s]; [reflexivity|]. cbn [take_while drop_while].
  destruct (is_lower c3) eqn:E3; [|reflexivity].
  match goal with
  | |- star_loop _ _ ?k _ _ _ _ = _ =>
      change k with
        (after_boundary
           (fun prev' s' caps =>
              Some {| m_text :=
                        substring 0 (String.length (String c1 (String c2 (String c3 s)))
                                     - String.length s')
                                  (String c1 (String c2 (String c3 s)));
                      m_groups := caps; m_prev := prev'; m_rest := s' |}))
  end.
  match goal with
  | |- star_loop ?body _ _ _ _ _ _ = _ =>
      change body with (@run rmatch (Chr is_lower))
  end.
  rewrite star_lower by (cbn [word_opt]; auto using lower_is_word).
  unfold after_boundary, at_boundary.
  assert (Hw : word_opt (last_of (Some c3) (take_while is_lower s)) = true).
  { apply last_of_word; [cbn; auto using lower_is_word|].
    eapply all_chars_impl; [apply lower_is_word | apply take_while_all]. }
  rewrite Hw.
  pose proof (substring_take_while is_lower (String c1 (String c2 (String c3 s)))) as H.
  cbn [take_while drop_while] in H. rewrite E1, E2, E3 in H.
  destruct (word_opt (first_char (drop_while is_lower s)));
    cbn [xorb negb andb String.length Nat.leb last_of]; [reflexivity|].
  cbn [String.length] in H. now rewrite H.
Qed.

(** ** Scanning the text *)

Lemma drop_while_stops (s : string) : stops_word (drop_while is_word s).
Proof.
  unfold stops_word. destruct (first_char _) eqn:E; [|exact I].
  eapply drop_while_first; eauto.
Qed.

Lemma search_from_eq (r : regex) (prev : option ascii) (s : string) :
  search_from r prev s
  = match match_at r prev s with
    | Some m => Some m
    | None =>
        match s with
        | EmptyString => None
        | String c s' => search_from r (Some c) s'
        end
    end.
Proof. destruct s; reflexivity. Qed.

Lemma matches_from_search (r : regex) (fuel : nat) p1 s1 p2 s2 :
  search_from r p1 s1 = search_from r p2 s2 ->
  matches_from (S fuel) r p1 s1 = matches_from (S fuel) r p2 s2.
Proof. intros H. cbn [matches_from]. now rewrite H. Qed.

(** No word starts where no boundary is. *)
Lemma word_at_no_boundary (prev : option ascii) (s : string) :
  at_boundary prev s = false -> word_at prev s = None.
Proof. unfold word_at. now intros ->. Qed.

(** No word starts right after a word character at a character that is
    none. *)
Lemma word_at_after (prev : option ascii) (s : string) :
  stops_word s -> word_at prev s = None.
Proof.
  unfold word_at, stops_word. intros H.
  destruct s as [|d s]; cbn [take_while]; [now rewrite andb_false_r|].
  cbn in H. assert (E : is_lower d = false).
  { destruct (is_lower d) eqn:E; [|reflexivity].
    now rewrite (lower_is_word d E) in H. }
  rewrite E. now rewrite andb_false_r.
Qed.

(** At the start of a word the pattern matches the whole word or nothing. *)
Lemma word_at_start (prev : option ascii) (c : ascii) (s : string) :
  word_opt prev = false -> is_word c = true ->
  let w := take_while is_word (String c s) in
  let rest := drop_while is_word (String c s) in
  word_at prev (String c s)
  = if good_word w
    then Some {| m_text := w; m_groups := []; m_prev := last_of prev w;
                 m_rest := rest |}
    else None.
Proof.
  intros Hprev Hc w rest. unfold word_at, good_word.
  assert (B : at_boundary prev (String c s) = true)
    by (unfold at_boundary; cbn [first_char word_opt]; now rewrite Hprev, Hc).
  rewrite B. cbn [andb].
  destruct (all_chars is_lower w) eqn:Hall.
  - destruct (runs_agree_all is_word is_lower (String c s) lower_is_word Hall)
      as [-> ->].
    fold w rest. cbn [andb].
    assert (S : word_opt (first_char rest) = false).
    { pose proof (drop_while_stops (String c s)) as H. fold rest in H.
      unfold stops_word in H. destruct (first_char rest); [exact H | reflexivity]. }
    rewrite S, andb_true_r. reflexivity.
  - cbn [andb].
    destruct (at_least_3 (take_while is_lower (String c s))
              && negb (word_opt (first_char (drop_while is_lower (String c s)))))
      eqn:E; [|reflexivity].
    apply andb_true_iff in E as [_ E]. apply negb_true_iff in E.
    assert (H : match first_char (drop_while is_lower (String c s)) with
                | Some d => is_word d = false
                | None => True
                end)
      by (destruct (first_char _); [exact E | exact I]).
    destruct (runs_agree is_word is_lower (String c s) lower_is_word H) as [Ht _].
    fold w in Ht. rewrite Ht, take_while_all in Hall. discriminate.
Qed.

(** Inside a word the search moves on to the end of the word. *)
Lemma search_skips_word (s : string) :
  forall prev, word_opt prev = true ->
    search_from word_re prev s
    = search_from word_re (last_of prev (take_while is_word s))
                  (drop_while is_word s).
Proof.
  induction s as [|c s IH]; intros prev Hprev; [reflexivity|].
  cbn [take_while drop_while]. destruct (is_word c) eqn:Hc; [|reflexivity].
  rewrite search_from_eq, match_at_word, word_at_no_boundary
    by (unfold at_boundary; cbn [first_char word_opt]; now rewrite Hprev, Hc).
  cbn [last_of]. now apply IH.
Qed.

(** After a word the search resumes behind the character that ended it. *)
Lemma matches_after_word (fuel : nat) (prev : option ascii) (s : string) :
  stops_word s ->
  matches_from (S fuel) word_re prev s
  = match s with
    | EmptyString => []
    | String d s' => matches_from (S fuel) word_re (Some d) s'
    end.
Proof.
  intros H. destruct s as [|d s].
  - cbn [matches_from search_from]. now rewrite match_at_word, word_at_after.
  - apply matches_from_search.
    now rewrite search_from_eq, match_at_word, word_at_after.
Qed.

Lemma runs_from_nil (p : ascii -> bool) (fuel : nat) : runs_from p fuel "" = [].
Proof. now destruct fuel. Qed.

Lemma words_scan (n : nat) :
  forall s, (String.length s <= n)%nat ->
  forall prev f1 f2,
    word_opt prev = false ->
    (String.length s < f1)%nat -> (String.length s <= f2)%nat ->
    map found (matches_from f1 word_re prev s)
    = filter good_word (runs_from is_word f2 s).
Proof.
  induction n as [|n IH]; intros s Hn prev f1 f2 Hprev H1 H2.
  - destruct s; [|simpl in Hn; lia].
    destruct f1 as [|f1]; [lia|]. rewrite runs_from_nil.
    cbn [matches_from search_from].
    now rewrite match_at_word, word_at_no_boundary
      by (unfold at_boundary; cbn; now rewrite Hprev).
  - destruct s as [|c s].
    { destruct f1 as [|f1]; [lia|]. rewrite runs_from_nil.
      cbn [matches_from search_from].
      now rewrite match_at_word, word_at_no_boundary
        by (unfold at_boundary; cbn; now rewrite Hprev). }
    cbn [String.length] in *.
    destruct f1 as [|f1]; [lia|]. destruct f2 as [|f2]; [lia|].
    cbn [runs_from]. destruct (is_word c) eqn:Hc.
    + (* a word starts here *)
      pose proof (drop_while_stops (String c s)) as Hstop.
      pose proof (drop_while_length is_word s) as Hlen.
      set (w := take_while is_word (String c s)) in *.
      set (rest := drop_while is_word (String c s)) in *.
      assert (Hrest : rest = drop_while is_word s)
        by (unfold rest; cbn [drop_while]; now rewrite Hc).
      assert (Htail : forall g prev',
                 (String.length rest < g)%nat ->
                 map found (matches_from g word_re prev' rest)
                 = filter good_word (runs_from is_word f2 rest)).
      { intros g prev' Hg. destruct g as [|g]; [lia|].
        rewrite matches_after_word by exact Hstop.
        destruct rest as [|d rest'] eqn:Er; [now rewrite runs_from_nil|].
        assert (Hd : is_word d = false) by exact Hstop.
        rewrite <- Hrest in Hlen. cbn [String.length] in *.
        destruct f2 as [|f2]; [lia|].
        cbn [runs_from]. rewrite Hd.
        apply IH; cbn [word_opt]; auto; lia. }
      cbn [filter].
      pose proof (word_at_start prev c s Hprev Hc) as Hat. cbv zeta in Hat.
      fold w rest in Hat.
      destruct (good_word w) eqn:Hgood.
      * cbn [matches_from]. rewrite search_from_eq, match_at_word, Hat.
        cbn [m_text m_rest m_prev map found m_groups].
        assert (Hw : w = String c (take_while is_word s))
          by (unfold w; cbn [take_while]; now rewrite Hc).
        f_equal. clearbody w. rewrite Hw. apply Htail.
        rewrite Hrest. lia.
      * assert (E : search_from word_re prev (String c s)
                    = search_from word_re (last_of (Some c) (take_while is_word s)) rest).
        { rewrite search_from_eq, match_at_word, Hat, Hrest.
          apply search_skips_word. cbn [word_opt]. exact Hc. }
        rewrite (matches_from_search _ _ _ _ _ _ E).
        apply Htail. rewrite Hrest. lia.
    + (* not a word character: move on *)
      rewrite (matches_from_search word_re f1 prev (String c s) (Some c) s).
      * apply IH; cbn [word_opt]; auto; lia.
      * rewrite search_from_eq, match_at_word, word_at_no_boundary; [reflexivity|].
        unfold at_boundary; cbn [first_char word_opt]. now rewrite Hprev, Hc.
Qed.

(** The matches of the word pattern are the alphabetic words of the text. *)
Lemma words_alphabetic_words (s : string) : words s = alphabetic_words s.
Proof.
  unfold words, findall, alphabetic_words, runs.
  apply (words_scan (String.length s)); auto.
Qed.

End WordFacts.

(* ================================================================== *)
(** * Counting and ranking *)
(* ================================================================== *)

Module RankFacts.
Import Py Spec Aux Fallback.

(** ** Occurrences and first positions *)

Lemma occurrences_snoc (l : list string) (w v : string) :
  occurrences (l ++ [w]) v
  = (occurrences l v + if String.eqb w v then 1 else 0)%nat.
Proof.
  unfold occurrences. rewrite count_occ_app. cbn [count_occ].
  destruct (string_dec w v) as [->|N].
  - now rewrite String.eqb_refl.
  - apply String.eqb_neq in N. now rewrite N.
Qed.

Lemma first_index_lt (w : string) (l : list string) :
  In w l -> (first_index w l < List.length l)%nat.
Proof.
  induction l as [|v l IH]; [intros []|].
  cbn [first_index List.length]. destruct (String.eqb_spec v w); [lia|].
  intros [E|H]; [congruence|]. specialize (IH H). lia.
Qed.

Lemma first_index_snoc_in (w v : string) (l : list string) :
  In v l -> first_index v (l ++ [w]) = first_index v l.
Proof.
  induction l as [|u l IH]; [intros []|].
  cbn [first_index app]. destruct (String.eqb_spec u v); [reflexivity|].
  intros [E|H]; [congruence|]. now rewrite IH.
Qed.

Lemma first_index_snoc_new (w : string) (l : list string) :
  ~ In w l -> first_index w (l ++ [w]) = List.length l.
Proof.
  induction l as [|u l IH]; intros N; cbn [first_index app List.length].
  - now rewrite String.eqb_refl.
  - destruct (String.eqb_spec u w) as [->|_]; [exfalso; apply N; now left|].
    rewrite IH; [reflexivity|]. intros H; apply N; now right.
Qed.

Lemma occurrences_pos (l : list string) (w : string) :
  In w l <-> (0 < occurrences l w)%nat.
Proof. unfold occurrences. apply count_occ_In. Qed.

(** ** The counter *)

Lemma Counter_snoc (l : list string) (w : string) :
  Counter (l ++ [w]) = tally w (Counter l).
Proof. unfold Counter. now rewrite fold_left_app. Qed.

Lemma tally_keys_in (w : string) (c : counter) :
  In w (map fst c) -> map fst (tally w c) = map fst c.
Proof.
  induction c as [|[v n] c IH]; [intros []|].
  cbn [tally map fst]. destruct (String.eqb_spec v w) as [->|N]; [reflexivity|].
  intros [E|H]; [congruence|]. cbn [map fst]. now rewrite IH.
Qed.

Lemma tally_keys_new (w : string) (c : counter) :
  ~ In w (map fst c) -> tally w c = c ++ [(w, 1%nat)].
Proof.
  induction c as [|[v n] c IH]; intros N; [reflexivity|].
  cbn [tally]. cbn [map fst] in N.
  destruct (String.eqb_spec v w) as [->|_]; [exfalso; apply N; now left|].
  rewrite IH; [reflexivity|]. intros H; apply N; now right.
Qed.

Lemma tally_in (w : string) (c : counter) (v : string) (n : nat) :
  NoDup (map fst c) ->
  In (v, n) (tally w c) ->
  (v = w /\ ((exists m, In (w, m) c /\ n = S m)
             \/ (~ In w (map fst c) /\ n = 1%nat)))
  \/ (v <> w /\ In (v, n) c).
Proof.
  induction c as [|[u m] c IH]; intros ND H.
  - destruct H as [H|[]]. injection H as <- <-. left. split; [reflexivity|].
    right. split; [intros []| reflexivity].
  - cbn [tally] in H. cbn [map fst] in ND. inversion ND as [|? ? Hu ND']; subst.
    destruct (String.eqb_spec u w) as [->|N].
    + destruct H as [H|H].
      * injection H as <- <-. left. split; [reflexivity|].
        left. exists m. split; [now left | reflexivity].
      * right. split; [|now right].
        intros ->. apply Hu. apply (in_map fst) in H. exact H.
    + destruct H as [H|H].
      * injection H as <- <-. right. split; [exact N | now left].
      * destruct (IH ND' H) as [[-> [(k & Hk & ->)|[Hn ->]]]|[Hv Hin]].
        -- left. split; [reflexivity|]. left. exists k. split; [now right | reflexivity].
        -- left. split; [reflexivity|]. right. split; [|reflexivity].
           cbn [map fst]. intros [E|E]; [congruence | contradiction].
        -- right. split; [exact Hv | now right].
Qed.

Lemma StronglySorted_snoc {A} (R : A -> A -> Prop) (l : list A) (x : A) :
  StronglySorted R l -> Forall (fun y => R y x) l ->
  StronglySorted R (l ++ [x]).
Proof.
  induction 1 as [|y l SS IH F]; intros H; cbn [app].
  - constructor; constructor.
  - inversion H; subst. constructor; [now apply IH|].
    apply Forall_app; split; [exact F | now constructor].
Qed.

Lemma StronglySorted_impl {A} (R R' : A -> A -> Prop) (l : list A) :
  (forall a b, In a l -> In b l -> R a b -> R' a b) ->
  StronglySorted R l -> StronglySorted R' l.
Proof.
  intros H SS; induction SS as [|x l SS IH F]; constructor.
  - apply IH. intros a b Ha Hb. apply H; now right.
  - rewrite Forall_forall in *. intros y Hy. apply H; [now left | now right | now apply F].
Qed.

Lemma StronglySorted_same_keys {A B} (f : A -> B) (R : B -> B -> Prop)
      (l l' : list A) :
  map f l = map f l' ->
  StronglySorted (fun a b => R (f a) (f b)) l ->
  StronglySorted (fun a b => R (f a) (f b)) l'.
Proof.
  revert l'; induction l as [|x l IH]; intros [|x' l'] E SS;
    try discriminate; [constructor|].
  cbn [map] in E. injection E as Ex El. inversion SS as [|? ? SS' F]; subst.
  constructor; [now apply IH|].
  rewrite Forall_forall in *. intros y' Hy'.
  apply (in_map f) in Hy'. rewrite <- El in Hy'.
  apply in_map_iff in Hy' as (y & <- & Hy). rewrite <- Ex. now apply F.
Qed.

Lemma Counter_counts (l : list string) : counts l (Counter l).
Proof.
  induction l as [|w l IH] using rev_ind.
  - split; cbn; try constructor; intros; contradiction.
  - rewrite Counter_snoc. destruct IH as [ND V K O].
    destruct (in_dec string_dec w (map fst (Counter l))) as [Hin|Hnew].
    + (* the word was counted before *)
      pose proof (tally_keys_in w _ Hin) as Ekeys.
      assert (Hwl : In w l).
      { apply in_map_iff in Hin as ([v n] & <- & H). now apply V in H. }
      split.
      * now rewrite Ekeys.
      * intros v n H. apply (tally_in w _ v n ND) in H.
        rewrite occurrences_snoc, in_app_iff.
        destruct H as [[-> [(m & Hm & ->)|[Hn _]]]|[Hv H]].
        -- apply V in Hm as [-> Hm]. rewrite String.eqb_refl. split; [lia | now left].
        -- contradiction.
        -- apply V in H as [-> H]. apply String.eqb_neq in Hv.
           rewrite String.eqb_sym, Hv. split; [lia | now left].
      * intros v Hv. rewrite Ekeys. apply in_app_iff in Hv as [Hv|[<-|[]]]; auto.
      * apply (StronglySorted_same_keys fst
                 (fun a b => (first_index a (l ++ [w]) < first_index b (l ++ [w]))%nat)
                 (Counter l)); [now rewrite Ekeys|].
        eapply StronglySorted_impl; [|exact O].
        intros [a na] [b nb] Ha Hb. unfold key_order; cbn [fst].
        apply V in Ha as [_ Ha]. apply V in Hb as [_ Hb].
        now rewrite !first_index_snoc_in.
    + (* a new word *)
      assert (Hwl : ~ In w l) by (intros H; apply Hnew; now apply K).
      rewrite (tally_keys_new w _ Hnew). split.
      * rewrite map_app. cbn [map fst]. apply NoDup_app.
        -- exact ND.
        -- repeat constructor. intros [].
        -- intros v Hv [<-|[]]. contradiction.
      * intros v n H. rewrite occurrences_snoc, in_app_iff.
        apply in_app_iff in H as [H|[H|[]]].
        -- apply V in H as [-> H]. split; [|now left].
           destruct (String.eqb_spec w v) as [->|_]; [contradiction | lia].
        -- injection H as <- <-. rewrite String.eqb_refl.
           split; [|right; now left].
           assert (occurrences l w = 0%nat); [|lia].
           destruct (occurrences l w) eqn:E; [reflexivity|].
           exfalso. apply Hwl. apply occurrences_pos. lia.
      * intros v Hv. rewrite map_app, in_app_iff. cbn [map fst].
        apply in_app_iff in Hv as [Hv|[<-|[]]]; [left; now apply K | right; now left].
      * apply StronglySorted_snoc.
        -- eapply StronglySorted_impl; [|exact O].
           intros [a na] [b nb] Ha Hb. unfold key_order; cbn [fst].
           apply V in Ha as [_ Ha]. apply V in Hb as [_ Hb].
           now rewrite !first_index_snoc_in.
        -- apply Forall_forall. intros [a na] Ha. unfold key_order; cbn [fst].
           apply V in Ha as [_ Ha].
           rewrite first_index_snoc_in, first_index_snoc_new by assumption.
           now apply first_index_lt.
Qed.

Lemma Counter_nil (l : list string) : Counter l = [] -> l = [].
Proof.
  intros E. destruct l as [|w l]; [reflexivity|].
  pose proof (counts_keys _ _ (Counter_counts (w :: l)) w (or_introl eq_refl)) as H.
  now rewrite E in H.
Qed.

(** ** The stable sort *)

Lemma insert_desc_perm (x : string * nat) (l : counter) :
  Permutation (insert_desc x l) (x :: l).
Proof.
  induction l as [|y l IH]; cbn [insert_desc]; [reflexivity|].
  destruct (snd x <? snd y)%nat; [|reflexivity].
  rewrite IH. apply perm_swap.
Qed.

Lemma sorted_desc_perm (c : counter) : Permutation (sorted_desc c) c.
Proof.
  induction c as [|x c IH]; cbn; [reflexivity|].
  fold (sorted_desc c). now rewrite insert_desc_perm, IH.
Qed.

Lemma insert_desc_sorted R (x : string * nat) (l : counter) :
  StronglySorted (lex R) l -> Forall (R x) l ->
  StronglySorted (lex R) (insert_desc x l).
Proof.
  induction 1 as [|y l SS IH F]; intros Hx; cbn [insert_desc].
  - repeat constructor.
  - inversion Hx as [|? ? Rxy Hx']; subst.
    destruct (snd x <? snd y)%nat eqn:E.
    + apply Nat.ltb_lt in E. constructor; [now apply IH|].
      rewrite (insert_desc_perm x l). constructor; [now left | exact F].
    + apply Nat.ltb_ge in E. constructor; [now constructor|].
      constructor.
      * destruct (Nat.eq_dec (snd x) (snd y)); [right; auto | left; lia].
      * rewrite Forall_forall in *. intros z Hz.
        destruct (F z Hz) as [Lt|[Eq _]].
        -- left; lia.
        -- destruct (Nat.eq_dec (snd x) (snd z)); [right; split; auto | left; lia].
Qed.

Lemma sorted_desc_sorted R (c : counter) :
  StronglySorted R c -> StronglySorted (lex R) (sorted_desc c).
Proof.
  induction 1 as [|x c SS IH F]; cbn; [constructor|].
  fold (sorted_desc c). apply insert_desc_sorted; [exact IH|].
  now rewrite sorted_desc_perm.
Qed.

(** ** The ranking *)

Lemma StronglySorted_NoDup {A} (R : A -> A -> Prop) (l : list A) :
  (forall a, ~ R a a) -> StronglySorted R l -> NoDup l.
Proof.
  intros Irr; induction 1 as [|x l SS IH F]; constructor; [|exact IH].
  intros H. rewrite Forall_forall in F. exact (Irr x (F x H)).
Qed.

Lemma StronglySorted_map {A B} (f : A -> B) (R : B -> B -> Prop) (l : list A) :
  StronglySorted (fun a b => R (f a) (f b)) l -> StronglySorted R (map f l).
Proof.
  induction 1 as [|x l SS IH F]; cbn [map]; constructor; [exact IH|].
  rewrite Forall_forall in *. intros y Hy.
  apply in_map_iff in Hy as (z & <- & Hz). now apply F.
Qed.

Lemma ranks_before_irrefl (l : list string) (a : string) : ~ ranks_before l a a.
Proof. unfold ranks_before. intros [H|[_ H]]; lia. Qed.

(** The words of the sorted counter are the ranking of [l]. *)
Lemma sorted_counter_ranking (l : list string) :
  is_ranking l (map fst (sorted_desc (Counter l))).
Proof.
  destruct (Counter_counts l) as [ND V K O].
  assert (SS : StronglySorted (ranks_before l) (map fst (sorted_desc (Counter l)))).
  { apply StronglySorted_map.
    eapply StronglySorted_impl; [|apply sorted_desc_sorted; exact O].
    intros [a na] [b nb] Ha Hb.
    rewrite sorted_desc_perm in Ha, Hb.
    apply V in Ha as [-> _]. apply V in Hb as [-> _].
    unfold lex, ranks_before, key_order; cbn [fst snd]. tauto. }
  split; [|split].
  - eapply StronglySorted_NoDup; [apply ranks_before_irrefl | exact SS].
  - intros w. rewrite (Permutation_map fst (sorted_desc_perm (Counter l))) at 1.
    split; [|apply K].
    intros H. apply in_map_iff in H as ([v n] & <- & H). now apply V in H.
  - exact SS.
Qed.

(** A list has one ranking only. *)
Lemma ranking_unique (l r1 r2 : list string) :
  is_ranking l r1 -> is_ranking l r2 -> r1 = r2.
Proof.
  intros (ND1 & M1 & S1) (ND2 & M2 & S2).
  assert (Same : forall w, In w r1 <-> In w r2)
    by (intros w; now rewrite M1, M2).
  clear M1 M2. revert r2 ND2 S2 Same.
  induction S1 as [|a r1 S1 IH F1]; intros r2 ND2 S2 Same.
  - destruct r2 as [|b r2]; [reflexivity|].
    exfalso. apply (Same b). now left.
  - destruct S2 as [|b r2 S2 F2].
    + exfalso. apply (Same a). now left.
    + inversion ND1 as [|? ? Na ND1']; inversion ND2 as [|? ? Nb ND2']; subst.
      rewrite Forall_forall in F1, F2.
      assert (a = b) as <-.
      { destruct (string_dec a b) as [E|N]; [exact E|exfalso].
        assert (Hb : In b r1)
          by (destruct (proj2 (Same b) (or_introl eq_refl)) as [E|H]; [congruence | exact H]).
        assert (Ha : In a r2)
          by (destruct (proj1 (Same a) (or_introl eq_refl)) as [E|H]; [congruence | exact H]).
        specialize (F1 b Hb). specialize (F2 a Ha).
        unfold ranks_before in F1, F2. lia. }
      f_equal. apply IH; auto.
      intros w. split; intros H.
      * destruct (proj1 (Same w) (or_intror H)) as [<-|H']; [contradiction | exact H'].
      * destruct (proj2 (Same w) (or_intror H)) as [<-|H']; [contradiction | exact H'].
Qed.

End RankFacts.

(* ================================================================== *)
(** * The fallback scorer: sentiment and emotion *)
(* ================================================================== *)

Module FallbackFacts.
Import Py Spec Aux PyFacts Re Fallback.

(** ** Scores *)

Lemma fold_add_shift (l : list Z) (a : Z) :
  fold_left Z.add l a = (a + fold_left Z.add l 0)%Z.
Proof.
  revert a; induction l as [|x l IH]; intros a; simpl; [lia|].
  rewrite (IH (a + x)%Z), (IH x). lia.
Qed.

Lemma weighted_cons (w : Z) (word : string) (ws : list string) (t : string) :
  weighted w (word :: ws) t
  = ((if contains word t then w else 0) + weighted w ws t)%Z.
Proof.
  unfold weighted; simpl. now rewrite fold_add_shift.
Qed.

Lemma weighted_bounds (w : Z) (ws : list string) (t : string) :
  (0 <= w)%Z ->
  (0 <= weighted w ws t <= w * Z.of_nat (List.length ws))%Z.
Proof.
  intros Hw; induction ws as [|word ws IH].
  - unfold weighted; simpl; lia.
  - rewrite weighted_cons. cbn [List.length].
    destruct (contains word t); lia.
Qed.

(** A score is zero exactly when none of its words occurs. *)
Lemma weighted_zero (w : Z) (ws : list string) (t : string) :
  (0 < w)%Z ->
  weighted w ws t = 0%Z <-> forall word, In word ws -> contains word t = false.
Proof.
  intros Hw; induction ws as [|word ws IH].
  - split; [intros _ ? [] | reflexivity].
  - rewrite weighted_cons.
    pose proof (weighted_bounds w ws t ltac:(lia)) as B.
    destruct (contains word t) eqn:E; split.
    + lia.
    + intros H. specialize (H word (or_introl eq_refl)). congruence.
    + intros H v [<-|Hv]; [exact E|]. apply IH; [lia|exact Hv].
    + intros H. simpl. apply IH. intros v Hv. apply H. now right.
Qed.

Lemma positive_score_bounds (t : string) : (0 <= positive_score t <= 28)%Z.
Proof.
  unfold positive_score.
  pose proof (weighted_bounds 2 strong_positive t ltac:(lia)).
  pose proof (weighted_bounds 1 moderate_positive t ltac:(lia)).
  simpl in *; lia.
Qed.

Lemma negative_score_bounds (t : string) : (0 <= negative_score t <= 25)%Z.
Proof.
  unfold negative_score.
  pose proof (weighted_bounds 2 strong_negative t ltac:(lia)).
  pose proof (weighted_bounds 1 moderate_negative t ltac:(lia)).
  simpl in *; lia.
Qed.

Lemma scores_nonneg (t : string) :
  (0 <= fst (scores t))%Z /\ (0 <= snd (scores t))%Z.
Proof.
  pose proof (positive_score_bounds t). pose proof (negative_score_bounds t).
  unfold scores. destruct (has_negation t); simpl; lia.
Qed.

(** The flip does not change the combined score. *)
Lemma total_score_sum (t : string) :
  total_score t = (positive_score t + negative_score t)%Z.
Proof.
  unfold total_score, scores. destruct (has_negation t); simpl; lia.
Qed.


(** ** The blend stays strictly inside the unit interval *)

Lemma blend_bounds (p n : Z) :
  (0 <= p)%Z -> (0 <= n)%Z -> (0 < p + n)%Z ->
  1#4 <= blend p n /\ blend p n <= 3#4.
Proof.
  intros Hp Hn Ht. unfold blend.
  rewrite Z.max_l by lia.
  assert (H1 : inject_Z (p - n) <= inject_Z (p + n))
    by (rewrite <- Zle_Qle; lia).
  assert (H2 : - inject_Z (p + n) <= inject_Z (p - n))
    by (rewrite <- inject_Z_opp, <- Zle_Qle; lia).
  assert (H3 : 0 < inject_Z (p + n))
    by (change 0 with (inject_Z 0); rewrite <- Zlt_Qlt; lia).
  rewrite inject_Z_mult. change (inject_Z 2) with 2.
  set (a := inject_Z (p - n)) in *. set (b := inject_Z (p + n)) in *.
  assert (U : a / (b * 2) <= 1#2) by (apply Qle_shift_div_r; lra).
  assert (L : -(1#2) <= a / (b * 2)) by (apply Qle_shift_div_l; lra).
  split; lra.
Qed.

Lemma raw_sentiment_eq (text : string) :
  raw_sentiment text
  = if (total_score (lower text) >? 0)%Z
    then blend (fst (scores (lower text))) (snd (scores (lower text)))
    else punctuation_bias text.
Proof.
  unfold raw_sentiment, total_score.
  now destruct (scores (lower text)) as [p n].
Qed.

Lemma punctuation_bias_cases (text : string) :
  punctuation_bias text = 11#20 \/ punctuation_bias text = 9#20
  \/ punctuation_bias text = 1#2.
Proof.
  unfold punctuation_bias.
  destruct (_ >? _)%Z; [now left|].
  destruct (_ >? _)%Z; [right; now left | right; now right].
Qed.

(** The scorer's sentiment before clamping lies between 1/4 and 3/4, so the
    clamp never changes it. *)
Lemma raw_sentiment_bounds (text : string) :
  1#4 <= raw_sentiment text /\ raw_sentiment text <= 3#4.
Proof.
  rewrite raw_sentiment_eq.
  destruct (total_score (lower text) >? 0)%Z eqn:E.
  - apply Z.gtb_lt in E. unfold total_score in E.
    destruct (scores_nonneg (lower text)). apply blend_bounds; lia.
  - destruct (punctuation_bias_cases text) as [-> | [-> | ->]];
      split; discriminate.
Qed.

Lemma clamp_raw_sentiment (text : string) :
  clamp01 (Fin (raw_sentiment text)) = Fin (raw_sentiment text).
Proof.
  destruct (raw_sentiment_bounds text) as [L U].
  apply clamp01_open.
  - eapply Qlt_le_trans; [|exact L]. reflexivity.
  - eapply Qle_lt_trans; [exact U|]. reflexivity.
Qed.


Section Scorer.
Variable list_of_set : list string -> list string.

Local Abbreviation fallback := (fallback_sentiment_analysis list_of_set).

Lemma fallback_sentiment (text : string) :
  sentiment (fallback text) = Fin (raw_sentiment text).
Proof. apply clamp_raw_sentiment. Qed.

Lemma fallback_emotion (text : string) :
  emotion (fallback text)
  = refine_emotion (threshold_emotion (Fin (raw_sentiment text))) (lower text).
Proof.
  unfold fallback_sentiment_analysis; cbn [emotion].
  now rewrite clamp_raw_sentiment.
Qed.

Lemma total_positive_gtb (text : string) :
  (positive_score (lower text) + negative_score (lower text) > 0)%Z ->
  (total_score (lower text) >? 0)%Z = true.
Proof. intros H. rewrite total_score_sum. apply Z.gtb_lt. lia. Qed.


(** C8.  When the combined score is zero the sentiment is 0.55, 0.45 or 0.5
    according to which of the exclamation and question marks are more
    numerous in the text. *)
Theorem fallback_sentiment_punctuation :
  (forall text : string,
      total_score (lower text) = 0%Z ->
      let exclamations := count "!" text in
      let questions := count "?" text in
      ((exclamations > questions)%Z -> sentiment (fallback text) = Fin (11#20))
      /\ ((questions > exclamations)%Z -> sentiment (fallback text) = Fin (9#20))
      /\ (exclamations = questions -> sentiment (fallback text) = Fin (1#2)))
  /\ sentiment (fallback "??") = Fin (9#20)
  /\ sentiment (fallback "!!") = Fin (11#20)
  /\ sentiment (fallback "The train leaves at noon") = Fin (1#2).
Proof.
  split; [|repeat split; vm_compute; reflexivity].
  intros text Hzero exclamations questions.
  rewrite fallback_sentiment, raw_sentiment_eq, Hzero. cbn [Z.gtb Z.compare].
  unfold punctuation_bias. fold exclamations questions.
  repeat split; intros H.
  - apply Z.gt_lt, Z.gtb_lt in H. now rewrite H.
  - assert (E : (exclamations >? questions)%Z = false)
      by (apply not_true_iff_false; rewrite Z.gtb_lt; lia).
    apply Z.gt_lt, Z.gtb_lt in H. now rewrite E, H.
  - rewrite H, Z.gtb_ltb, Z.ltb_irrefl. reflexivity.
Qed.

(** ** Emotion *)

Lemma threshold_emotion_spec (q : Q) :
  threshold_emotion (Fin q) = spec_threshold q.
Proof. reflexivity. Qed.

Lemma refine_first_match (e t : string) :
  refine_emotion e t = first_match_wins e t.
Proof.
  unfold refine_emotion, first_match_wins, emotion_sets, set_matches, any_in.
  cbn [find snd fst].
  repeat match goal with
         | |- context [existsb ?f ?l] => destruct (existsb f l); try reflexivity
         end.
Qed.

(** C7, as the code has it.  The emotion is the threshold label of the
    sentiment unless one of the four keyword sets matches the lower-cased
    text; of the sets that match, the first in the order joyful, sad,
    angry, calm gives the emotion. *)
Theorem fallback_emotion_first_match (text : string) :
  exists q,
    sentiment (fallback text) = Fin q
    /\ emotion (fallback text)
       = first_match_wins (spec_threshold q) (lower text).
Proof.
  exists (raw_sentiment text). split; [apply fallback_sentiment|].
  now rewrite fallback_emotion, threshold_emotion_spec, refine_first_match.
Qed.

End Scorer.


Lemma fallback_sentiment_punctuation_witness :
  total_score (lower "Really??") = 0%Z
  /\ sentiment (fallback_sentiment_analysis first_seen "Really??") = Fin (9#20).
Proof.
  split; [reflexivity|].
  exact (proj1 (proj2 (proj1 (fallback_sentiment_punctuation first_seen) "Really??" eq_refl))
               eq_refl).
Defined.


(** C7, as stated: with the last matching set winning, a text that matches
    both the first and the last set would be calm; the scorer calls it
    joyful. *)
Lemma fallback_emotion_not_last_match :
  ~ (forall (list_of_set : list string -> list string) (text : string),
        exists q,
          sentiment (fallback_sentiment_analysis list_of_set text) = Fin q
          /\ emotion (fallback_sentiment_analysis list_of_set text)
             = last_match_wins (spec_threshold q) (lower text)).
Proof.
  intros H.
  destruct (H (fun l => l) "I am happy and calm") as (q & _ & E).
  vm_compute in E. discriminate E.
Qed.

End FallbackFacts.

(* ================================================================== *)
(** * The fallback scorer: keywords *)
(* ================================================================== *)

Module KeywordFacts.
Import Py Spec Aux PyFacts Re Fallback WordFacts RankFacts.

Lemma significant_words_eq (t : string) :
  significant_words t = filter not_stop (alphabetic_words t).
Proof. unfold significant_words. now rewrite words_alphabetic_words. Qed.

Lemma sorted_desc_nil (c : counter) : sorted_desc c = [] -> c = [].
Proof.
  intros E. apply Permutation_nil. rewrite <- E. apply sorted_desc_perm.
Qed.

Lemma most_common_nil (c : counter) : most_common 5 c = [] -> c = [].
Proof.
  unfold most_common. intros E. apply sorted_desc_nil.
  destruct (sorted_desc c); [reflexivity | discriminate].
Qed.

Lemma top_nil (l : list string) : top 5 l = [] <-> l = [].
Proof.
  split; [|now intros ->].
  unfold top. intros E. apply Counter_nil, most_common_nil.
  destruct (most_common 5 (Counter l)); [reflexivity | discriminate].
Qed.

Lemma top_firstn (n : nat) (l : list string) :
  top n l = firstn n (map fst (sorted_desc (Counter l))).
Proof. unfold top, most_common. now rewrite firstn_map. Qed.


Section Scorer.
Variable list_of_set : list string -> list string.

Local Abbreviation fallback := (fallback_sentiment_analysis list_of_set).

(** The branch that enumerates a set is never taken: the ranked list is
    empty only when there is no significant word. *)
Lemma extract_keywords_top (t : string) :
  extract_keywords list_of_set t = top 5 (significant_words t).
Proof.
  unfold extract_keywords. cbv zeta.
  change (map fst (most_common 5 (Counter (significant_words t))))
    with (top 5 (significant_words t)).
  destruct (top 5 (significant_words t)) eqn:E; [|reflexivity].
  apply (proj1 (top_nil _)) in E. now rewrite E.
Qed.

Lemma fallback_keywords (text : string) :
  keywords (fallback text) = top 5 (significant_words (lower text)).
Proof.
  unfold fallback_sentiment_analysis; cbn [keywords].
  rewrite extract_keywords_top, top_firstn. apply firstn_firstn.
Qed.




(** C9, as the code has it.  The keyword list is empty exactly when no
    significant word is left after the stop words are removed, whether or
    not the text held words before; the keywords never come from the
    enumeration of a set. *)
Theorem fallback_keywords_empty (text : string) :
  (keywords (fallback text) = [] <-> significant_words (lower text) = [])
  /\ extract_keywords list_of_set (lower text)
     = map fst (most_common 5 (Counter (significant_words (lower text)))).
Proof.
  split; [|apply extract_keywords_top].
  rewrite fallback_keywords. apply top_nil.
Qed.

End Scorer.



(** C9, as stated: a text of stop words only has words before the filter
    and none after it, and its keyword list is empty. *)
Lemma fallback_keywords_stop_words_only :
  ~ (forall (list_of_set : list string -> list string) (text : string),
        words (lower text) <> [] ->
        significant_words (lower text) = [] ->
        keywords (fallback_sentiment_analysis list_of_set text) <> []).
Proof.
  intros H.
  apply (H first_seen "The and were"); [discriminate | reflexivity | reflexivity].
Qed.

End KeywordFacts.

(* ================================================================== *)
(** * The text endpoints *)
(* ================================================================== *)

Module ApiFacts.
Import Py Spec Aux PyFacts Re ReFacts Fallback FallbackFacts WordFacts RankFacts
       KeywordFacts Api Samples.

(** ** Whitespace-only text *)

Lemma contains_blank (w s : string) :
  starts_nonblank w = true -> blank s -> contains w s = false.
Proof.
  destruct w as [|c w]; [discriminate|]. cbn [starts_nonblank].
  intros H. apply negb_true_iff in H. now apply contains_spaces.
Qed.

Lemma any_in_blank (ws : list string) (s : string) :
  forallb starts_nonblank ws = true -> blank s -> any_in ws s = false.
Proof.
  intros Hws Hs. unfold any_in. induction ws as [|w ws IH]; [reflexivity|].
  cbn [forallb existsb] in *. apply andb_true_iff in Hws as [Hw Hws].
  now rewrite (contains_blank w s Hw Hs), IH.
Qed.

Lemma weighted_blank (k : Z) (ws : list string) (s : string) :
  forallb starts_nonblank ws = true -> blank s -> weighted k ws s = 0%Z.
Proof.
  intros Hws Hs. induction ws as [|w ws IH]; [reflexivity|].
  cbn [forallb] in Hws. apply andb_true_iff in Hws as [Hw Hws].
  now rewrite weighted_cons, (contains_blank w s Hw Hs), IH.
Qed.

Lemma runs_blank (fuel : nat) (s : string) :
  blank s -> runs_from is_word fuel s = [].
Proof.
  revert s; induction fuel as [|fuel IH]; intros s H; [reflexivity|].
  destruct s as [|c s]; [reflexivity|].
  unfold blank in H. cbn [all_chars] in H. apply andb_true_iff in H as [Hc H].
  cbn [runs_from]. rewrite (space_not_word c Hc). now apply IH.
Qed.

Section Blank.
Variable list_of_set : list string -> list string.

(** On whitespace-only text the scorer finds nothing. *)
Lemma fallback_blank (text : string) :
  blank text ->
  fallback_sentiment_analysis list_of_set text
  = {| sentiment := Fin (1#2); keywords := []; emotion := "neutral" |}.
Proof.
  intros B.
  assert (L : lower text = text) by now apply lower_spaces.
  assert (T : total_score text = 0%Z).
  { rewrite total_score_sum. unfold positive_score, negative_score.
    now rewrite !weighted_blank. }
  assert (S : raw_sentiment text = 1#2).
  { rewrite raw_sentiment_eq, L, T. cbn [Z.gtb Z.compare].
    unfold punctuation_bias. now rewrite !count_spaces. }
  assert (K : keywords (fallback_sentiment_analysis list_of_set text) = []).
  { rewrite fallback_keywords, L, significant_words_eq.
    unfold alphabetic_words, runs. now rewrite runs_blank. }
  assert (E : emotion (fallback_sentiment_analysis list_of_set text) = "neutral").
  { rewrite fallback_emotion, S, L. unfold refine_emotion.
    now rewrite !any_in_blank. }
  pose proof (fallback_sentiment list_of_set text) as Hs. rewrite S in Hs.
  destruct (fallback_sentiment_analysis list_of_set text) as [s k e].
  cbn [sentiment keywords emotion] in *. now subst.
Qed.

End Blank.

(** ** The captured emotion is never empty *)

Lemma derives_cat_inv r1 r2 prev s caps prev' s' caps' :
  derives (Cat r1 r2) prev s caps prev' s' caps' ->
  exists prev1 s1 caps1,
    derives r1 prev s caps prev1 s1 caps1
    /\ derives r2 prev1 s1 caps1 prev' s' caps'.
Proof. intros D; inversion D; subst; eauto. Qed.

(** A pattern whose pieces before and after its one group hold no group. *)
Lemma derives_around_group (before : list regex) (g after : regex)
      prev s prev' s' caps' :
  forallb groupless before = true -> groupless g = true ->
  consumes g = true -> groupless after = true ->
  derives (Cats (before ++ [Group g; after])) prev s [] prev' s' caps' ->
  exists w, caps' = [w] /\ w <> ""%string.
Proof.
  intros Hb Hg Hc Ha. revert prev s.
  induction before as [|r before IH]; intros prev s D.
  - cbn [app Cats fold_right] in D.
    apply derives_cat_inv in D as (p1 & s1 & c1 & D1 & D2).
    apply derives_group_nonempty in D1 as (w & -> & Hw); auto.
    apply derives_groupless in D2; [|cbn [groupless]; now rewrite Ha].
    exists w. now subst.
  - cbn [forallb] in Hb. apply andb_true_iff in Hb as [Hr Hb].
    cbn [app Cats fold_right] in D.
    apply derives_cat_inv in D as (p1 & s1 & c1 & D1 & D2).
    apply derives_groupless in D1; [|exact Hr]. subst c1.
    eapply IH; eauto.
Qed.

Lemma emotion_match_nonempty (response : string) (m : rmatch) :
  search emotion_re response = Some m -> group1 m <> ""%string.
Proof.
  intros H. apply search_from_sound in H as (prev0 & s0 & H).
  apply match_at_sound in H as [D _].
  change emotion_re
    with (Cats ([Lit (quoted "emotion"); Star (Chr is_space); Lit ":";
                 Star (Chr is_space); Lit dq]
                ++ [Group (Cat (Chr not_quote) (Star (Chr not_quote))); Lit dq]))
    in D.
  apply derives_around_group in D as (w & E & Hw); try reflexivity.
  unfold group1. now rewrite E.
Qed.

(** ** The stages of the primary path *)

Lemma validate_list_length (L : library) (items : list json) (ss : list string) :
  validate_list L items = Return ss -> List.length ss = List.length items.
Proof.
  revert ss; induction items as [|v items IH]; intros ss H; cbn [validate_list] in H.
  - now injection H as <-.
  - destruct (validate_str L v); [|discriminate].
    destruct (validate_list L items) as [ss'|]; [|discriminate].
    injection H as <-. cbn [List.length]. now rewrite (IH ss' eq_refl).
Qed.

Lemma normalise_response (L : library) (v : json) (r : SentimentResponse) :
  normalise L v = Return r ->
  in_unit (sentiment r) /\ (List.length (keywords r) <= 5)%nat
  /\ exists items, v = JDict items /\ emotion r = emotion_of items.
Proof.
  unfold normalise, get. intros H.
  destruct v as [| | | | | |items]; try discriminate.
  destruct (float_of L _) as [f|]; [|discriminate].
  destruct (validate_list L _) as [ks|] eqn:V; [|discriminate].
  injection H as <-. cbn [sentiment keywords emotion].
  split; [apply clamp01_in_unit|]. split.
  - rewrite (validate_list_length _ _ _ V). apply firstn_le_length.
  - exists items. split; reflexivity.
Qed.

Lemma dict_get_in (key : string) (items : list (string * json)) (default v : json) :
  dict_get key items default = v -> v <> default -> In (key, v) items.
Proof.
  induction items as [|[k u] items IH]; cbn [dict_get]; [congruence|].
  destruct (String.eqb_spec k key) as [->|_].
  - intros -> _. now left.
  - intros H N. right. now apply IH.
Qed.

Lemma emotion_of_empty (items : list (string * json)) :
  emotion_of items = ""%string -> In ("emotion", JStr "") items.
Proof.
  unfold emotion_of. intros H.
  destruct (dict_get "emotion" items (JStr "neutral")) eqn:E; try discriminate.
  subst. apply (dict_get_in _ _ _ _ E). discriminate.
Qed.

Lemma repair_sources (L : library) (response : string) (v : json) :
  repair L response = Return v ->
  loaded_from L response v
  \/ (search json_pattern response = None /\ extract_fields L response = Return v).
Proof.
  unfold repair, loaded_from. intros H.
  destruct (search json_pattern response) as [m|] eqn:S.
  - left. destruct (json_loads L (group0 m)) as [u|e] eqn:E1.
    + injection H as <-. exists (group0 m). split; [right; eauto | exact E1].
    + destruct e; try discriminate. exists response. split; [now left | exact H].
  - destruct (json_loads L response) as [u|e] eqn:E1.
    + left. injection H as <-. exists response. split; [now left | exact E1].
    + destruct e; try discriminate. right. now split.
Qed.

Lemma extract_fields_emotion (L : library) (response : string) (v : json) :
  extract_fields L response = Return v ->
  exists items, v = JDict items /\ emotion_of items <> ""%string.
Proof.
  unfold extract_fields. intros H.
  destruct (match search sentiment_re response with
            | Some m => float_of_str L (group1 m)
            | None => Return (Fin (1#2))
            end) as [f|]; [|discriminate].
  injection H as <-. eexists; split; [reflexivity|].
  unfold emotion_of. cbn [dict_get String.eqb Ascii.eqb Bool.eqb].
  destruct (search emotion_re response) as [m|] eqn:E.
  - now apply emotion_match_nonempty in E.
  - discriminate.
Qed.

Lemma refine_emotion_nonempty (e t : string) :
  e <> ""%string -> refine_emotion e t <> ""%string.
Proof.
  intros He. unfold refine_emotion.
  repeat match goal with
         | |- context [any_in ?ws t] => destruct (any_in ws t); [discriminate|]
         end.
  exact He.
Qed.

Lemma threshold_emotion_nonempty (f : pyfloat) : threshold_emotion f <> ""%string.
Proof.
  unfold threshold_emotion.
  destruct (flt _ _); [discriminate|]. destruct (flt _ _); discriminate.
Qed.

Section Endpoints.
Variable list_of_set : list string -> list string.
Variable env : environment.

Local Abbreviation fallback := (fallback_sentiment_analysis list_of_set).
Local Abbreviation digest := (Aux.digest env).
Local Abbreviation after_check := (Aux.after_check list_of_set env).

(** The scorer's response keeps the three bounds. *)
Lemma fallback_response (text : string) :
  in_unit (sentiment (fallback text))
  /\ (List.length (keywords (fallback text)) <= 5)%nat
  /\ emotion (fallback text) <> ""%string.
Proof.
  split; [apply clamp01_in_unit|]. split; [apply firstn_le_length|].
  apply refine_emotion_nonempty, threshold_emotion_nonempty.
Qed.

Lemma use_fallback_eq (text : string) (st : state) :
  use_fallback list_of_set text st
  = (Ok (fallback text), logged (FallbackRun text) st).
Proof. reflexivity. Qed.

Lemma analyse_eq (text : string) (st : state) :
  analyse list_of_set env text st
  = let st1 := logged (OpenAICall (prompt_for text)) st in
    match call_openai env (prompt_for text) with
    | TimedOut | Failed _ =>
        (Ok (fallback text), logged (FallbackRun text) st1)
    | Replied None | Replied (Some EmptyString) =>
        (HTTPException 500 "No response from OpenAI API", st1)
    | Replied (Some response) => (digest response, st1)
    end.
Proof.
  unfold analyse, bind, log. cbv zeta. fold (logged (OpenAICall (prompt_for text)) st).
  destruct (call_openai env (prompt_for text)) as [|msg|[[|c response]|]];
    try reflexivity.
  - destruct (_ || _); reflexivity.
  - unfold Aux.digest, lift.
    destruct (repair (lib env) (String c response)); [|reflexivity].
    destruct (normalise (lib env) a); reflexivity.
Qed.

Lemma nonblank_truthy (text : string) :
  strip text <> ""%string ->
  negb (truthy text) || negb (truthy (strip text)) = false.
Proof.
  intros H. destruct text as [|c text]; [now contradiction H|].
  destruct (strip (String c text)); [now contradiction H | reflexivity].
Qed.

Lemma process_text_after_check (text : string) (st : state) :
  strip text <> ""%string ->
  process_text list_of_set env text st = after_check text st.
Proof.
  intros H. unfold process_text, Aux.after_check, configured.
  rewrite (nonblank_truthy text H).
  unfold bind, try_except, get_openai_client.
  destruct st as [[|] tr]; cbn [openai_client trace orb].
  - destruct (analyse list_of_set env text _) as [[r|code detail|[msg|msg|msg]] st1];
      reflexivity.
  - destruct (OPENAI_API_KEY env) as [[|c k]|]; cbn [truthy]; try reflexivity.
    destruct (analyse list_of_set env text _) as [[r|code detail|[msg|msg|msg]] st1];
      reflexivity.
Qed.

Lemma process_text_blank (text : string) (st : state) :
  strip text = ""%string ->
  process_text list_of_set env text st
  = (HTTPException 400 "Text cannot be empty", st).
Proof.
  intros H. unfold process_text. rewrite H. cbn [truthy negb].
  now rewrite orb_true_r.
Qed.

Lemma handled_digest (response : string) :
  (exists r, handled (digest response) = Ok r /\ digest response = Ok r)
  \/ exists detail, handled (digest response) = HTTPException 500 detail.
Proof.
  unfold Aux.digest.
  destruct (repair (lib env) response) as [v|[msg|msg|msg]];
    try (right; eexists; reflexivity).
  destruct (normalise (lib env) v) as [r|[msg|msg|msg]];
    try (right; eexists; reflexivity).
  left. exists r. split; reflexivity.
Qed.

(** Past the first check a request ends in a response or in status 500. *)
Lemma after_check_outcome (text : string) (st : state) :
  (exists r, fst (after_check text st) = Ok r)
  \/ exists detail, fst (after_check text st) = HTTPException 500 detail.
Proof.
  unfold Aux.after_check.
  destruct (configured env st); [|right; eexists; reflexivity].
  cbv zeta. rewrite analyse_eq. cbv zeta.
  destruct (call_openai env (prompt_for text)) as [|msg|[[|c response]|]];
    cbn [fst handled]; try (left; eexists; reflexivity);
    try (right; eexists; reflexivity).
  destruct (handled_digest (String c response)) as [(r & H & _)|(detail & H)];
    rewrite H; [left | right]; eexists; reflexivity.
Qed.


(** C10.  [test_fallback] takes whitespace-only text as it comes and
    answers with sentiment 0.5, no keywords and the emotion neutral, where
    [process_text] refuses the same text with status 400. *)
Theorem test_fallback_accepts_blank (text : string) (st : state) :
  strip text = ""%string ->
  test_fallback list_of_set text st
  = (Ok {| sentiment := Fin (1#2); keywords := []; emotion := "neutral" |},
     logged (FallbackRun text) st)
  /\ process_text list_of_set env text st
     = (HTTPException 400 "Text cannot be empty", st).
Proof.
  intros H. split; [|now apply process_text_blank].
  apply strip_empty in H.
  unfold test_fallback, try_except, bind, log, ret. cbv zeta.
  now rewrite (fallback_blank list_of_set text H).
Qed.

(** C1, as the code has it.  A response of [process_text] has its
    sentiment in the unit interval and at most five keywords; its emotion
    is a string that is empty only when the model's reply was parsed as a
    JSON object whose emotion is the empty string. *)
Theorem process_text_response (text : string) (st : state) (r : SentimentResponse) :
  fst (process_text list_of_set env text st) = Ok r ->
  in_unit (sentiment r)
  /\ (List.length (keywords r) <= 5)%nat
  /\ (emotion r = ""%string ->
      exists response items,
        call_openai env (prompt_for text) = Replied (Some response)
        /\ loaded_from (lib env) response (JDict items)
        /\ In ("emotion", JStr "") items).
Proof.
  intros H.
  destruct (string_dec (strip text) "") as [B|B].
  { rewrite (process_text_blank text st B) in H. discriminate. }
  rewrite (process_text_after_check text st B) in H.
  unfold Aux.after_check in H. destruct (configured env st); [|discriminate].
  cbv zeta in H. rewrite analyse_eq in H. cbv zeta in H.
  assert (F : forall o,
             handled o = Ok r -> o = Ok (fallback text) ->
             in_unit (sentiment r) /\ (List.length (keywords r) <= 5)%nat
             /\ (emotion r = ""%string ->
                 exists response items,
                   call_openai env (prompt_for text) = Replied (Some response)
                   /\ loaded_from (lib env) response (JDict items)
                   /\ In ("emotion", JStr "") items)).
  { intros o Ho ->. injection Ho as <-.
    destruct (fallback_response text) as (S & K & E).
    repeat split; auto. intros E'. contradiction. }
  destruct (call_openai env (prompt_for text)) as [|msg|[[|c response]|]] eqn:Call;
    cbn [fst] in H; try (eapply F; eauto; fail); try discriminate.
  destruct (handled_digest (String c response)) as [(r' & Hr & D)|(d & Hd)];
    [|rewrite Hd in H; discriminate].
  rewrite Hr in H. injection H as ->.
  unfold Aux.digest in D.
  destruct (repair (lib env) (String c response)) as [v|] eqn:R; [|discriminate].
  destruct (normalise (lib env) v) as [r'|] eqn:N; [|discriminate].
  injection D as ->.
  destruct (normalise_response _ _ _ N) as (S & K & items & -> & E).
  repeat split; auto. intros Hempty. rewrite E in Hempty.
  exists (String c response), items. split; [reflexivity|].
  split; [|now apply emotion_of_empty].
  destruct (repair_sources _ _ _ R) as [L|[_ X]]; [exact L|].
  apply extract_fields_emotion in X as (items' & Ei & Hne).
  injection Ei as <-. contradiction.
Qed.

(** C2, what the code does.  When the pattern finds a candidate and
    [json.loads] rejects both the candidate and the whole reply, the repair
    ends in the second [JSONDecodeError]: the fields are not searched for,
    and [process_text] answers with status 500. *)
Theorem repair_skips_field_extraction
        (text : string) (st : state) (c : ascii) (response : string)
        (m : rmatch) (msg0 msg : string) :
  strip text <> ""%string ->
  configured env st = true ->
  call_openai env (prompt_for text) = Replied (Some (String c response)) ->
  search json_pattern (String c response) = Some m ->
  json_loads (lib env) (group0 m) = Raise (JSONDecodeError msg0) ->
  json_loads (lib env) (String c response) = Raise (JSONDecodeError msg) ->
  repair (lib env) (String c response) = Raise (JSONDecodeError msg)
  /\ fst (process_text list_of_set env text st)
     = HTTPException 500 ("Failed to parse OpenAI response: " ++ msg).
Proof.
  intros B Hc Call S L0 L1.
  assert (R : repair (lib env) (String c response) = Raise (JSONDecodeError msg))
    by (unfold repair; now rewrite S, L0, L1).
  split; [exact R|].
  rewrite (process_text_after_check text st B). unfold Aux.after_check.
  rewrite Hc. cbv zeta. rewrite analyse_eq. cbv zeta.
  rewrite Call. cbn [fst]. unfold Aux.digest. now rewrite R.
Qed.

End Endpoints.

(** The sibling branch: without a candidate, a rejected reply goes to the
    field extraction. *)
Lemma repair_reaches_field_extraction (L : library) (response msg : string) :
  search json_pattern response = None ->
  json_loads L response = Raise (JSONDecodeError msg) ->
  repair L response = extract_fields L response.
Proof. intros S E. unfold repair. now rewrite S, E. Qed.


Lemma test_fallback_accepts_blank_witness :
  test_fallback first_seen "   " fresh
  = (Ok {| sentiment := Fin (1#2); keywords := []; emotion := "neutral" |},
     logged (FallbackRun "   ") fresh)
  /\ process_text first_seen (env_with lib_unquoted TimedOut) "   " fresh
     = (HTTPException 400 "Text cannot be empty", fresh).
Proof.
  exact (test_fallback_accepts_blank
           first_seen (env_with lib_unquoted TimedOut) "   " fresh eq_refl).
Defined.

Lemma process_text_response_witness :
  in_unit (Fin (6#8))
  /\ (List.length ["happy"] <= 5)%nat
  /\ ("joyful" = ""%string ->
      exists response items,
        call_openai (env_with lib_unquoted TimedOut) (prompt_for "I am happy")
        = Replied (Some response)
        /\ loaded_from lib_unquoted response (JDict items)
        /\ In ("emotion", JStr "") items).
Proof.
  exact (process_text_response
           first_seen (env_with lib_unquoted TimedOut) "I am happy" fresh
           {| sentiment := Fin (6#8); keywords := ["happy"]; emotion := "joyful" |}
           eq_refl).
Defined.

(** C1, as stated: a reply that is a JSON object with an empty emotion is
    answered with that empty emotion. *)
Lemma process_text_empty_emotion :
  ~ (forall (list_of_set : list string -> list string) (env : environment)
            (text : string) (st : state) (r : SentimentResponse),
        fst (process_text list_of_set env text st) = Ok r ->
        in_unit (sentiment r)
        /\ (List.length (keywords r) <= 5)%nat
        /\ emotion r <> ""%string).
Proof.
  intros H.
  destruct (H first_seen
              (env_with lib_empty_emotion (Replied (Some reply_empty_emotion)))
              "How was your day" fresh
              {| sentiment := Fin (1#2); keywords := []; emotion := "" |})
    as (_ & _ & E).
  - vm_compute. reflexivity.
  - apply E. reflexivity.
Qed.

Lemma repair_skips_field_extraction_witness :
  repair lib_unquoted reply_unquoted
  = Raise (JSONDecodeError "Expecting value: line 1 column 33 (char 32)")
  /\ fst (process_text first_seen
                       (env_with lib_unquoted (Replied (Some reply_unquoted)))
                       "Sunny walk today" fresh)
     = HTTPException 500
         "Failed to parse OpenAI response: Expecting value: line 1 column 33 (char 32)".
Proof.
  refine (repair_skips_field_extraction
            first_seen (env_with lib_unquoted (Replied (Some reply_unquoted)))
            "Sunny walk today" fresh
            "{" _
            {| m_text := reply_unquoted; m_groups := [];
               m_prev := Some "}"%char; m_rest := "" |}
            _ _ _ eq_refl eq_refl _ eq_refl eq_refl).
  - discriminate.
  - vm_compute. reflexivity.
Defined.

(** The fields the last resort would have found in that reply. *)
Lemma extract_fields_unquoted :
  extract_fields lib_unquoted reply_unquoted
  = Return (JDict [("sentiment", JFloat (Fin (9#10)));
                   ("keywords", JList []);
                   ("emotion", JStr "joyful")]).
Proof. vm_compute. reflexivity. Qed.

End ApiFacts.

(* ================================================================== *)
(** * The relay's entry guard *)
(* ================================================================== *)

Module RelayFacts.
Import Py PyFacts Relay.

Lemma strip_of_empty_short (k : string) :
  truthy k = false -> (String.length (strip k) < 20)%nat.
Proof. destruct k; [cbn; lia | discriminate]. Qed.

(** C3.  With the secret unset, or shorter than 20 characters after
    trimming, the handler accepts the client, sends it one message, which
    is an error frame, closes the connection, and does nothing else: no
    connection to the vendor is opened and nothing is sent to it. *)
Theorem relay_rejects_missing_secret
        (DEEPGRAM_API_KEY : option string)
        (connect : string -> string -> connect_outcome) :
  secret_missing DEEPGRAM_API_KEY ->
  let actions := websocket_deepgram_proxy DEEPGRAM_API_KEY connect in
  (exists message,
      actions = [Accept; SendText (error_frame message); Close]
      /\ filter is_send actions = [SendText (error_frame message)])
  /\ List.length (filter is_error_frame actions) = 1%nat
  /\ last actions Accept = Close
  /\ filter touches_vendor actions = [].
Proof.
  intros H actions.
  assert (E : exists message,
             actions = [Accept; SendText (error_frame message); Close]).
  { unfold actions, websocket_deepgram_proxy.
    destruct DEEPGRAM_API_KEY as [k|]; [|eexists; reflexivity].
    destruct (truthy k) eqn:T; cbn [negb]; [|eexists; reflexivity].
    cbn [secret_missing] in H. apply Nat.ltb_lt in H.
    rewrite H, orb_true_r. eexists; reflexivity. }
  destruct E as [message ->].
  split; [exists message; split; reflexivity|].
  repeat split.
Qed.

(** With a secret of 20 characters or more the vendor connection is
    attempted, with the trimmed secret in the authorization header. *)
Lemma relay_connects_with_secret
      (k : string) (connect : string -> string -> connect_outcome) :
  ~ secret_missing (Some k) ->
  exists rest,
    websocket_deepgram_proxy (Some k) connect
    = Accept :: Connect deepgram_url ("Token " ++ strip k) :: rest.
Proof.
  cbn [secret_missing]. intros H.
  assert (L : (String.length (strip k) <? 20)%nat = false)
    by (apply Nat.ltb_ge; lia).
  assert (T : truthy (strip k) = true)
    by (destruct (strip k); [cbn in H; lia | reflexivity]).
  assert (T' : truthy k = true)
    by (destruct k; [cbn in H; lia | reflexivity]).
  unfold websocket_deepgram_proxy. rewrite T'. cbn [negb].
  rewrite T, L. cbn [negb orb]. eexists; reflexivity.
Qed.

Lemma relay_rejects_missing_secret_witness :
  (exists message,
      websocket_deepgram_proxy (Some "  dg-key  ") (fun _ _ => Connected [])
      = [Accept; SendText (error_frame message); Close]
      /\ filter is_send
                (websocket_deepgram_proxy (Some "  dg-key  ")
                                          (fun _ _ => Connected []))
         = [SendText (error_frame message)])
  /\ List.length
       (filter is_error_frame
               (websocket_deepgram_proxy (Some "  dg-key  ")
                                         (fun _ _ => Connected [])))
     = 1%nat
  /\ last (websocket_deepgram_proxy (Some "  dg-key  ") (fun _ _ => Connected []))
          Accept
     = Close
  /\ filter touches_vendor
            (websocket_deepgram_proxy (Some "  dg-key  ")
                                      (fun _ _ => Connected []))
     = [].
Proof.
  apply (relay_rejects_missing_secret (Some "  dg-key  ")
                                      (fun _ _ => Connected [])).
  vm_compute. lia.
Defined.

End RelayFacts.

(* ================================================================== *)
(** * Doubles and rationals decide alike *)
(* ================================================================== *)

Module Binary64Facts.
Import Py Fallback FallbackFacts Binary64.

Lemma grid_checked : grid_agrees = true /\ constants_agree = true.
Proof. split; vm_compute; reflexivity. Qed.

Lemma agree_in_range (p n : Z) :
  (0 <= p <= 28)%Z -> (0 <= n <= 28)%Z -> (0 < p + n)%Z -> agree p n = true.
Proof.
  intros Hp Hn Ht.
  pose proof (proj1 grid_checked) as G. unfold grid_agrees in G.
  rewrite forallb_forall in G.
  specialize (G (Z.to_nat p)). rewrite forallb_forall in G.
  assert (Ip : In (Z.to_nat p) (seq 0 29)) by (apply in_seq; lia).
  assert (In_ : In (Z.to_nat n) (seq 0 29)) by (apply in_seq; lia).
  specialize (G Ip (Z.to_nat n) In_).
  rewrite !Z2Nat.id in G by lia.
  apply orb_true_iff in G as [G|G]; [|exact G].
  apply Nat.eqb_eq in G. lia.
Qed.

(** For every text with a sentiment word, evaluating the blend on doubles
    leads the scorer through the same comparisons as the rationals do: the
    clamp keeps the value and the thresholds pick the same label. *)
Lemma blend_decides_alike (text : string) :
  (0 < total_score (lower text))%Z ->
  let p := fst (scores (lower text)) in
  let n := snd (scores (lower text)) in
  decisions64 (blend64 p n) = decisions (blend p n).
Proof.
  intros Ht p n.
  pose proof (positive_score_bounds (lower text)) as Bp.
  pose proof (negative_score_bounds (lower text)) as Bn.
  assert (A : agree p n = true).
  { apply agree_in_range; unfold p, n, total_score, scores in *;
      destruct (has_negation (lower text)); simpl in *; lia. }
  unfold agree, same_decisions in A.
  now destruct (list_eq_dec bool_dec _ _).
Qed.

End Binary64Facts.

(* ================================================================== *)
(** * The relay's forwarding loops *)
(* ================================================================== *)

Module RelayLoopFacts.
Import Py PyFacts Relay RelayFacts RelayLoops.

(** ** Lists *)

Lemma sublist_nil {A} (l : list A) : sublist [] l.
Proof. induction l; constructor; assumption. Qed.

Lemma sublist_refl {A} (l : list A) : sublist l l.
Proof. induction l; constructor; assumption. Qed.

Lemma sublist_app {A} (a b c d : list A) :
  sublist a b -> sublist c d -> sublist (a ++ c) (b ++ d).
Proof.
  induction 1; intros S; cbn; [assumption | apply sl_skip | apply sl_keep]; auto.
Qed.

Lemma interleaving_filter {A} (p : A -> bool) (l1 l2 l : list A) :
  interleaving l1 l2 l ->
  interleaving (filter p l1) (filter p l2) (filter p l).
Proof.
  induction 1; cbn; [constructor| |]; destruct (p x); try constructor; assumption.
Qed.

Lemma interleaving_nil_l {A} (l1 l2 l : list A) :
  interleaving l1 l2 l -> l1 = [] -> l = l2.
Proof. induction 1; intros E; [reflexivity | discriminate | f_equal; auto]. Qed.

Lemma interleaving_nil_r {A} (l1 l2 l : list A) :
  interleaving l1 l2 l -> l2 = [] -> l = l1.
Proof. induction 1; intros E; [reflexivity | f_equal; auto | discriminate]. Qed.

Lemma filter_map_action (p : action -> bool) (q : effect -> bool) (l : list effect) :
  (forall e, p (to_action e) = q e) ->
  filter p (map to_action l) = map to_action (filter q l).
Proof.
  intros H. induction l as [|e l IH]; cbn; [reflexivity|].
  rewrite H. destruct (q e); cbn; now rewrite IH.
Qed.

(** ** One iteration *)

Ltac turn_cases t :=
  destruct t as [[[ty [[b|]|] [[x|]|]]| |msg|] [|code reason|msg'|] c];
  cbn -[String.eqb];
  unfold on_runtime_error;
  repeat match goal with
         | |- context [if ?b then _ else _] => destruct b eqn:?
         | |- context [match ?o with Some _ => _ | None => _ end] => destruct o eqn:?
         end; cbn.

Lemma body_sublist (t : turn) (n : nat) :
  sublist (filter to_vendor (fst (fst (loop_body t n)))) (offered t).
Proof. turn_cases t; first [apply sublist_refl | apply sublist_nil]. Qed.

Lemma body_count (t : turn) (n : nat) :
  snd (fst (loop_body t n))
  = (n + List.length (filter is_chunk (fst (fst (loop_body t n)))))%nat.
Proof. turn_cases t; lia. Qed.

Lemma body_forwarded (t : turn) (n : nat) :
  forwarded t = true ->
  fst (fst (loop_body t n)) = offered t /\ snd (loop_body t n) = Next.
Proof. turn_cases t; intros; try discriminate; split; reflexivity. Qed.

Lemma body_ignored (t : turn) (n : nat) :
  ignored t = true -> loop_body t n = ([], n, Next).
Proof. turn_cases t; intros; try discriminate; reflexivity. Qed.

(** What an iteration sends to the client: nothing, or the one message
    about the lost vendor connection, on leaving. *)
Lemma body_client (t : turn) (n : nat) :
  filter to_vendor (fst (fst (loop_body t n))) = fst (fst (loop_body t n))
  \/ exists code reason,
      fst (fst (loop_body t n))
      = [ToClientError ("Deepgram connection lost: " ++ reason_or_unknown reason
                        ++ " (code: " ++ code ++ ")")]
      /\ snd (loop_body t n) = Break.
Proof.
  turn_cases t; auto; right; eexists _, _; split; reflexivity.
Qed.

(** ** The loop *)

Lemma loop_sublist (turns : list turn) (n : nat) :
  sublist (filter to_vendor (effects (loop turns n))) (flat_map offered turns).
Proof.
  revert n; induction turns as [|t turns IH]; intros n; [constructor|].
  cbn [loop flat_map]. pose proof (body_sublist t n) as B.
  destruct (loop_body t n) as [[es n'] [| |msg]]; cbn [fst snd effects] in *.
  - rewrite filter_app. apply sublist_app; auto.
  - rewrite <- (app_nil_r (filter _ _)). apply sublist_app; [auto | apply sublist_nil].
  - rewrite <- (app_nil_r (filter _ _)). apply sublist_app; [auto | apply sublist_nil].
Qed.

Lemma loop_count (turns : list turn) (n : nat) :
  chunk_count (loop turns n)
  = (n + List.length (filter is_chunk (effects (loop turns n))))%nat.
Proof.
  revert n; induction turns as [|t turns IH]; intros n; [cbn; lia|].
  cbn [loop]. pose proof (body_count t n) as B.
  destruct (loop_body t n) as [[es n'] [| |msg]];
    cbn [fst snd effects chunk_count] in *; try assumption.
  rewrite IH, filter_app, length_app. lia.
Qed.

Lemma loop_forwarded (turns : list turn) (n : nat) :
  forallb forwarded turns = true ->
  effects (loop turns n) = flat_map offered turns
  /\ ended (loop turns n) = Waiting.
Proof.
  revert n; induction turns as [|t turns IH]; intros n; [now split|].
  cbn [forallb loop flat_map]. intros H. apply andb_true_iff in H as [Ht H].
  destruct (body_forwarded t n Ht) as [E F].
  destruct (loop_body t n) as [[es n'] flow]; cbn [fst snd] in *. subst.
  cbn [effects ended]. destruct (IH n' H) as [-> ->]. now split.
Qed.

Lemma loop_stopped (turns more : list turn) (n : nat) :
  ended (loop turns n) <> Waiting ->
  loop (turns ++ more) n = loop turns n.
Proof.
  revert n; induction turns as [|t turns IH]; intros n; [cbn; congruence|].
  cbn [loop app].
  destruct (loop_body t n) as [[es n'] [| |msg]]; cbn [ended]; try reflexivity.
  intros H. now rewrite (IH n' H).
Qed.

Lemma loop_ignored (turns : list turn) (n : nat) :
  loop (filter (fun t => negb (ignored t)) turns) n = loop turns n.
Proof.
  revert n; induction turns as [|t turns IH]; intros n; [reflexivity|].
  cbn [filter]. destruct (ignored t) eqn:I; cbn [negb].
  - cbn [loop]. rewrite (body_ignored t n I). rewrite IH.
    now destruct (loop turns n).
  - cbn [loop]. destruct (loop_body t n) as [[es n'] [| |msg]]; try reflexivity.
    now rewrite IH.
Qed.

Lemma loop_client (turns : list turn) (n : nat) :
  filter to_vendor (effects (loop turns n)) = effects (loop turns n)
  \/ exists before code reason,
      effects (loop turns n)
      = before ++ [ToClientError ("Deepgram connection lost: "
                                  ++ reason_or_unknown reason
                                  ++ " (code: " ++ code ++ ")")]
      /\ filter to_vendor before = before
      /\ ended (loop turns n) = Broke.
Proof.
  revert n; induction turns as [|t turns IH]; intros n; [now left|].
  cbn [loop]. pose proof (body_client t n) as B.
  destruct (loop_body t n) as [[es n'] [| |msg]]; cbn [fst snd effects ended] in *.
  - destruct B as [B|(code & reason & _ & B)]; [|discriminate].
    destruct (IH n') as [E|(before & code & reason & E & F & G)].
    + left. now rewrite filter_app, B, E.
    + right. exists (es ++ before), code, reason. rewrite E, app_assoc.
      split; [reflexivity|]. split; [|assumption].
      now rewrite filter_app, B, F.
  - destruct B as [B|(code & reason & B & _)]; [now left|].
    right. exists [], code, reason. now rewrite B.
  - destruct B as [B|(code & reason & _ & B)]; [now left | discriminate].
Qed.

Lemma loop_passes_nothing_on (turns : list turn) (n : nat) :
  filter passed_on (effects (loop turns n)) = [].
Proof.
  assert (V : forall l, filter to_vendor l = l -> filter passed_on l = []).
  { induction l as [|e l IH]; [reflexivity|]. cbn.
    destruct e; cbn; intros H;
      try (injection H as H; auto);
      exfalso;
      (assert (L : (List.length (filter to_vendor l) <= List.length l)%nat)
        by apply filter_length_le);
      rewrite H in L; cbn in L; lia. }
  destruct (loop_client turns n) as [E|(before & code & reason & E & F & _)].
  - auto.
  - rewrite E, filter_app, (V _ F). reflexivity.
Qed.

(** ** The loop from the vendor *)

Lemma from_deepgram_no_vendor messages ending notified :
  filter to_vendor (forward_from_deepgram messages ending notified) = [].
Proof.
  unfold forward_from_deepgram. rewrite filter_app.
  assert (E : filter to_vendor
                     (flat_map (fun m => deliver (fst m) (snd m)) messages) = []).
  { induction messages as [|[m d] ms IH]; [reflexivity|].
    cbn [flat_map]. rewrite filter_app, IH.
    destruct m, d; reflexivity. }
  rewrite E. destruct ending, notified; reflexivity.
Qed.

Lemma from_deepgram_passed_on messages ending notified :
  filter passed_on (forward_from_deepgram messages ending notified)
  = flat_map (fun m => deliver (fst m) (snd m)) messages.
Proof.
  unfold forward_from_deepgram. rewrite filter_app.
  assert (E : forall l : list (vendor_message * bool),
             filter passed_on (flat_map (fun m => deliver (fst m) (snd m)) l)
             = flat_map (fun m => deliver (fst m) (snd m)) l).
  { induction l as [|[m d] ms IH]; [reflexivity|].
    cbn [flat_map]. rewrite filter_app, IH.
    destruct m, d; reflexivity. }
  rewrite E. destruct ending, notified; cbn; now rewrite app_nil_r.
Qed.

(** ** The handler around the loops *)

Lemma proxy_connects (k : string) (connect : string -> string -> connect_outcome) :
  (20 <= String.length (strip k))%nat ->
  websocket_deepgram_proxy (Some k) connect
  = Accept :: Connect deepgram_url ("Token " ++ strip k)
      :: match connect deepgram_url ("Token " ++ strip k)%string with
         | Connected relayed => relayed ++ [Close]
         | InvalidStatusCode status_code =>
             [SendText (error_frame
                          ("Deepgram connection failed: HTTP " ++ status_code
                           ++ ". Check API key and URL format."));
              Close]
         | ConnectError msg =>
             [SendText (error_frame ("WebSocket proxy error: " ++ msg)); Close]
         end.
Proof.
  intros H.
  assert (L : (String.length (strip k) <? 20)%nat = false)
    by (apply Nat.ltb_ge; lia).
  assert (T : truthy (strip k) = true)
    by (destruct (strip k); [cbn in H; lia | reflexivity]).
  assert (T' : truthy k = true)
    by (destruct k; [cbn in H; lia | reflexivity]).
  unfold websocket_deepgram_proxy. rewrite T'. cbn [negb].
  rewrite T, L. reflexivity.
Qed.

Lemma session_eq (k : string) (relayed : list effect) :
  (20 <= String.length (strip k))%nat ->
  session k relayed
  = Accept :: Connect deepgram_url ("Token " ++ strip k)
      :: map to_action relayed ++ [Close].
Proof. intros H. unfold session. now rewrite proxy_connects. Qed.

End RelayLoopFacts.

(* ================================================================== *)
(** * The allowed origins *)
(* ================================================================== *)

Module ConfigFacts.
Import Py PyFacts Config.

(** ** [strip] *)

Lemma lstrip_head (s : string) :
  lstrip s = ""%string
  \/ exists c r, lstrip s = String c r /\ is_space c = false.
Proof.
  induction s as [|c s IH]; [now left|]. cbn.
  destruct (is_space c) eqn:E; [exact IH|]. right. now exists c, s.
Qed.

Lemma rstrip_head (c : ascii) (s : string) :
  is_space c = false -> exists r, rstrip (String c s) = String c r.
Proof.
  intros E. cbn. destruct (rstrip s); [rewrite E|]; eexists; reflexivity.
Qed.

Lemma rstrip_rstrip (s : string) : rstrip (rstrip s) = rstrip s.
Proof.
  induction s as [|c s IH]; [reflexivity|]. cbn.
  destruct (rstrip s) as [|d r] eqn:E.
  - destruct (is_space c) eqn:S; [reflexivity|]. cbn. now rewrite S.
  - change (rstrip (String c (String d r))) with
      (match rstrip (String d r) with
       | EmptyString => if is_space c then EmptyString else String c EmptyString
       | r' => String c r'
       end).
    now rewrite IH.
Qed.

Lemma strip_strip (s : string) : strip (strip s) = strip s.
Proof.
  unfold strip. destruct (lstrip_head s) as [->|(c & r & -> & E)]; [reflexivity|].
  destruct (rstrip_head c r E) as [r' R].
  assert (L : lstrip (rstrip (String c r)) = rstrip (String c r))
    by (rewrite R; cbn; now rewrite E).
  rewrite L. apply rstrip_rstrip.
Qed.

Lemma all_chars_lstrip (p : ascii -> bool) (s : string) :
  all_chars p s = true -> all_chars p (lstrip s) = true.
Proof.
  induction s as [|c s IH]; [reflexivity|]. cbn.
  intros H. apply andb_true_iff in H as [Hc Hs].
  destruct (is_space c); [auto|]. cbn. now rewrite Hc, Hs.
Qed.

Lemma all_chars_rstrip (p : ascii -> bool) (s : string) :
  all_chars p s = true -> all_chars p (rstrip s) = true.
Proof.
  induction s as [|c s IH]; [reflexivity|]. cbn.
  intros H. apply andb_true_iff in H as [Hc Hs]. specialize (IH Hs).
  destruct (rstrip s).
  - destruct (is_space c); [reflexivity|]. cbn. now rewrite Hc.
  - cbn [all_chars] in *. now rewrite Hc, IH.
Qed.

Lemma all_chars_strip (p : ascii -> bool) (s : string) :
  all_chars p s = true -> all_chars p (strip s) = true.
Proof. intros H. now apply all_chars_rstrip, all_chars_lstrip. Qed.

(** ** [split] *)

Local Abbreviation not_sep sep := (fun c => negb (Ascii.eqb c sep)).

Lemma split_pieces (sep : ascii) (s : string) :
  Forall (fun piece => all_chars (not_sep sep) piece = true) (split sep s).
Proof.
  induction s as [|c s IH]; cbn; [repeat constructor|].
  destruct (Ascii.eqb c sep) eqn:E; [now constructor|].
  destruct (split sep s) as [|piece pieces]; [repeat constructor; cbn; now rewrite E|].
  inversion IH; subst. constructor; [|assumption]. cbn. now rewrite E.
Qed.

Lemma split_whole (sep : ascii) (a : string) :
  all_chars (not_sep sep) a = true -> split sep a = [a].
Proof.
  induction a as [|c a IH]; [reflexivity|]. cbn.
  intros H. apply andb_true_iff in H as [Hc Ha].
  apply negb_true_iff in Hc. now rewrite Hc, (IH Ha).
Qed.

Lemma split_app (sep : ascii) (a b : string) :
  all_chars (not_sep sep) a = true ->
  split sep (a ++ String sep b) = a :: split sep b.
Proof.
  induction a as [|c a IH]; cbn.
  - intros _. now rewrite Ascii.eqb_refl.
  - intros H. apply andb_true_iff in H as [Hc Ha].
    apply negb_true_iff in Hc. now rewrite Hc, (IH Ha).
Qed.

Lemma split_join (origin : string) (origins : list string) :
  Forall (fun o => all_chars (not_sep ",") o = true) (origin :: origins) ->
  split "," (join ", " (origin :: origins))
  = origin :: map (String " ") origins.
Proof.
  revert origin; induction origins as [|o os IH]; intros origin H.
  - inversion H; subst. now apply split_whole.
  - inversion H; subst.
    change (join ", " (origin :: o :: os))
      with (origin ++ String "," (String " " (join ", " (o :: os))))%string.
    rewrite split_app by assumption. f_equal.
    change (split "," (String " " (join ", " (o :: os))))
      with (match split "," (join ", " (o :: os)) with
            | piece :: pieces => String " " piece :: pieces
            | [] => [String " " EmptyString]
            end).
    now rewrite IH.
Qed.

(** ** The list of origins *)

Lemma stripped_clean (pieces : list string) :
  Forall (fun piece => all_chars (not_sep ",") piece = true) pieces ->
  Forall clean
         (map strip (filter (fun origin => truthy (strip origin)) pieces)).
Proof.
  induction 1 as [|piece pieces H _ IH]; cbn; [constructor|].
  destruct (truthy (strip piece)) eqn:T; [|assumption].
  cbn. constructor; [|assumption].
  repeat split.
  - intros E. now rewrite E in T.
  - apply strip_strip.
  - now apply all_chars_strip.
Qed.

Lemma allowed_origins_listed (origin : string) (origins : list string) :
  Forall clean (origin :: origins) ->
  allowed_origins (Some "production") (Some (join ", " (origin :: origins)))
  = origin :: origins.
Proof.
  intros H. unfold allowed_origins.
  change (is_production (Some "production")) with true. cbn [getenv].
  rewrite split_join
    by (eapply Forall_impl; [|exact H]; intros o (_ & _ & C); exact C).
  assert (E : forall os, Forall clean os ->
                         map strip (filter (fun o => truthy (strip o))
                                           (map (String " ") os)) = os).
  { induction 1 as [|o os (N & S & _) _ IH]; [reflexivity|]. cbn [map filter].
    assert (S' : strip (String " " o) = o) by (unfold strip in *; cbn; exact S).
    rewrite S'. destruct o; [congruence|]. cbn [truthy map]. now rewrite S', IH. }
  inversion H as [|? ? (N & S & _) H']; subst.
  cbn [filter]. rewrite S. destruct origin; [congruence|].
  cbn [truthy map]. rewrite S, (E _ H'). reflexivity.
Qed.

End ConfigFacts.

(* ================================================================== *)
(** * The call to the model, and the endpoint that tests it *)
(* ================================================================== *)

Module OpenAIFacts.
Import Py Spec PyFacts Fallback Api OpenAI.

(** ** Lower-casing *)

Lemma lower_app (a b : string) : lower (a ++ b) = (lower a ++ lower b)%string.
Proof. induction a as [|c a IH]; cbn; [reflexivity | now rewrite IH]. Qed.

Lemma code_upper_lowered (d : ascii) :
  is_upper d = true -> code (lower_ascii d) = (code d + 32)%nat.
Proof.
  intros U. unfold lower_ascii. rewrite U. unfold code.
  apply nat_ascii_embedding.
  unfold is_upper, between, code in U. apply andb_true_iff in U as [_ U].
  apply Nat.leb_le in U. lia.
Qed.

(** A character below the letters is met in the lower-cased text where it
    is met in the text. *)
Lemma eqb_lower_ascii (c d : ascii) :
  (code c < 65)%nat -> Ascii.eqb c (lower_ascii d) = Ascii.eqb c d.
Proof.
  intros H. destruct (is_upper d) eqn:U.
  - pose proof (code_upper_lowered d U) as L.
    unfold is_upper, between in U. apply andb_true_iff in U as [U _].
    apply Nat.leb_le in U.
    assert (E1 : Ascii.eqb c (lower_ascii d) = false)
      by (apply Ascii.eqb_neq; intros ->; lia).
    assert (E2 : Ascii.eqb c d = false)
      by (apply Ascii.eqb_neq; intros ->; lia).
    now rewrite E1, E2.
  - unfold lower_ascii. now rewrite U.
Qed.

Lemma count_lower (c : ascii) (s : string) :
  (code c < 65)%nat -> count c (lower s) = count c s.
Proof.
  intros H. induction s as [|d s IH]; [reflexivity|]. cbn.
  now rewrite (eqb_lower_ascii c d H), IH.
Qed.

Lemma prefix_lower (n s : string) :
  all_chars (fun c => (code c <? 65)%nat) n = true ->
  prefix n (lower s) = prefix n s.
Proof.
  revert s; induction n as [|c n IH]; intros s H; [now destruct s|].
  cbn [all_chars] in H. apply andb_true_iff in H as [Hc Hn]. apply Nat.ltb_lt in Hc.
  destruct s as [|d s]; [reflexivity|]. cbn.
  pose proof (eqb_lower_ascii c d Hc) as E.
  destruct (ascii_dec c (lower_ascii d)) as [L|L], (ascii_dec c d) as [R|R];
    auto.
  - apply Ascii.eqb_eq in L. rewrite L in E. symmetry in E.
    apply Ascii.eqb_eq in E. contradiction.
  - apply Ascii.eqb_eq in R. rewrite R in E.
    apply Ascii.eqb_eq in E. contradiction.
Qed.

(** [needle in s.lower()] and [needle in s] agree for a needle of digits. *)
Lemma contains_lower (n s : string) :
  all_chars (fun c => (code c <? 65)%nat) n = true ->
  contains n (lower s) = contains n s.
Proof.
  intros H. induction s as [|d s IH].
  - reflexivity.
  - rewrite contains_eq, (contains_eq n (String d s)).
    rewrite (prefix_lower n (String d s) H). cbn [lower]. now rewrite IH.
Qed.

(** ** The message of [sync_call] under the tests of [test_openai] *)

Lemma quota_message_is_quota (msg : string) :
  is_quota_error ("OpenAI quota exceeded: " ++ msg) "Exception" = true.
Proof. reflexivity. Qed.

Lemma error_message_is_quota (msg : string) :
  is_quota_error ("OpenAI API error: " ++ msg) "Exception"
  = contains "quota" (lower msg) || contains "429" msg
    || contains "rate limit" (lower msg)
    || contains "insufficient_quota" (lower msg).
Proof.
  unfold is_quota_error. rewrite lower_app.
  change (lower "OpenAI API error: ") with "openai api error: ".
  cbn. now rewrite orb_false_r.
Qed.

Lemma quota_message_is_auth (msg : string) :
  is_auth_error ("OpenAI quota exceeded: " ++ msg) = is_auth_error msg.
Proof.
  unfold is_auth_error. rewrite lower_app.
  change (lower "OpenAI quota exceeded: ") with "openai quota exceeded: ".
  reflexivity.
Qed.

Lemma error_message_is_auth (msg : string) :
  is_auth_error ("OpenAI API error: " ++ msg) = is_auth_error msg.
Proof.
  unfold is_auth_error. rewrite lower_app.
  change (lower "OpenAI API error: ") with "openai api error: ".
  reflexivity.
Qed.

(** The tests of [test_openai] on the message [sync_call] raises give what
    the tests of [sync_call] gave on the client's exception. *)
Lemma sync_call_diagnosis (error_type msg : string) :
  exists error_msg,
    sync_call (ClientError error_type msg) = Raise (OtherError error_msg)
    /\ is_quota_error error_msg "Exception"
       = quota_exceeded error_type (lower msg)
    /\ is_auth_error error_msg = is_auth_error msg.
Proof.
  unfold sync_call. destruct (quota_exceeded error_type (lower msg)) eqn:Q.
  - eexists. split; [reflexivity|]. split.
    + apply quota_message_is_quota.
    + apply quota_message_is_auth.
  - eexists. split; [reflexivity|]. split; [|apply error_message_is_auth].
    rewrite error_message_is_quota.
    unfold quota_exceeded in Q.
    rewrite (contains_lower "429" msg eq_refl) in Q.
    now apply orb_false_iff in Q as [Q _].
Qed.

(** ** [test_openai] *)

Lemma test_openai_eq (env : environment) (st : state) :
  test_openai env st
  = if configured env st then
      (Ok match call_openai env test_prompt with
          | Replied response =>
              [("status", JStr "success");
               ("message", JStr "OpenAI API is working correctly");
               ("response", json_of response);
               ("api_key_configured", JBool true)]
          | TimedOut =>
              [("status", JStr "timeout");
               ("message", JStr "OpenAI API request timed out");
               ("api_key_configured", JBool true)]
          | Failed error_msg =>
              [("status", JStr "error");
               ("message", JStr "OpenAI API call failed");
               ("error", JStr error_msg);
               ("error_type", JStr "Exception");
               ("api_key_configured", JBool true);
               ("is_quota_error", JBool (is_quota_error error_msg "Exception"));
               ("is_auth_error", JBool (is_auth_error error_msg))]
          end,
       logged (OpenAICall test_prompt)
              {| openai_client := true; trace := trace st |})
    else (Ok not_configured_answer, st).
Proof.
  unfold test_openai, try_except, bind, get_openai_client, log, ret, configured,
    logged.
  destruct st as [[|] tr]; cbn [openai_client trace orb].
  - destruct (call_openai env test_prompt); reflexivity.
  - destruct (OPENAI_API_KEY env) as [[|c k]|]; cbn [truthy]; try reflexivity.
    destruct (call_openai env test_prompt); reflexivity.
Qed.

End OpenAIFacts.

(* ================================================================== *)
(** * The fallback scorer: case, negation, labels *)
(* ================================================================== *)

Module ScorerFacts.
Import Py Spec Aux Terms PyFacts Re Fallback FallbackFacts OpenAIFacts Binary64 Halves.

Lemma punctuation_bias_lower (text : string) :
  punctuation_bias (lower text) = punctuation_bias text.
Proof.
  unfold punctuation_bias.
  now rewrite !count_lower by (vm_compute; lia).
Qed.

(** The sentiment is read off the lower-cased text. *)
Lemma raw_sentiment_lower (t1 t2 : string) :
  lower t1 = lower t2 -> raw_sentiment t1 = raw_sentiment t2.
Proof.
  intros E. rewrite !raw_sentiment_eq, E.
  now rewrite <- (punctuation_bias_lower t1), <- (punctuation_bias_lower t2), E.
Qed.

(** ** The side of 0.5 *)

Lemma blend_side (a b : Z) :
  (0 <= a)%Z -> (0 <= b)%Z -> (0 < a + b)%Z ->
  ((b < a)%Z -> 1#2 < blend a b)
  /\ ((a < b)%Z -> blend a b < 1#2)
  /\ (a = b -> blend a b == 1#2).
Proof.
  intros Ha Hb Ht. unfold blend. cbv zeta.
  assert (D : 0 < inject_Z (Z.max ((a + b) * 2) 1))
    by (change 0 with (inject_Z 0); rewrite <- Zlt_Qlt; lia).
  set (d := inject_Z (Z.max ((a + b) * 2) 1)) in *.
  split; [|split].
  - intros L.
    assert (Y : 0 < inject_Z (a - b))
      by (change 0 with (inject_Z 0); rewrite <- Zlt_Qlt; lia).
    assert (X : 0 < inject_Z (a - b) / d)
      by (apply Qlt_shift_div_l; [exact D | now rewrite Qmult_0_l]).
    set (x := inject_Z (a - b) / d) in *. lra.
  - intros L.
    assert (Y : inject_Z (a - b) < 0)
      by (change 0 with (inject_Z 0); rewrite <- Zlt_Qlt; lia).
    assert (X : inject_Z (a - b) / d < 0)
      by (apply Qlt_shift_div_r; [exact D | now rewrite Qmult_0_l]).
    set (x := inject_Z (a - b) / d) in *. lra.
  - intros ->. rewrite Z.sub_diag. unfold Qdiv. change (inject_Z 0) with 0. ring.
Qed.

Lemma blend_above (a b : Z) :
  (0 <= a)%Z -> (0 <= b)%Z -> (0 < a + b)%Z ->
  (1#2 < blend a b <-> (b < a)%Z) /\ (blend a b < 1#2 <-> (a < b)%Z).
Proof.
  intros Ha Hb Ht. destruct (blend_side a b Ha Hb Ht) as (U & L & E).
  split; split; auto; intros H.
  - destruct (Z.lt_trichotomy b a) as [T|[T|T]]; [exact T| |].
    + subst. rewrite (E eq_refl) in H. now apply Qlt_irrefl in H.
    + specialize (L T). exfalso. apply (Qlt_irrefl (1#2)).
      eapply Qlt_trans; eauto.
  - destruct (Z.lt_trichotomy a b) as [T|[T|T]]; [exact T| |].
    + subst. rewrite (E eq_refl) in H. now apply Qlt_irrefl in H.
    + specialize (U T). exfalso. apply (Qlt_irrefl (1#2)).
      eapply Qlt_trans; eauto.
Qed.

Lemma sides_checked : grid_sides = true.
Proof. vm_compute. reflexivity. Qed.

Lemma sides_in_range (p n : Z) :
  (0 <= p <= 28)%Z -> (0 <= n <= 28)%Z -> (0 < p + n)%Z ->
  above64 (clamp64 (blend64 p n)) = (n <? p)%Z
  /\ below64 (clamp64 (blend64 p n)) = (p <? n)%Z.
Proof.
  intros Hp Hn Ht.
  pose proof sides_checked as G. unfold grid_sides in G.
  rewrite forallb_forall in G.
  specialize (G (Z.to_nat p)). rewrite forallb_forall in G.
  assert (Ip : In (Z.to_nat p) (seq 0 29)) by (apply in_seq; lia).
  assert (In_ : In (Z.to_nat n) (seq 0 29)) by (apply in_seq; lia).
  specialize (G Ip (Z.to_nat n) In_).
  rewrite !Z2Nat.id in G by lia.
  apply orb_true_iff in G as [G|G]; [apply Nat.eqb_eq in G; lia|].
  unfold side_agrees in G. apply andb_true_iff in G as [G1 G2].
  apply Bool.eqb_prop in G1, G2. now split.
Qed.


Lemma refine_emotion_label (e t : string) :
  In e labels -> In (refine_emotion e t) labels.
Proof.
  intros H. unfold refine_emotion.
  repeat match goal with
         | |- context [if ?b then _ else _] => destruct b
         end; cbn; auto 10.
Qed.

Lemma threshold_emotion_label (f : pyfloat) : In (threshold_emotion f) labels.
Proof.
  unfold threshold_emotion.
  repeat match goal with
         | |- context [if ?b then _ else _] => destruct b
         end; cbn; auto 10.
Qed.

End ScorerFacts.

(* ================================================================== *)
(** * The text endpoint: calls, replies and errors *)
(* ================================================================== *)

Module EndpointFacts.
Import Py Spec Aux Terms PyFacts Re Fallback Api ApiFacts.

Lemma validate_list_strs (L : library) (ks : list string) :
  validate_list L (map JStr ks) = Return ks.
Proof.
  induction ks as [|k ks IH]; [reflexivity|].
  cbn [map validate_list validate_str]. now rewrite IH.
Qed.

(** A dictionary whose three fields have the types asked for goes through
    the normalisation with the sentiment clamped and the keywords cut to
    five; a field that is absent takes its default. *)
Lemma normalise_well_formed (L : library) (items : list (string * json))
      (f : pyfloat) (ks : list string) (e : string) :
  dict_get "sentiment" items (JFloat (Fin (1#2))) = JFloat f ->
  dict_get "keywords" items (JList []) = JList (map JStr ks) ->
  dict_get "emotion" items (JStr "neutral") = JStr e ->
  normalise L (JDict items)
  = Return {| sentiment := clamp01 f; keywords := firstn 5 ks; emotion := e |}.
Proof.
  intros S K E. unfold normalise, get. rewrite S, K, E. cbn [float_of].
  now rewrite firstn_map, validate_list_strs.
Qed.

Section Endpoints.
Variable list_of_set : list string -> list string.
Variable env : environment.

Local Abbreviation fallback := (fallback_sentiment_analysis list_of_set).



Lemma after_check_reply (text : string) (st : state) (c : ascii) (response : string) :
  configured env st = true ->
  call_openai env (prompt_for text) = Replied (Some (String c response)) ->
  fst (after_check list_of_set env text st)
  = handled (digest env (String c response)).
Proof.
  intros C R. unfold Aux.after_check. rewrite C.
  cbv zeta. rewrite analyse_eq, R. reflexivity.
Qed.

Lemma handled_detail (o : outcome SentimentResponse) :
  match o with HTTPException _ _ => False | _ => True end ->
  match handled o with
  | Ok _ => True
  | HTTPException status_code detail => known_detail status_code detail
  | Uncaught _ => False
  end.
Proof.
  destruct o as [r|code detail|[msg|msg|msg]]; cbn; try tauto; intros _;
    right; (split; [reflexivity|]); right; right; [left|right|right];
    eexists; reflexivity.
Qed.

Lemma digest_no_http (response : string) :
  match digest env response with HTTPException _ _ => False | _ => True end.
Proof.
  unfold digest. destruct (repair (lib env) response); [|exact I].
  now destruct (normalise (lib env) a).
Qed.

Lemma after_check_detail (text : string) (st : state) :
  match fst (after_check list_of_set env text st) with
  | Ok _ => True
  | HTTPException status_code detail => known_detail status_code detail
  | Uncaught _ => False
  end.
Proof.
  unfold Aux.after_check.
  destruct (configured env st).
  - cbv zeta. rewrite analyse_eq. cbv zeta.
    destruct (call_openai env (prompt_for text)) as [|msg|[[|c response]|]];
      cbn [fst handled]; try exact I.
    + right. split; [reflexivity|]. right. now left.
    + apply handled_detail, digest_no_http.
    + right. split; [reflexivity|]. right. now left.
  - right. split; [reflexivity|]. now left.
Qed.

End Endpoints.

End EndpointFacts.

(* ================================================================== *)
(** * The JSON candidate in a reply *)
(* ================================================================== *)

Module CandidateFacts.
Import Py Spec Aux PyFacts Re ReFacts Api ApiFacts.

(** ** The matcher finds a match where there is one *)

Section Completeness.
Context {A : Type}.

Lemma run_complete r prev s caps prev' s' caps' :
  derives r prev s caps prev' s' caps' ->
  (forall k : @cont A, k prev' s' caps' <> None -> run r prev s caps k <> None)
  /\ (forall greedy r0,
         r = star_of greedy r0 ->
         forall fuel (k : @cont A),
           (String.length s <= fuel)%nat ->
           k prev' s' caps' <> None ->
           star_loop (run r0) greedy k fuel prev s caps <> None).
Proof.
  assert (Stop : forall greedy r0 fuel (k : @cont A) p t c,
             k p t c <> None -> star_loop (run r0) greedy k fuel p t c <> None).
  { intros greedy r0 fuel k p t c K. destruct fuel as [|fuel]; [exact K|].
    cbn [star_loop]. destruct greedy.
    - destruct (run r0 p t c _); [discriminate | exact K].
    - destruct (k p t c); [discriminate | congruence]. }
  assert (Step : forall greedy r0 fuel (k : @cont A) p t c p1 t1 c1,
             (forall k0 : @cont A, k0 p1 t1 c1 <> None -> run r0 p t c k0 <> None) ->
             (String.length t1 < String.length t)%nat ->
             (String.length t <= fuel)%nat ->
             (forall fuel', (String.length t1 <= fuel')%nat ->
                            star_loop (run r0) greedy k fuel' p1 t1 c1 <> None) ->
             star_loop (run r0) greedy k fuel p t c <> None).
  { intros greedy r0 fuel k p t c p1 t1 c1 Body Lt Le Rest.
    destruct fuel as [|fuel]; [lia|]. cbn [star_loop].
    match goal with
    | |- context [run r0 p t c ?k0] =>
        assert (Again : run r0 p t c k0 <> None)
    end.
    { apply Body. rewrite (proj2 (Nat.ltb_lt _ _) Lt). apply Rest. lia. }
    destruct greedy.
    - destruct (run r0 p t c _); [discriminate | congruence].
    - destruct (k p t c); [discriminate | exact Again]. }
  induction 1 as
      [prev s caps
      |p c prev s caps Hp
      |prev s caps Hb
      |r1 r2 prev s caps prev1 s1 caps1 prev2 s2 caps2 D1 IH1 D2 IH2
      |r prev s caps
      |r prev s caps prev1 s1 caps1 prev2 s2 caps2 D1 IH1 Lt D2 IH2
      |r prev s caps
      |r prev s caps prev1 s1 caps1 prev2 s2 caps2 D1 IH1 Lt D2 IH2
      |r prev s caps prev1 s1 caps1 D IH].
  - split; [intros k K; exact K|]. intros [] r0 E; discriminate E.
  - split; [intros k K; cbn [run]; now rewrite Hp|].
    intros [] r0 E; discriminate E.
  - split; [intros k K; cbn [run]; now rewrite Hb|].
    intros [] r0 E; discriminate E.
  - split; [|intros [] r0 E; discriminate E].
    intros k K. cbn [run]. apply (proj1 IH1). now apply (proj1 IH2).
  - split.
    + intros k K. cbn [run]. now apply Stop.
    + intros greedy r0 E fuel k _ K. now apply Stop.
  - assert (G : forall greedy r0,
               Star r = star_of greedy r0 ->
               forall fuel (k : @cont A),
                 (String.length s <= fuel)%nat ->
                 k prev2 s2 caps2 <> None ->
                 star_loop (run r0) greedy k fuel prev s caps <> None).
    { intros greedy r0 E fuel k Le K.
      destruct greedy; [|discriminate E]. injection E as <-.
      apply (Step true r fuel k prev s caps prev1 s1 caps1); auto.
      - apply (proj1 IH1).
      - intros fuel' Le'. now apply (proj2 IH2 true r eq_refl). }
    split; [|exact G].
    intros k K. cbn [run]. now apply (G true r eq_refl).
  - split.
    + intros k K. cbn [run]. now apply Stop.
    + intros greedy r0 E fuel k _ K. now apply Stop.
  - assert (G : forall greedy r0,
               LazyStar r = star_of greedy r0 ->
               forall fuel (k : @cont A),
                 (String.length s <= fuel)%nat ->
                 k prev2 s2 caps2 <> None ->
                 star_loop (run r0) greedy k fuel prev s caps <> None).
    { intros greedy r0 E fuel k Le K.
      destruct greedy; [discriminate E|]. injection E as <-.
      apply (Step false r fuel k prev s caps prev1 s1 caps1); auto.
      - apply (proj1 IH1).
      - intros fuel' Le'. now apply (proj2 IH2 false r eq_refl). }
    split; [|exact G].
    intros k K. cbn [run]. now apply (G false r eq_refl).
  - split; [|intros [] r0 E; discriminate E].
    intros k K. cbn [run]. now apply (proj1 IH).
Qed.

End Completeness.

Lemma match_at_complete r prev s prev' s' caps' :
  derives r prev s [] prev' s' caps' -> match_at r prev s <> None.
Proof.
  intros D. unfold match_at.
  apply (proj1 (run_complete r prev s [] prev' s' caps' D)). discriminate.
Qed.

(** ** Building derivations *)

Lemma derives_lit (l : string) prev s caps :
  derives (Lit l) prev (l ++ s) caps (last_of prev l) s caps.
Proof.
  revert prev; induction l as [|c l IH]; intros prev; cbn; [constructor|].
  econstructor; [|apply IH]. constructor. apply Ascii.eqb_refl.
Qed.

Lemma derives_star_chr (p : ascii -> bool) (w : string) prev s caps :
  all_chars p w = true ->
  derives (Star (Chr p)) prev (w ++ s) caps (last_of prev w) s caps.
Proof.
  revert prev; induction w as [|c w IH]; intros prev H; cbn; [constructor|].
  cbn in H. apply andb_true_iff in H as [Hc Hw].
  eapply d_star_step; [now constructor | cbn; lia | now apply IH].
Qed.

(** ** Reading derivations *)

Lemma lit_inv (l : string) prev s caps prev' s' caps' :
  derives (Lit l) prev s caps prev' s' caps' -> s = (l ++ s')%string.
Proof.
  revert prev s caps; induction l as [|c l IH]; intros prev s caps D; cbn in D.
  - now inversion D.
  - apply derives_cat_inv in D as (p1 & s1 & c1 & D1 & D2).
    inversion D1; subst.
    match goal with H : Ascii.eqb _ _ = true |- _ => apply Ascii.eqb_eq in H; subst end.
    cbn. f_equal. eapply IH; eauto.
Qed.

Lemma star_chr_inv (p : ascii -> bool) prev s caps prev' s' caps' :
  derives (Star (Chr p)) prev s caps prev' s' caps' ->
  exists w, s = (w ++ s')%string /\ all_chars p w = true.
Proof.
  remember (Star (Chr p)) as r eqn:R. intros D. revert R.
  induction D; intros R; try discriminate R.
  - now exists ""%string.
  - injection R as ->.
    match goal with H : derives (Chr p) _ _ _ _ _ _ |- _ => inversion H; subst end.
    destruct (IHD2 eq_refl) as (w & -> & Hw).
    exists (String c w). split; [reflexivity|]. cbn.
    match goal with H : p c = true |- _ => now rewrite H end.
Qed.

(** The repeated piece starts with an opening brace: where none stands,
    its star matches the empty text. *)
Lemma star_braces_inv prev s caps prev' s' caps' :
  derives (Star braces) prev s caps prev' s' caps' ->
  first_char s <> Some "{"%char -> s' = s.
Proof.
  intros D N. inversion D; subst; [reflexivity|]. exfalso.
  match goal with H : derives braces _ _ _ _ _ _ |- _ =>
    unfold braces in H; cbn [Cats fold_right] in H;
    apply derives_cat_inv in H as (p1 & t1 & c1 & D1 & _);
    apply lit_inv in D1
  end.
  subst. now apply N.
Qed.

(** A brace-free text that starts a text with a closing brace in it stands
    before that brace. *)
Lemma brace_free_split (w s x post : string) :
  all_chars not_brace w = true -> all_chars not_brace x = true ->
  (w ++ s = x ++ "}" ++ post)%string ->
  exists u, x = (w ++ u)%string /\ s = (u ++ "}" ++ post)%string
            /\ all_chars not_brace u = true.
Proof.
  revert x; induction w as [|c w IH]; intros x Hw Hx E; cbn in E.
  - now exists x.
  - cbn in Hw. apply andb_true_iff in Hw as [Hc Hw].
    destruct x as [|d x]; cbn in E.
    + injection E as -> _. discriminate Hc.
    + injection E as -> E. cbn in Hx. apply andb_true_iff in Hx as [_ Hx].
      destruct (IH x Hw Hx E) as (u & -> & -> & Hu). now exists u.
Qed.

Lemma brace_free_first (u post : string) :
  all_chars not_brace u = true ->
  first_char (u ++ "}" ++ post) <> Some "{"%char.
Proof.
  destruct u as [|c u]; cbn; [discriminate|].
  intros H. apply andb_true_iff in H as [Hc _]. intros E. injection E as ->.
  discriminate Hc.
Qed.

(** Where the pattern ends when it starts at an object without inner
    braces: at the closing brace. *)
Lemma candidate_end (x post : string) prev caps prev' s' caps' :
  all_chars not_brace x = true ->
  derives json_pattern prev ("{" ++ x ++ "}" ++ post) caps prev' s' caps' ->
  s' = post.
Proof.
  intros Hx D. unfold json_pattern in D. cbn [Cats fold_right] in D.
  apply derives_cat_inv in D as (p1 & s1 & c1 & D1 & D).
  apply lit_inv in D1. cbn in D1. injection D1 as D1.
  apply derives_cat_inv in D as (p2 & s2 & c2 & D2 & D).
  apply star_chr_inv in D2 as (w & E2 & Hw). rewrite E2 in D1.
  symmetry in D1.
  destruct (brace_free_split w s2 x post Hw Hx D1) as (u & -> & -> & Hu).
  apply derives_cat_inv in D as (p3 & s3 & c3 & D3 & D).
  apply star_braces_inv in D3; [|now apply brace_free_first]. subst s3.
  apply derives_cat_inv in D as (p4 & s4 & c4 & D4 & D).
  apply lit_inv in D4.
  destruct (brace_free_split (quoted "sentiment") s4 u post eq_refl Hu (eq_sym D4))
    as (u2 & -> & -> & Hu2).
  apply derives_cat_inv in D as (p5 & s5 & c5 & D5 & D).
  apply star_chr_inv in D5 as (w2 & E5 & Hw2).
  destruct (brace_free_split w2 s5 u2 post Hw2 Hu2 (eq_sym E5))
    as (u3 & -> & -> & Hu3).
  apply derives_cat_inv in D as (p6 & s6 & c6 & D6 & D).
  apply star_braces_inv in D6; [|now apply brace_free_first]. subst s6.
  apply derives_cat_inv in D as (p7 & s7 & c7 & D7 & D).
  apply lit_inv in D7. inversion D; subst.
  destruct u3 as [|c u3]; cbn in D7.
  - now injection D7 as <-.
  - injection D7 as -> _. cbn in Hu3. discriminate Hu3.
Qed.

(** The object itself is matched. *)
Lemma candidate_derives (a b post : string) prev :
  all_chars not_brace a = true -> all_chars not_brace b = true ->
  exists prev',
    derives json_pattern prev
            ("{" ++ a ++ quoted "sentiment" ++ b ++ "}" ++ post) []
            prev' post [].
Proof.
  intros Ha Hb. eexists. unfold json_pattern. cbn [Cats fold_right].
  econstructor; [apply (derives_lit "{")|].
  econstructor; [apply (derives_star_chr not_brace a); exact Ha|].
  econstructor; [apply d_star_stop|].
  econstructor; [apply (derives_lit (quoted "sentiment"))|].
  econstructor; [apply (derives_star_chr not_brace b); exact Hb|].
  econstructor; [apply d_star_stop|].
  econstructor; [apply (derives_lit "}")|].
  constructor.
Qed.

(** ** The search *)

Lemma append_assoc (a b c : string) :
  ((a ++ b) ++ c = a ++ b ++ c)%string.
Proof. induction a as [|x a IH]; cbn; [reflexivity | now rewrite IH]. Qed.

Lemma substring_app (o p : string) :
  substring 0 (String.length (o ++ p) - String.length p) (o ++ p) = o.
Proof.
  assert (L : forall a b : string,
             String.length (a ++ b) = (String.length a + String.length b)%nat)
    by (induction a; intros; cbn; auto).
  rewrite L. replace (String.length o + String.length p - String.length p)%nat
    with (String.length o) by lia.
  induction o as [|c o IH]; cbn; [now destruct p | now rewrite IH].
Qed.

Lemma all_chars_app (p : ascii -> bool) (a b : string) :
  all_chars p (a ++ b) = all_chars p a && all_chars p b.
Proof.
  induction a as [|c a IH]; cbn; [reflexivity|]. now rewrite IH, andb_assoc.
Qed.

Lemma match_at_candidate (a b post : string) prev :
  all_chars not_brace a = true -> all_chars not_brace b = true ->
  exists m,
    match_at json_pattern prev
             ("{" ++ a ++ quoted "sentiment" ++ b ++ "}" ++ post) = Some m
    /\ group0 m = ("{" ++ a ++ quoted "sentiment" ++ b ++ "}")%string.
Proof.
  intros Ha Hb.
  destruct (candidate_derives a b post prev Ha Hb) as (prev' & D).
  apply match_at_complete in D.
  destruct (match_at json_pattern prev _) as [m|] eqn:E; [|congruence].
  exists m. split; [reflexivity|].
  apply match_at_sound in E as [D' T].
  assert (X : all_chars not_brace (a ++ quoted "sentiment" ++ b) = true)
    by (rewrite !all_chars_app, Ha, Hb; reflexivity).
  assert (R : m_rest m = post).
  { apply (candidate_end (a ++ quoted "sentiment" ++ b) post
                         prev [] (m_prev m) (m_rest m) (m_groups m) X).
    rewrite !append_assoc. exact D'. }
  unfold group0. rewrite T, R.
  assert (F : ("{" ++ a ++ quoted "sentiment" ++ b ++ "}" ++ post
               = ("{" ++ a ++ quoted "sentiment" ++ b ++ "}") ++ post)%string)
    by (now rewrite !append_assoc).
  rewrite F. apply substring_app.
Qed.

(** No match starts where no opening brace stands. *)
Lemma match_at_no_brace prev (s : string) :
  first_char s <> Some "{"%char -> match_at json_pattern prev s = None.
Proof.
  intros N. destruct (match_at json_pattern prev s) as [m|] eqn:E; [|reflexivity].
  exfalso. apply match_at_sound in E as [D _].
  unfold json_pattern in D. cbn [Cats fold_right] in D.
  apply derives_cat_inv in D as (p1 & s1 & c1 & D1 & _).
  apply lit_inv in D1. subst. now apply N.
Qed.

Lemma search_from_candidate (pre a b post : string) prev :
  all_chars (fun c => negb (Ascii.eqb c "{")) pre = true ->
  all_chars not_brace a = true -> all_chars not_brace b = true ->
  exists m,
    search_from json_pattern prev
                (pre ++ "{" ++ a ++ quoted "sentiment" ++ b ++ "}" ++ post)
    = Some m
    /\ group0 m = ("{" ++ a ++ quoted "sentiment" ++ b ++ "}")%string.
Proof.
  intros Hp Ha Hb. revert prev; induction pre as [|c pre IH]; intros prev.
  - destruct (match_at_candidate a b post prev Ha Hb) as (m & E & G).
    exists m. split; [|exact G].
    change ("" ++ "{" ++ a ++ quoted "sentiment" ++ b ++ "}" ++ post)%string
      with ("{" ++ a ++ quoted "sentiment" ++ b ++ "}" ++ post)%string.
    cbn [append] in *. cbn [search_from]. now rewrite E.
  - cbn in Hp. apply andb_true_iff in Hp as [Hc Hp].
    cbn [append search_from]. rewrite match_at_no_brace.
    + apply (IH Hp).
    + cbn. intros E. injection E as ->. discriminate Hc.
Qed.

(** ** Replies without the fields *)

Lemma derives_consumed r prev s caps prev' s' caps' :
  derives r prev s caps prev' s' caps' -> exists w, s = (w ++ s')%string.
Proof.
  induction 1;
    try (now exists ""%string);
    try (now exists (String c ""));
    try assumption.
  - destruct IHderives1 as (w1 & ->), IHderives2 as (w2 & ->).
    exists (w1 ++ w2)%string. now rewrite append_assoc.
  - destruct IHderives1 as (w1 & ->), IHderives2 as (w2 & ->).
    exists (w1 ++ w2)%string. now rewrite append_assoc.
  - destruct IHderives1 as (w1 & ->), IHderives2 as (w2 & ->).
    exists (w1 ++ w2)%string. now rewrite append_assoc.
Qed.

Lemma search_from_position r prev s m :
  search_from r prev s = Some m ->
  exists pre prev0 s0, s = (pre ++ s0)%string /\ match_at r prev0 s0 = Some m.
Proof.
  revert prev; induction s as [|c s IH]; intros prev H; cbn [search_from] in H.
  - destruct (match_at r prev "") eqn:E; [|discriminate].
    injection H as <-. now exists ""%string, prev, ""%string.
  - destruct (match_at r prev (String c s)) eqn:E.
    + injection H as <-. now exists ""%string, prev, (String c s).
    + destruct (IH _ H) as (pre & prev0 & s0 & -> & M).
      now exists (String c pre), prev0, s0.
Qed.

(** A pattern with a literal in it matches only text that holds the
    literal. *)
Lemma literal_in_match (before : list regex) (l : string) (after : list regex)
      prev s caps prev' s' caps' :
  derives (Cats (before ++ Lit l :: after)) prev s caps prev' s' caps' ->
  substring_of l s.
Proof.
  revert prev s caps; induction before as [|r before IH]; intros prev s caps D;
    cbn [app Cats fold_right] in D;
    apply derives_cat_inv in D as (p1 & s1 & c1 & D1 & D2).
  - apply lit_inv in D1. now exists ""%string, s1.
  - apply derives_consumed in D1 as (w & ->).
    destruct (IH _ _ _ D2) as (pre & post & ->).
    exists (w ++ pre)%string, post. now rewrite append_assoc.
Qed.

Lemma search_without_literal (before : list regex) (l : string)
      (after : list regex) (s : string) :
  contains l s = false -> search (Cats (before ++ Lit l :: after)) s = None.
Proof.
  intros C. destruct (search _ s) as [m|] eqn:E; [|reflexivity]. exfalso.
  apply search_from_position in E as (pre & prev0 & s0 & -> & M).
  apply match_at_sound in M as [D _].
  apply literal_in_match in D as (pre' & post & ->).
  assert (T : contains l (pre ++ pre' ++ l ++ post) = true).
  { apply contains_substring. exists (pre ++ pre')%string, post.
    now rewrite append_assoc. }
  congruence.
Qed.

Lemma findall_without_match (r : regex) (s : string) :
  search r s = None -> findall r s = [].
Proof.
  unfold search, findall. intros E. cbn [matches_from]. now rewrite E.
Qed.

(** The field extraction on a reply that names none of the three fields:
    the defaults. *)
Lemma extract_fields_defaults (L : library) (response : string) :
  contains (quoted "sentiment") response = false ->
  contains (quoted "keywords") response = false ->
  contains (quoted "emotion") response = false ->
  search json_pattern response = None
  /\ extract_fields L response
     = Return (JDict [("sentiment", JFloat (Fin (1#2)));
                      ("keywords", JList []);
                      ("emotion", JStr "neutral")]).
Proof.
  intros S K E.
  pose proof (search_without_literal
                [Lit "{"; Star (Chr not_brace); Star braces]
                (quoted "sentiment")
                [Star (Chr not_brace); Star braces; Lit "}"] response S) as J.
  pose proof (search_without_literal
                [] (quoted "sentiment")
                [Star (Chr is_space); Lit ":"; Star (Chr is_space);
                 Group (Cat (Chr digit_or_dot) (Star (Chr digit_or_dot)))]
                response S) as S'.
  pose proof (search_without_literal
                [] (quoted "keywords")
                [Star (Chr is_space); Lit ":"; Star (Chr is_space); Lit "[";
                 Group (LazyStar (Chr any_char)); Lit "]"]
                response K) as K'.
  pose proof (search_without_literal
                [] (quoted "emotion")
                [Star (Chr is_space); Lit ":"; Star (Chr is_space); Lit dq;
                 Group (Cat (Chr not_quote) (Star (Chr not_quote))); Lit dq]
                response E) as E'.
  split; [exact J|].
  unfold extract_fields.
  change (search sentiment_re response = None) in S'.
  change (search keywords_re response = None) in K'.
  change (search emotion_re response = None) in E'.
  now rewrite S', E', (findall_without_match _ _ K').
Qed.

End CandidateFacts.

(* ================================================================== *)
(** * Further properties *)
(* ================================================================== *)

Module Further.
Import Py Spec Aux PyFacts Re ReFacts Fallback FallbackFacts WordFacts RankFacts
       KeywordFacts Api ApiFacts Relay RelayFacts Binary64 Binary64Facts Samples.

(** X1.  On ASCII text the word pattern finds exactly the maximal runs of
    letters, digits and underscores that are made of three or more letters
    a..z. *)
Theorem words_are_alphabetic_words (s : string) :
  ascii_text s = true ->
  words s = alphabetic_words s.
Proof. intros _. apply words_alphabetic_words. Qed.

Lemma words_are_alphabetic_words_witness :
  ascii_text "covid19 update for the cat_flap and a dog" = true
  /\ words "covid19 update for the cat_flap and a dog"
     = alphabetic_words "covid19 update for the cat_flap and a dog"
  /\ alphabetic_words "covid19 update for the cat_flap and a dog"
     = ["update"; "for"; "the"; "and"; "dog"].
Proof.
  split; [reflexivity|]. split.
  - apply (words_are_alphabetic_words "covid19 update for the cat_flap and a dog").
    reflexivity.
  - vm_compute. reflexivity.
Defined.

(** X2.  The scorer's sentiment lies between 0.25 and 0.75: the clamp to
    the unit interval never changes it. *)
Theorem scorer_sentiment_range
        (list_of_set : list string -> list string) (text : string) :
  exists q,
    sentiment (fallback_sentiment_analysis list_of_set text) = Fin q
    /\ 1#4 <= q /\ q <= 3#4.
Proof.
  exists (raw_sentiment text). split; [apply fallback_sentiment|].
  apply raw_sentiment_bounds.
Qed.

(** X3.  For a text with a sentiment word, the blend evaluated on IEEE
    doubles goes through the clamps and the thresholds as the blend on
    rationals does. *)
Theorem scorer_decides_alike_on_doubles (text : string) :
  (0 < total_score (lower text))%Z ->
  decisions64 (blend64 (fst (scores (lower text))) (snd (scores (lower text))))
  = decisions (blend (fst (scores (lower text))) (snd (scores (lower text)))).
Proof. apply blend_decides_alike. Qed.

Lemma scorer_decides_alike_on_doubles_witness :
  decisions64 (blend64 (fst (scores (lower "I am happy")))
                       (snd (scores (lower "I am happy"))))
  = decisions (blend (fst (scores (lower "I am happy")))
                     (snd (scores (lower "I am happy")))).
Proof.
  apply (scorer_decides_alike_on_doubles "I am happy"). reflexivity.
Defined.

(** X4.  With a secret of 20 characters or more after trimming, the relay
    attempts the vendor connection right after accepting the client, with
    the trimmed secret in the authorization header. *)
Theorem relay_connects_with_long_secret
        (k : string) (connect : string -> string -> connect_outcome) :
  (20 <= String.length (strip k))%nat ->
  exists rest,
    websocket_deepgram_proxy (Some k) connect
    = Accept :: Connect deepgram_url ("Token " ++ strip k) :: rest.
Proof.
  intros H. apply relay_connects_with_secret. cbn [secret_missing]. lia.
Qed.

Lemma relay_connects_with_long_secret_witness :
  exists rest,
    websocket_deepgram_proxy (Some " 0123456789abcdef0123456789abcdef ")
                             (fun _ _ => Connected [])
    = Accept
        :: Connect deepgram_url
                   ("Token " ++ strip " 0123456789abcdef0123456789abcdef ")
        :: rest.
Proof.
  apply (relay_connects_with_long_secret
           " 0123456789abcdef0123456789abcdef " (fun _ _ => Connected [])).
  vm_compute. lia.
Defined.

(** X6.  [process_text] ends in a response, in status 400 or in status
    500: no exception leaves it and status 503 is never reached. *)
Theorem process_text_statuses
        (list_of_set : list string -> list string) (env : environment)
        (text : string) (st : state) :
  (exists r, fst (process_text list_of_set env text st) = Ok r)
  \/ (exists detail,
         fst (process_text list_of_set env text st) = HTTPException 400 detail)
  \/ (exists detail,
         fst (process_text list_of_set env text st) = HTTPException 500 detail).
Proof.
  destruct (string_dec (strip text) "") as [B|B].
  - right; left. rewrite (process_text_blank _ _ text st B). eexists; reflexivity.
  - rewrite (process_text_after_check _ _ text st B).
    destruct (after_check_outcome list_of_set env text st) as [H|H]; auto.
Qed.

(** X7.  The words of the sorted counter are the one ranking of the list
    counted: every distinct word once, most frequent first, ties in the
    order first seen. *)
Theorem counter_ranking (l : list string) :
  is_ranking l (map fst (sorted_desc (Counter l)))
  /\ forall ranked, is_ranking l ranked ->
                    ranked = map fst (sorted_desc (Counter l)).
Proof.
  split; [apply sorted_counter_ranking|].
  intros ranked R. exact (ranking_unique _ _ _ R (sorted_counter_ranking l)).
Qed.

(** X8.  [test_fallback] always answers, and its answer keeps the bounds of
    the response: sentiment in the unit interval, at most five keywords, a
    non-empty emotion. *)
Theorem test_fallback_answers
        (list_of_set : list string -> list string) (text : string) (st : state) :
  exists r,
    test_fallback list_of_set text st = (Ok r, logged (FallbackRun text) st)
    /\ r = fallback_sentiment_analysis list_of_set text
    /\ in_unit (sentiment r)
    /\ (List.length (keywords r) <= 5)%nat
    /\ emotion r <> ""%string.
Proof.
  eexists. split; [reflexivity|]. split; [reflexivity|].
  apply fallback_response.
Qed.

(** ** The relay's forwarding loops *)

Import RelayLoops RelayLoopFacts Cases.

(** X9.  What [forward_to_deepgram] sends to the vendor is taken from the
    payloads the client sent, in the client's order: a frame may be left
    out, none is repeated, reordered or made up, and a binary frame stays
    binary, a text frame text.  [chunk_count] is the number of binary
    frames sent on: text frames and frames that were not sent are not
    counted. *)
Theorem relay_forwards_in_order (turns : list turn) :
  sublist (filter to_vendor (effects (forward_to_deepgram turns)))
          (flat_map offered turns)
  /\ chunk_count (forward_to_deepgram turns)
     = List.length (filter is_chunk (effects (forward_to_deepgram turns))).
Proof. split; [apply loop_sublist | apply (loop_count turns 0)]. Qed.

(** X10.  As long as every frame of the client carries a payload and every
    send to the vendor goes through, the vendor gets every payload, the
    client gets nothing from this loop, and the loop goes on. *)
Theorem relay_forwards_all (turns : list turn) :
  forallb forwarded turns = true ->
  effects (forward_to_deepgram turns) = flat_map offered turns
  /\ ended (forward_to_deepgram turns) = Waiting.
Proof. apply loop_forwarded. Qed.

Lemma relay_forwards_all_witness :
  effects (forward_to_deepgram [audio "a" SendOk; note "b" SendOk])
  = flat_map offered [audio "a" SendOk; note "b" SendOk]
  /\ ended (forward_to_deepgram [audio "a" SendOk; note "b" SendOk]) = Waiting.
Proof.
  apply (relay_forwards_all [audio "a" SendOk; note "b" SendOk]). reflexivity.
Defined.

(** X12.  Once the loop has left, through [break] or through an exception,
    what the client sends afterwards has no effect. *)
Theorem relay_stops_for_good (turns more : list turn) :
  ended (forward_to_deepgram turns) <> Waiting ->
  forward_to_deepgram (turns ++ more) = forward_to_deepgram turns.
Proof. apply loop_stopped. Qed.

Lemma relay_stops_for_good_witness :
  forward_to_deepgram ([audio "a" SendOk; hangup] ++ [audio "b" SendOk])
  = forward_to_deepgram [audio "a" SendOk; hangup].
Proof.
  apply (relay_stops_for_good [audio "a" SendOk; hangup] [audio "b" SendOk]).
  discriminate.
Defined.

(** X13.  A receive that fails, a frame without payload that is no
    disconnect, and a send that fails for a reason other than a closed
    connection or a [RuntimeError] leave no trace: the loop runs as if
    they had not happened. *)
Theorem relay_skips_ignored (turns : list turn) :
  forward_to_deepgram (filter (fun t => negb (ignored t)) turns)
  = forward_to_deepgram turns.
Proof. apply loop_ignored. Qed.

(** X14.  [forward_to_deepgram] sends the client nothing, or one error
    frame: the one that reports the lost vendor connection with its reason
    and code, sent last, after which the loop has left through [break]. *)
Theorem relay_notifies_once (turns : list turn) :
  filter to_vendor (effects (forward_to_deepgram turns))
  = effects (forward_to_deepgram turns)
  \/ exists before code reason,
      effects (forward_to_deepgram turns)
      = before ++ [ToClientError ("Deepgram connection lost: "
                                  ++ reason_or_unknown reason
                                  ++ " (code: " ++ code ++ ")")]
      /\ filter to_vendor before = before
      /\ ended (forward_to_deepgram turns) = Broke.
Proof. apply loop_client. Qed.

(** X15.  With a secret of 20 characters or more and the vendor connection
    open, once both loops have ended: however their steps interleave, the
    vendor is sent what [forward_to_deepgram] forwarded, in that order, the
    client is passed the vendor's messages that could be delivered, in the
    vendor's order and each as text or as bytes as it came, and the client
    connection is closed once, as the last action. *)
Theorem relay_session_order
        (k : string) (messages : list (vendor_message * bool))
        (ending : vendor_end) (notified : bool) (turns : list turn)
        (relayed : list effect) :
  (20 <= String.length (strip k))%nat ->
  ending <> StillOpen ->
  ended (forward_to_deepgram turns) <> Waiting ->
  interleaving (forward_from_deepgram messages ending notified)
               (effects (forward_to_deepgram turns)) relayed ->
  filter is_vendor_send (session k relayed)
  = map to_action (filter to_vendor (effects (forward_to_deepgram turns)))
  /\ filter is_passed_on (session k relayed)
     = map to_action (flat_map (fun m => deliver (fst m) (snd m)) messages)
  /\ exists before,
      session k relayed = before ++ [Close] /\ filter is_close before = [].
Proof.
  intros K _ _ I. rewrite (session_eq k relayed K).
  split; [|split].
  - cbn [filter is_vendor_send]. rewrite filter_app. cbn [filter is_vendor_send].
    rewrite app_nil_r, (filter_map_action is_vendor_send to_vendor)
      by (now intros []).
    f_equal. apply (interleaving_nil_l _ _ _ (interleaving_filter to_vendor _ _ _ I)).
    apply from_deepgram_no_vendor.
  - cbn [filter is_passed_on]. rewrite filter_app. cbn [filter is_passed_on].
    rewrite app_nil_r, (filter_map_action is_passed_on passed_on)
      by (now intros []).
    f_equal. rewrite <- (from_deepgram_passed_on messages ending notified).
    apply (interleaving_nil_r _ _ _ (interleaving_filter passed_on _ _ _ I)).
    apply loop_passes_nothing_on.
  - exists (Accept :: Connect deepgram_url ("Token " ++ strip k)
                   :: map to_action relayed).
    split; [reflexivity|].
    cbn [filter is_close].
    rewrite (filter_map_action is_close (fun _ => false)) by (now intros []).
    clear I. induction relayed as [|e l IH]; [reflexivity | exact IH].
Qed.

Lemma relay_session_order_witness :
  filter is_vendor_send
         (session long_secret [ToVendorBytes "a"; ToClientText "hello"])
  = map to_action
        (filter to_vendor (effects (forward_to_deepgram [audio "a" SendOk; hangup])))
  /\ filter is_passed_on
            (session long_secret [ToVendorBytes "a"; ToClientText "hello"])
     = map to_action
           (flat_map (fun m => deliver (fst m) (snd m)) [(VText "hello", true)])
  /\ exists before,
      session long_secret [ToVendorBytes "a"; ToClientText "hello"]
      = before ++ [Close]
      /\ filter is_close before = [].
Proof.
  apply (relay_session_order long_secret [(VText "hello", true)] ClosedOk true
                             [audio "a" SendOk; hangup]
                             [ToVendorBytes "a"; ToClientText "hello"]).
  - vm_compute. lia.
  - discriminate.
  - discriminate.
  - apply il_right, il_left, il_nil.
Defined.

(** X16.  With a secret of 20 characters or more, when the vendor
    connection cannot be opened the client is sent one error frame and its
    connection is closed; nothing is sent to the vendor. *)
Theorem relay_reports_failed_connection
        (k : string) (connect : string -> string -> connect_outcome) :
  (20 <= String.length (strip k))%nat ->
  (forall relayed,
      connect deepgram_url ("Token " ++ strip k)%string <> Connected relayed) ->
  exists message,
    websocket_deepgram_proxy (Some k) connect
    = [Accept; Connect deepgram_url ("Token " ++ strip k);
       SendText (error_frame message); Close]
    /\ match connect deepgram_url ("Token " ++ strip k)%string with
       | InvalidStatusCode status_code =>
           message = ("Deepgram connection failed: HTTP " ++ status_code
                      ++ ". Check API key and URL format.")%string
       | ConnectError msg => message = ("WebSocket proxy error: " ++ msg)%string
       | Connected _ => False
       end.
Proof.
  intros K N. rewrite (proxy_connects k connect K).
  destruct (connect deepgram_url ("Token " ++ strip k)%string)
    as [status_code|msg|relayed].
  - eexists. split; reflexivity.
  - eexists. split; reflexivity.
  - now contradiction (N relayed).
Qed.

Lemma relay_reports_failed_connection_witness :
  exists message,
    websocket_deepgram_proxy (Some long_secret) refusing
    = [Accept; Connect deepgram_url ("Token " ++ strip long_secret);
       SendText (error_frame message); Close]
    /\ match refusing deepgram_url ("Token " ++ strip long_secret)%string with
       | InvalidStatusCode status_code =>
           message = ("Deepgram connection failed: HTTP " ++ status_code
                      ++ ". Check API key and URL format.")%string
       | ConnectError msg => message = ("WebSocket proxy error: " ++ msg)%string
       | Connected _ => False
       end.
Proof.
  apply (relay_reports_failed_connection long_secret refusing).
  - vm_compute. lia.
  - discriminate.
Defined.

(** ** The allowed origins *)

Import Config ConfigFacts.

(** X17.  Whatever [ENVIRONMENT] and [ALLOWED_ORIGINS] hold, the list of
    allowed origins is not empty, and each origin in it is not empty, has
    no whitespace around it and no comma in it. *)
Theorem allowed_origins_clean (ENVIRONMENT ALLOWED_ORIGINS : option string) :
  allowed_origins ENVIRONMENT ALLOWED_ORIGINS <> []
  /\ Forall clean (allowed_origins ENVIRONMENT ALLOWED_ORIGINS).
Proof.
  unfold allowed_origins. destruct (is_production ENVIRONMENT).
  - cbv zeta.
    pose proof (stripped_clean _ (split_pieces "," (getenv ALLOWED_ORIGINS ""))) as C.
    destruct (map strip _) as [|o os].
    + split; [discriminate|]. repeat constructor; try discriminate.
    + split; [discriminate | exact C].
  - split; [discriminate|].
    repeat constructor; discriminate.
Qed.

(** X18.  In production, origins that are written without surrounding
    whitespace and without commas and listed with a comma and a blank
    between them are read back as they were listed. *)
Theorem allowed_origins_round_trip (origins : list string) :
  origins <> [] ->
  Forall clean origins ->
  allowed_origins (Some "production") (Some (join ", " origins)) = origins.
Proof.
  destruct origins as [|origin origins]; [congruence|].
  intros _. apply allowed_origins_listed.
Qed.

Lemma allowed_origins_round_trip_witness :
  allowed_origins (Some "production")
                  (Some (join ", " ["https://aura.example"; "https://app.example"]))
  = ["https://aura.example"; "https://app.example"].
Proof.
  apply (allowed_origins_round_trip ["https://aura.example"; "https://app.example"]).
  - discriminate.
  - repeat constructor; discriminate.
Defined.

(** ** The endpoint that tests the model *)

Import OpenAI OpenAIFacts.

(** X19.  [test_openai] always answers with a dictionary, never with an
    error status.  [api_key_configured] tells whether the client exists or
    can be created; without it the status is "error" and no call is made;
    with it the test prompt is sent once and the status is "success",
    "timeout" or "error" as the call ends.  The last handler, which
    answers [None] for [api_key_configured], is not reached: with a key
    [get_openai_client] returns. *)
Theorem test_openai_answers (env : environment) (st : state) :
  exists answer,
    fst (test_openai env st) = Ok answer
    /\ lookup "api_key_configured" answer = Some (JBool (configured env st))
    /\ lookup "status" answer
       = Some (JStr (if configured env st then
                       match call_openai env test_prompt with
                       | Replied _ => "success"
                       | TimedOut => "timeout"
                       | Failed _ => "error"
                       end
                     else "error"))
    /\ trace (snd (test_openai env st))
       = trace st ++ (if configured env st then [OpenAICall test_prompt] else []).
Proof.
  rewrite test_openai_eq. destruct (configured env st).
  - destruct (call_openai env test_prompt);
      eexists; repeat split; reflexivity.
  - eexists. repeat split. cbn. now rewrite app_nil_r.
Qed.

(** X20.  When the client raises, whatever the class of the exception,
    [test_openai] reports the error type "Exception"; its quota flag is set
    exactly when [sync_call] found a quota or rate limit error, also when
    only the class was [RateLimitError]; and its authentication flag is
    what the client's own message gives. *)
Theorem test_openai_diagnosis
        (key : option string) (model : string -> upstream) (L : library)
        (st : state) (error_type msg : string) :
  configured (served_by key model L) st = true ->
  model test_prompt
  = {| timed_out := false; completion_of := ClientError error_type msg |} ->
  exists answer,
    fst (test_openai (served_by key model L) st) = Ok answer
    /\ lookup "status" answer = Some (JStr "error")
    /\ lookup "error_type" answer = Some (JStr "Exception")
    /\ lookup "is_quota_error" answer
       = Some (JBool (quota_exceeded error_type (lower msg)))
    /\ lookup "is_auth_error" answer = Some (JBool (is_auth_error msg)).
Proof.
  intros C M. rewrite test_openai_eq, C.
  cbn [call_openai served_by]. unfold awaited. rewrite M. cbn [timed_out completion_of].
  destruct (sync_call_diagnosis error_type msg) as (error_msg & -> & Q & A).
  cbn [str]. eexists. split; [reflexivity|].
  cbn [lookup String.eqb Ascii.eqb Bool.eqb fst].
  now rewrite Q, A.
Qed.

Lemma test_openai_diagnosis_witness :
  exists answer,
    fst (test_openai (served_by (Some "sk-test") limited lib_excessive) fresh)
    = Ok answer
    /\ lookup "status" answer = Some (JStr "error")
    /\ lookup "error_type" answer = Some (JStr "Exception")
    /\ lookup "is_quota_error" answer
       = Some (JBool (quota_exceeded "RateLimitError" (lower "Too many requests")))
    /\ lookup "is_auth_error" answer
       = Some (JBool (is_auth_error "Too many requests")).
Proof.
  apply (test_openai_diagnosis (Some "sk-test") limited lib_excessive fresh
                               "RateLimitError" "Too many requests").
  - reflexivity.
  - reflexivity.
Defined.

(** ** The script and the endpoint *)

(** X30.  The script [test_openai.py] and the endpoint [test_openai] agree
    on a failed call: when the script advises about quota for an exception
    of the client, the endpoint sets its quota flag for the same exception,
    and when the script advises about authentication, the endpoint sets its
    authentication flag. *)
Theorem script_advice_agrees
        (key : option string) (model : string -> upstream) (L : library)
        (st : state) (error_type msg : string) :
  configured (served_by key model L) st = true ->
  model test_prompt
  = {| timed_out := false; completion_of := ClientError error_type msg |} ->
  exists answer,
    fst (test_openai (served_by key model L) st) = Ok answer
    /\ (Script.diagnose msg = Script.QuotaHint
        -> lookup "is_quota_error" answer = Some (JBool true))
    /\ (Script.diagnose msg = Script.AuthenticationHint
        -> lookup "is_auth_error" answer = Some (JBool true)).
Proof.
  intros C M. rewrite test_openai_eq, C.
  cbn [call_openai served_by]. unfold awaited. rewrite M. cbn [timed_out completion_of].
  destruct (sync_call_diagnosis error_type msg) as (error_msg & -> & Q & A).
  cbn [str]. eexists. split; [reflexivity|].
  cbn [lookup String.eqb Ascii.eqb Bool.eqb fst]. rewrite Q, A.
  unfold Script.diagnose, quota_exceeded, is_auth_error.
  rewrite (contains_lower "429" msg eq_refl).
  destruct (contains "quota" (lower msg)), (contains "429" msg),
    (contains "insufficient_quota" (lower msg)),
    (contains "rate limit" (lower msg)),
    (contains "api key" (lower msg)), (contains "authentication" (lower msg)),
    (contains "401" msg), (contains "timeout" (lower msg));
    cbn; split; intros H; try reflexivity; discriminate H.
Qed.

Lemma script_advice_agrees_witness :
  exists answer,
    fst (test_openai (served_by (Some "sk-test") exhausted lib_excessive) fresh)
    = Ok answer
    /\ Script.diagnose "Error code: 429 - You exceeded your current quota"
       = Script.QuotaHint
    /\ lookup "is_quota_error" answer = Some (JBool true).
Proof.
  destruct (script_advice_agrees
              (Some "sk-test") exhausted lib_excessive fresh "APIStatusError"
              "Error code: 429 - You exceeded your current quota"
              eq_refl eq_refl) as (answer & E & Q & _).
  exists answer. split; [exact E|]. split; [reflexivity|].
  apply Q. reflexivity.
Defined.

(** ** The text endpoint *)

Import Terms EndpointFacts CandidateFacts.








(** X5.  A reply that [json.loads] rejects and that names none of the
    three fields in double quotes goes through the field extraction with
    every default: the request is answered with sentiment 0.5, no keyword
    and the emotion "neutral", and not with an error. *)
Theorem reply_without_fields_gets_defaults
        (list_of_set : list string -> list string) (env : environment)
        (text : string) (st : state) (response msg : string) :
  ascii_text text = true ->
  strip text <> ""%string ->
  configured env st = true ->
  call_openai env (prompt_for text) = Replied (Some response) ->
  response <> ""%string ->
  json_loads (lib env) response = Raise (JSONDecodeError msg) ->
  contains (quoted "sentiment") response = false ->
  contains (quoted "keywords") response = false ->
  contains (quoted "emotion") response = false ->
  repair (lib env) response
  = Return (JDict [("sentiment", JFloat (Fin (1#2)));
                   ("keywords", JList []);
                   ("emotion", JStr "neutral")])
  /\ fst (process_text list_of_set env text st)
     = Ok {| sentiment := Fin (1#2); keywords := []; emotion := "neutral" |}.
Proof.
  intros _ B C R N J S K E.
  destruct (extract_fields_defaults (lib env) response S K E) as [P F].
  assert (Q : repair (lib env) response
              = Return (JDict [("sentiment", JFloat (Fin (1#2)));
                               ("keywords", JList []);
                               ("emotion", JStr "neutral")]))
    by (rewrite (repair_reaches_field_extraction _ _ msg P J); exact F).
  split; [exact Q|].
  rewrite (process_text_after_check _ _ text st B).
  destruct response as [|c response]; [congruence|].
  rewrite (after_check_reply _ _ text st c response C R).
  unfold digest. rewrite Q.
  rewrite (normalise_well_formed
             (lib env)
             [("sentiment", JFloat (Fin (1#2))); ("keywords", JList []);
              ("emotion", JStr "neutral")]
             (Fin (1#2)) [] "neutral" eq_refl eq_refl eq_refl).
  reflexivity.
Qed.

Lemma reply_without_fields_gets_defaults_witness :
  repair (lib (env_with lib_unquoted (Replied (Some "I cannot analyse that."))))
         "I cannot analyse that."
  = Return (JDict [("sentiment", JFloat (Fin (1#2)));
                   ("keywords", JList []);
                   ("emotion", JStr "neutral")])
  /\ fst (process_text
            first_seen
            (env_with lib_unquoted (Replied (Some "I cannot analyse that.")))
            "I am happy" fresh)
     = Ok {| sentiment := Fin (1#2); keywords := []; emotion := "neutral" |}.
Proof.
  apply (reply_without_fields_gets_defaults
           first_seen
           (env_with lib_unquoted (Replied (Some "I cannot analyse that.")))
           "I am happy" fresh "I cannot analyse that."
           "Expecting value: line 1 column 33 (char 32)");
    try reflexivity; discriminate.
Defined.

(** X11.  A reply that holds, after text without an opening brace, an
    object without inner braces that has the key "sentiment": the pattern
    finds that object, whatever follows it, and the object alone is handed
    to [json.loads]; only when it is rejected with a [JSONDecodeError] is
    the whole reply parsed instead. *)
Theorem reply_candidate_found (L : library) (pre a b post : string) :
  all_chars (fun c => negb (Ascii.eqb c "{")) pre = true ->
  all_chars not_brace a = true ->
  all_chars not_brace b = true ->
  let candidate := ("{" ++ a ++ quoted "sentiment" ++ b ++ "}")%string in
  let response := (pre ++ candidate ++ post)%string in
  (exists m, search json_pattern response = Some m /\ group0 m = candidate)
  /\ repair L response
     = match json_loads L candidate with
       | Raise (JSONDecodeError _) => json_loads L response
       | r => r
       end.
Proof.
  intros Hp Ha Hb candidate response.
  assert (F : (response
               = pre ++ "{" ++ a ++ quoted "sentiment" ++ b ++ "}" ++ post)%string)
    by (unfold response, candidate; now rewrite !append_assoc).
  destruct (search_from_candidate pre a b post None Hp Ha Hb) as (m & E & G).
  rewrite <- F in E. fold candidate in G.
  split; [exists m; now split|].
  unfold repair. change (search_from json_pattern None response)
    with (search json_pattern response) in E.
  now rewrite E, G.
Qed.

Lemma reply_candidate_found_witness :
  (exists m,
      search json_pattern
             ("Here is the analysis: "
              ++ ("{" ++ "" ++ quoted "sentiment" ++ ": 0.9" ++ "}")
              ++ " Hope this helps!")
      = Some m
      /\ group0 m = ("{" ++ "" ++ quoted "sentiment" ++ ": 0.9" ++ "}")%string)
  /\ repair lib_unquoted
            ("Here is the analysis: "
             ++ ("{" ++ "" ++ quoted "sentiment" ++ ": 0.9" ++ "}")
             ++ " Hope this helps!")
     = match json_loads lib_unquoted
                        ("{" ++ "" ++ quoted "sentiment" ++ ": 0.9" ++ "}") with
       | Raise (JSONDecodeError _) =>
           json_loads lib_unquoted
                      ("Here is the analysis: "
                       ++ ("{" ++ "" ++ quoted "sentiment" ++ ": 0.9" ++ "}")
                       ++ " Hope this helps!")
       | r => r
       end.
Proof.
  apply (reply_candidate_found lib_unquoted "Here is the analysis: " "" ": 0.9"
                               " Hope this helps!"); reflexivity.
Defined.

(** X25.  Once the client has been created the key is not read again: the
    request runs the same whatever [OPENAI_API_KEY] holds by then, also
    when it has been unset. *)
Theorem process_text_cached_client
        (list_of_set : list string -> list string) (env : environment)
        (key : option string) (text : string) (st : state) :
  openai_client st = true ->
  process_text list_of_set (with_key key env) text st
  = process_text list_of_set env text st.
Proof.
  intros H. destruct (string_dec (strip text) "") as [B|B].
  - now rewrite !(process_text_blank _ _ text st B).
  - rewrite !(process_text_after_check _ _ text st B).
    unfold after_check, configured. rewrite H. reflexivity.
Qed.

Lemma process_text_cached_client_witness :
  process_text first_seen (with_key None env_excessive) "I am happy" warm
  = process_text first_seen env_excessive "I am happy" warm.
Proof.
  apply (process_text_cached_client first_seen env_excessive None "I am happy" warm).
  reflexivity.
Defined.

(** X26.  The errors of [process_text] are these: status 400 with "Text
    cannot be empty", and status 500 with the message of the missing key,
    with "No response from OpenAI API", or with a message that starts with
    "Failed to parse OpenAI response: " or with "Error processing text: ". *)
Theorem process_text_error_details
        (list_of_set : list string -> list string) (env : environment)
        (text : string) (st : state) :
  match fst (process_text list_of_set env text st) with
  | Ok _ => True
  | HTTPException status_code detail => known_detail status_code detail
  | Uncaught _ => False
  end.
Proof.
  destruct (string_dec (strip text) "") as [B|B].
  - rewrite (process_text_blank _ _ text st B). left. now split.
  - rewrite (process_text_after_check _ _ text st B). apply after_check_detail.
Qed.

(** ** The fallback scorer *)

Import ScorerFacts Halves.

(** X27.  The scorer does not see the case of letters: two texts with the
    same lower-cased form get the same response. *)
Theorem scorer_ignores_case
        (list_of_set : list string -> list string) (t1 t2 : string) :
  lower t1 = lower t2 ->
  fallback_sentiment_analysis list_of_set t1
  = fallback_sentiment_analysis list_of_set t2.
Proof.
  intros E. unfold fallback_sentiment_analysis.
  now rewrite (raw_sentiment_lower t1 t2 E), E.
Qed.

Lemma scorer_ignores_case_witness :
  fallback_sentiment_analysis first_seen "I LOVE this Day!"
  = fallback_sentiment_analysis first_seen "i love THIS day!".
Proof.
  apply (scorer_ignores_case first_seen "I LOVE this Day!" "i love THIS day!").
  reflexivity.
Defined.

(** X28.  A negation marker puts the sentiment on the other side of 0.5.
    For ASCII text with a sentiment word, the sentiment is above 0.5
    exactly when the positive score is the larger, and below exactly when
    the negative score is, if no marker occurs; with a marker it is the
    other way round.  This holds of the rational value and of the double
    the code computes. *)
Theorem scorer_negation_flips_side
        (list_of_set : list string -> list string) (text : string) :
  let t := lower text in
  let p := positive_score t in
  let n := negative_score t in
  ascii_text text = true ->
  (0 < p + n)%Z ->
  (exists q,
      sentiment (fallback_sentiment_analysis list_of_set text) = Fin q
      /\ (1#2 < q <-> if has_negation t then (p < n)%Z else (n < p)%Z)
      /\ (q < 1#2 <-> if has_negation t then (n < p)%Z else (p < n)%Z))
  /\ above64 (clamp64 (blend64 (fst (scores t)) (snd (scores t))))
     = (if has_negation t then (p <? n)%Z else (n <? p)%Z)
  /\ below64 (clamp64 (blend64 (fst (scores t)) (snd (scores t))))
     = (if has_negation t then (n <? p)%Z else (p <? n)%Z).
Proof.
  intros t p n _ T.
  pose proof (positive_score_bounds t) as Bp.
  pose proof (negative_score_bounds t) as Bn.
  fold p in Bp. fold n in Bn.
  split.
  - exists (raw_sentiment text). split; [apply fallback_sentiment|].
    rewrite raw_sentiment_eq, total_positive_gtb by (fold t p n; lia).
    fold t. unfold scores. fold p n.
    destruct (has_negation t); cbn [fst snd]; apply blend_above; lia.
  - unfold scores. fold p n.
    destruct (has_negation t); cbn [fst snd]; apply sides_in_range; lia.
Qed.

Lemma scorer_negation_flips_side_witness :
  (exists q,
      sentiment (fallback_sentiment_analysis first_seen "I do not love this bad day")
      = Fin q
      /\ (1#2 < q <-> (2 < 1)%Z)
      /\ (q < 1#2 <-> (1 < 2)%Z))
  /\ above64 (clamp64 (blend64 1 2)) = false
  /\ below64 (clamp64 (blend64 1 2)) = true.
Proof.
  apply (scorer_negation_flips_side first_seen "I do not love this bad day").
  - reflexivity.
  - reflexivity.
Defined.

(** X29.  The scorer's emotion is one of seven labels: positive, negative,
    neutral, joyful, sad, angry, calm. *)
Theorem scorer_emotion_labels
        (list_of_set : list string -> list string) (text : string) :
  In (emotion (fallback_sentiment_analysis list_of_set text)) labels.
Proof.
  rewrite fallback_emotion.
  apply refine_emotion_label, threshold_emotion_label.
Qed.

End Further.
